(** * ugcs: a micro Google Cloud Storage client

    A shallow embedding of [ugcs.py]: the text helpers the program relies on
    (UTF-8, url-safe base64, percent-encoding, JSON), the access-token
    provider with its on-disk cache, and the bucket operations, followed by
    the properties of the program that its specification states.

    Python values are embedded as follows.
    - [str] is a list of Unicode code points, [bytes] a list of octets, both
      carried by [Z].
    - The values [json.loads] can return form the type [json]; Python's
      [None] is [JNull].  A finite float is the rational number it stands
      for; the float that a literal reads as is idealised as the number the
      literal denotes, while sums of floats are rounded as binary64 sums.
    - What the program observes but does not define is an [Env]: the clock,
      the network, the [openssl] executable, the faults of the file system.
    - A method is a function in the monad [M]: it threads the [State] (file
      system, log of the operations performed outside, the provider's
      [cached_token]) and either returns a value or raises an exception.
      The state an exception leaves behind is kept. *)

From Stdlib Require Import ZArith QArith List String Ascii Bool Lia.
From Stdlib Require Import DecimalString.
From Stdlib Require DecimalFacts DecimalPos.
From stdpp Require Import base option list gmap.
Import ListNotations.

Local Open Scope Z_scope.
#[local] Set Warnings "-register-all".

(** ** Text and bytes *)

Definition pystr := list Z.
Definition pybytes := list Z.

(** A literal: the code points of an ASCII string constant. *)
Definition py (s : string) : pystr :=
  List.map (fun c => Z.of_N (N_of_ascii c)) (list_ascii_of_string s).
Arguments py : simpl never.

(** The exceptions the program can meet. *)
Inductive exn :=
| KeyError (k : pystr)
| TypeError
| ValueError
| OverflowError
| JSONDecodeError
| UnicodeEncodeError
| FileNotFoundError
| FileExistsError
| OSError
| BadGzipFile
| URLError
| HTTPError (code : Z) (body : pybytes).

Inductive result (A : Type) :=
| Ok (a : A)
| Raise (e : exn).
Arguments Ok {A} a.
Arguments Raise {A} e.

Definition rbind {A B} (r : result A) (k : A -> result B) : result B :=
  match r with
  | Ok a => k a
  | Raise e => Raise e
  end.

(** [s.encode("utf-8")]: lone surrogates cannot be encoded. *)
Definition utf8_char (c : Z) : option pybytes :=
  if c <? 0 then None
  else if c <? 0x80 then Some [c]
  else if c <? 0x800 then
    Some [Z.lor 0xC0 (Z.shiftr c 6); Z.lor 0x80 (Z.land c 0x3F)]
  else if (0xD800 <=? c) && (c <=? 0xDFFF) then None
  else if c <? 0x10000 then
    Some [Z.lor 0xE0 (Z.shiftr c 12);
          Z.lor 0x80 (Z.land (Z.shiftr c 6) 0x3F);
          Z.lor 0x80 (Z.land c 0x3F)]
  else if c <? 0x110000 then
    Some [Z.lor 0xF0 (Z.shiftr c 18);
          Z.lor 0x80 (Z.land (Z.shiftr c 12) 0x3F);
          Z.lor 0x80 (Z.land (Z.shiftr c 6) 0x3F);
          Z.lor 0x80 (Z.land c 0x3F)]
  else None.

Fixpoint utf8_encode (s : pystr) : option pybytes :=
  match s with
  | [] => Some []
  | c :: s' =>
      match utf8_char c, utf8_encode s' with
      | Some b, Some bs => Some (b ++ bs)
      | _, _ => None
      end
  end.

Definition str_encode (s : pystr) : result pybytes :=
  match utf8_encode s with
  | Some b => Ok b
  | None => Raise UnicodeEncodeError
  end.

(** [bytes.decode()] of output that is ASCII by construction. *)
Definition ascii_decode (b : pybytes) : pystr := b.

(** ** [base64.urlsafe_b64encode] *)

Definition b64_char (i : Z) : Z :=
  if i <? 26 then 65 + i
  else if i <? 52 then 97 + (i - 26)
  else if i <? 62 then 48 + (i - 52)
  else if i =? 62 then 45
  else 95.

Definition b64_pad : Z := 61.

(** The character of a 6-bit group. *)
Definition sextet (v : Z) : Z := b64_char (Z.land v 63).

Fixpoint urlsafe_b64encode (b : pybytes) : pybytes :=
  match b with
  | [] => []
  | [x] =>
      [sextet (Z.shiftr x 2);
       sextet (Z.shiftl (Z.land x 3) 4);
       b64_pad; b64_pad]
  | [x; y] =>
      [sextet (Z.shiftr x 2);
       sextet (Z.lor (Z.shiftl (Z.land x 3) 4) (Z.shiftr y 4));
       sextet (Z.shiftl (Z.land y 15) 2);
       b64_pad]
  | x :: y :: z :: rest =>
      sextet (Z.shiftr x 2)
      :: sextet (Z.lor (Z.shiftl (Z.land x 3) 4) (Z.shiftr y 4))
      :: sextet (Z.lor (Z.shiftl (Z.land y 15) 2) (Z.shiftr z 6))
      :: sextet z
      :: urlsafe_b64encode rest
  end.

(** ** [urllib.parse.quote], [quote_plus] and [urlencode] *)

Definition is_upper (c : Z) : bool := (65 <=? c) && (c <=? 90).
Definition is_lower (c : Z) : bool := (97 <=? c) && (c <=? 122).
Definition is_digit (c : Z) : bool := (48 <=? c) && (c <=? 57).

(** [_ALWAYS_SAFE]: letters, digits and [_.-~]. *)
Definition always_safe (c : Z) : bool :=
  is_upper c || is_lower c || is_digit c
  || (c =? 95) || (c =? 46) || (c =? 45) || (c =? 126).

Definition hex_upper (d : Z) : Z := if d <? 10 then 48 + d else 55 + d.
Definition hex_lower (d : Z) : Z := if d <? 10 then 48 + d else 87 + d.

Definition mem_Z (c : Z) (l : list Z) : bool := existsb (Z.eqb c) l.

Definition quote_byte (safe : list Z) (b : Z) : pystr :=
  if always_safe b || mem_Z b safe then [b]
  else [37; hex_upper (Z.land (Z.shiftr b 4) 15); hex_upper (Z.land b 15)].

Definition quote_from_bytes (safe : list Z) (b : pybytes) : pystr :=
  List.concat (List.map (quote_byte safe) b).

Definition quote (s : pystr) (safe : pystr) : result pystr :=
  rbind (str_encode s) (fun b => Ok (quote_from_bytes safe b)).

Definition replace_space_plus (s : pystr) : pystr :=
  List.map (fun c => if c =? 32 then 43 else c) s.

Definition quote_plus (s : pystr) : result pystr :=
  if mem_Z 32 s
  then rbind (quote s [32]) (fun q => Ok (replace_space_plus q))
  else quote s [].

Fixpoint str_join (sep : pystr) (l : list pystr) : pystr :=
  match l with
  | [] => []
  | [x] => x
  | x :: rest => x ++ sep ++ str_join sep rest
  end.

Fixpoint urlencode_pairs (q : list (pystr * pystr)) : result (list pystr) :=
  match q with
  | [] => Ok []
  | (k, v) :: rest =>
      rbind (quote_plus k) (fun k' =>
      rbind (quote_plus v) (fun v' =>
      rbind (urlencode_pairs rest) (fun l =>
      Ok ((k' ++ py "=" ++ v') :: l))))
  end.

Definition urlencode (q : list (pystr * pystr)) : result pystr :=
  rbind (urlencode_pairs q) (fun l => Ok (str_join (py "&") l)).

(** ** JSON values *)

Inductive pyfloat :=
| FFin (q : Q)
| FInf
| FNegInf
| FNaN.

Inductive json :=
| JNull
| JBool (b : bool)
| JInt (z : Z)
| JFloat (f : pyfloat)
| JStr (s : pystr)
| JArr (l : list json)
| JObj (l : list (pystr * json)).

Definition pystr_eqb (a b : pystr) : bool := bool_decide (a = b).

(** [d[k]] on a dict, and [d[k] = v]: an existing key keeps its position. *)
Fixpoint dict_get (d : list (pystr * json)) (k : pystr) : option json :=
  match d with
  | [] => None
  | (k', v) :: r => if pystr_eqb k' k then Some v else dict_get r k
  end.

Fixpoint dict_set (d : list (pystr * json)) (k : pystr) (v : json)
  : list (pystr * json) :=
  match d with
  | [] => [(k, v)]
  | (k', v') :: r =>
      if pystr_eqb k' k then (k', v) :: r else (k', v') :: dict_set r k v
  end.

(** [x[k]] for a string key [k]: only a dict can be subscripted that way. *)
Definition py_getitem (x : json) (k : pystr) : result json :=
  match x with
  | JObj d =>
      match dict_get d k with
      | Some v => Ok v
      | None => Raise (KeyError k)
      end
  | _ => Raise TypeError
  end.

Definition py_setitem (x : json) (k : pystr) (v : json) : result json :=
  match x with
  | JObj d => Ok (JObj (dict_set d k v))
  | _ => Raise TypeError
  end.

(** *** Floats

    A Python float is an IEEE 754 binary64 number: 53 significant bits,
    exponents from -1022 to 1023.  The result of an addition is the exact
    sum rounded to the nearest such number, ties going to the even
    significand, and a sum beyond the largest float is an infinity. *)

(** [2 ** k]. *)
Definition pow2 (k : Z) : Q :=
  if 0 <=? k then inject_Z (2 ^ k) else 1 # Z.to_pos (2 ^ (- k)).

(** The exponent [e] with [2 ** e <= q < 2 ** (e + 1)], for a positive [q]. *)
Definition Qlog2 (q : Q) : Z :=
  let k := Z.log2 (Qnum q) - Z.log2 (Zpos (Qden q)) in
  if Qle_bool (pow2 k) q then k else k - 1.

(** The integer nearest to a non-negative [x], the even one of two. *)
Definition round_half_even (x : Q) : Z :=
  let f := Qnum x / Zpos (Qden x) in
  match (2 * (Qnum x mod Zpos (Qden x))) ?= Zpos (Qden x) with
  | Lt => f
  | Gt => f + 1
  | Eq => if Z.even f then f else f + 1
  end.

(** The float nearest to the real number [q]. *)
Definition binary64_round (q : Q) : pyfloat :=
  if Qnum q =? 0 then FFin 0
  else
    let a := if Qnum q <? 0 then Qopp q else q in
    let u := Z.max (Qlog2 a) (-1022) - 52 in
    let r := Qred (inject_Z (round_half_even (a * pow2 (- u))) * pow2 u) in
    if Qle_bool (pow2 1024) r
    then (if Qnum q <? 0 then FNegInf else FInf)
    else FFin (if Qnum q <? 0 then Qopp r else r).

(** [x + y] for two finite floats. *)
Definition float_add (x y : Q) : pyfloat := binary64_round (x + y).

(** [float(n)] for an int [n]. *)
Definition float_of_int (n : Z) : result Q :=
  match binary64_round (inject_Z n) with
  | FFin q => Ok q
  | _ => Raise OverflowError
  end.

(** [t >= x] for a finite float [t]: defined on numbers (a bool counts as 0
    or 1); a float and an int are compared by their exact values. *)
Definition float_ge (t : Q) (x : json) : result bool :=
  match x with
  | JInt z => Ok (Qle_bool (inject_Z z) t)
  | JBool b => Ok (Qle_bool (inject_Z (if b then 1 else 0)) t)
  | JFloat (FFin q) => Ok (Qle_bool q t)
  | JFloat FNegInf => Ok true
  | JFloat FInf => Ok false
  | JFloat FNaN => Ok false
  | _ => Raise TypeError
  end.

(** [f >= x] for any float [f]. *)
Definition pyfloat_ge (f : pyfloat) (x : json) : result bool :=
  match f with
  | FFin t => float_ge t x
  | FInf =>
      match x with
      | JInt _ | JBool _ => Ok true
      | JFloat FNaN => Ok false
      | JFloat _ => Ok true
      | _ => Raise TypeError
      end
  | FNegInf =>
      match x with
      | JFloat FNegInf => Ok true
      | JInt _ | JBool _ | JFloat _ => Ok false
      | _ => Raise TypeError
      end
  | FNaN =>
      match x with
      | JInt _ | JBool _ | JFloat _ => Ok false
      | _ => Raise TypeError
      end
  end.

(** [x + n] for an int [n].  Added to a float, [n] is first converted to a
    float, and the sum is a float sum. *)
Definition add_int (x : json) (n : Z) : result json :=
  match x with
  | JInt z => Ok (JInt (z + n))
  | JBool b => Ok (JInt ((if b then 1 else 0) + n))
  | JFloat (FFin q) =>
      rbind (float_of_int n) (fun m => Ok (JFloat (float_add q m)))
  | JFloat f => rbind (float_of_int n) (fun _ => Ok (JFloat f))
  | _ => Raise TypeError
  end.

(** [a + b] where [a] is expected to be a string. *)
Definition str_concat (a b : json) : result pystr :=
  match a, b with
  | JStr x, JStr y => Ok (x ++ y)
  | _, _ => Raise TypeError
  end.

(** [int(t)] truncates towards zero. *)
Definition int_of_float (t : Q) : Z := Z.quot (Qnum t) (Zpos (Qden t)).

(** ** [json.dumps] *)

Definition hex4_lower (n : Z) : pystr :=
  [hex_lower (Z.land (Z.shiftr n 12) 15);
   hex_lower (Z.land (Z.shiftr n 8) 15);
   hex_lower (Z.land (Z.shiftr n 4) 15);
   hex_lower (Z.land n 15)].

Definition escape_u (n : Z) : pystr := 92 :: 117 :: hex4_lower n.

(** One character under [ensure_ascii]. *)
Definition escape_char (c : Z) : pystr :=
  if c =? 34 then [92; 34]
  else if c =? 92 then [92; 92]
  else if c =? 8 then [92; 98]
  else if c =? 12 then [92; 102]
  else if c =? 10 then [92; 110]
  else if c =? 13 then [92; 114]
  else if c =? 9 then [92; 116]
  else if (32 <=? c) && (c <=? 126) then [c]
  else if c <? 0x10000 then escape_u c
  else
    let n := c - 0x10000 in
    escape_u (Z.lor 0xD800 (Z.land (Z.shiftr n 10) 0x3FF))
    ++ escape_u (Z.lor 0xDC00 (Z.land n 0x3FF)).

Definition encode_basestring_ascii (s : pystr) : pystr :=
  34 :: List.concat (List.map escape_char s) ++ [34].

Definition int_repr (z : Z) : pystr := py (NilZero.string_of_int (Z.to_int z)).

(** [sep.join(f(x) for x in l)]. *)
Definition join_map {A} (f : A -> pystr) (sep : pystr) : list A -> pystr :=
  fix go (l : list A) : pystr :=
    match l with
    | [] => []
    | x :: r =>
        match r with
        | [] => f x
        | _ :: _ => f x ++ sep ++ go r
        end
    end.

Section Dumps.

(** [float.__repr__] for a finite float is left to the runtime. *)
Variable float_repr : Q -> pystr.

Definition float_dumps (f : pyfloat) : pystr :=
  match f with
  | FFin q => float_repr q
  | FInf => py "Infinity"
  | FNegInf => py "-Infinity"
  | FNaN => py "NaN"
  end.

Variables item_sep key_sep : pystr.

Fixpoint dumps (j : json) : pystr :=
  match j with
  | JNull => py "null"
  | JBool true => py "true"
  | JBool false => py "false"
  | JInt z => int_repr z
  | JFloat f => float_dumps f
  | JStr s => encode_basestring_ascii s
  | JArr l => py "[" ++ join_map dumps item_sep l ++ py "]"
  | JObj d =>
      py "{" ++
      join_map (fun kv : pystr * json =>
                  encode_basestring_ascii (fst kv) ++ key_sep ++ dumps (snd kv))
               item_sep d
      ++ py "}"
  end.

End Dumps.

(** ** [json.loads]

    The scanner follows the decoder of the [json] module: whitespace is
    [ \t\n\r], strings are scanned in strict mode, a number with a fraction
    or an exponent is a float.  Nested values recurse on a fuel; twice the
    length of the text is always enough ([scan_fuel] below), so the fuel
    never decides the result. *)

Definition is_ws (c : Z) : bool :=
  (c =? 32) || (c =? 9) || (c =? 10) || (c =? 13).

Fixpoint skip_ws (s : pystr) : pystr :=
  match s with
  | c :: r => if is_ws c then skip_ws r else s
  | [] => []
  end.

Fixpoint strip_prefix (p s : pystr) : option pystr :=
  match p, s with
  | [], _ => Some s
  | a :: p', b :: s' => if a =? b then strip_prefix p' s' else None
  | _ :: _, [] => None
  end.

Definition hex_val (c : Z) : option Z :=
  if is_digit c then Some (c - 48)
  else if (97 <=? c) && (c <=? 102) then Some (c - 87)
  else if (65 <=? c) && (c <=? 70) then Some (c - 55)
  else None.

Definition decode_uXXXX (s : pystr) : option (Z * pystr) :=
  match s with
  | a :: b :: c :: d :: r =>
      match hex_val a, hex_val b, hex_val c, hex_val d with
      | Some a, Some b, Some c, Some d =>
          Some (((a * 16 + b) * 16 + c) * 16 + d, r)
      | _, _, _, _ => None
      end
  | _ => None
  end.

Definition backslash (c : Z) : option Z :=
  if c =? 34 then Some 34
  else if c =? 92 then Some 92
  else if c =? 47 then Some 47
  else if c =? 98 then Some 8
  else if c =? 102 then Some 12
  else if c =? 110 then Some 10
  else if c =? 114 then Some 13
  else if c =? 116 then Some 9
  else None.

Definition is_high_surrogate (u : Z) : bool := (0xD800 <=? u) && (u <=? 0xDBFF).
Definition is_low_surrogate (u : Z) : bool := (0xDC00 <=? u) && (u <=? 0xDFFF).
Definition join_surrogates (u u2 : Z) : Z :=
  0x10000 + Z.lor (Z.shiftl (u - 0xD800) 10) (u2 - 0xDC00).

Definition cons_char (c : Z) (k : option (pystr * pystr))
  : option (pystr * pystr) :=
  match k with
  | Some (x, r) => Some (c :: x, r)
  | None => None
  end.

(** The text after an opening quote, up to the closing one. *)
Fixpoint scanstring (n : nat) (s : pystr) : option (pystr * pystr) :=
  match n with
  | O => None
  | S n' =>
      match s with
      | [] => None
      | c :: r =>
          if c =? 34 then Some ([], r)
          else if c =? 92 then
            match r with
            | [] => None
            | e :: r1 =>
                if e =? 117 then
                  match decode_uXXXX r1 with
                  | None => None
                  | Some (u, r2) =>
                      if is_high_surrogate u then
                        match r2 with
                        | b :: v :: r3 =>
                            if (b =? 92) && (v =? 117) then
                              match decode_uXXXX r3 with
                              | None => None
                              | Some (u2, r4) =>
                                  if is_low_surrogate u2
                                  then cons_char (join_surrogates u u2)
                                         (scanstring n' r4)
                                  else cons_char u (scanstring n' r2)
                              end
                            else cons_char u (scanstring n' r2)
                        | _ => cons_char u (scanstring n' r2)
                        end
                      else cons_char u (scanstring n' r2)
                  end
                else
                  match backslash e with
                  | Some x => cons_char x (scanstring n' r1)
                  | None => None
                  end
            end
          else if c <? 32 then None
          else cons_char c (scanstring n' r)
      end
  end.

Fixpoint span_digits (s : pystr) : list Z * pystr :=
  match s with
  | c :: r =>
      if is_digit c
      then let (d, r') := span_digits r in ((c - 48) :: d, r')
      else ([], s)
  | [] => ([], [])
  end.

Definition digits_val (d : list Z) : Z :=
  fold_left (fun a x => a * 10 + x) d 0.

(** [m * 10^e] as a rational. *)
Definition decimal_value (m e : Z) : Q :=
  if 0 <=? e then inject_Z (m * 10 ^ e)
  else Qmake m (Z.to_pos (10 ^ (- e))).

Definition scan_int_part (s : pystr) : option (list Z * pystr) :=
  match s with
  | c :: r =>
      if c =? 48 then Some ([0], r)
      else if is_digit c then Some (span_digits s)
      else None
  | [] => None
  end.

Definition scan_frac (s : pystr) : option (list Z * pystr) :=
  match s with
  | c :: r =>
      if c =? 46 then
        match span_digits r with
        | ([], _) => None
        | (d, r') => Some (d, r')
        end
      else None
  | [] => None
  end.

Definition scan_sign (s : pystr) : Z * pystr :=
  match s with
  | c :: r => if c =? 45 then (-1, r) else if c =? 43 then (1, r) else (1, s)
  | [] => (1, s)
  end.

Definition scan_exp (s : pystr) : option (Z * pystr) :=
  match s with
  | c :: r =>
      if (c =? 101) || (c =? 69) then
        let (sg, r1) := scan_sign r in
        match span_digits r1 with
        | ([], _) => None
        | (d, r2) => Some (sg * digits_val d, r2)
        end
      else None
  | [] => None
  end.

Definition scan_number (s : pystr) : option (json * pystr) :=
  let (sg, s1) :=
    match s with
    | c :: r => if c =? 45 then (-1, r) else (1, s)
    | [] => (1, s)
    end in
  match scan_int_part s1 with
  | None => None
  | Some (ds, r) =>
      match scan_frac r with
      | None =>
          match scan_exp r with
          | None => Some (JInt (sg * digits_val ds), r)
          | Some (e, r2) =>
              Some (JFloat (FFin (decimal_value (sg * digits_val ds) e)), r2)
          end
      | Some (fd, r1) =>
          let m := sg * digits_val (ds ++ fd) in
          let k := Z.of_nat (List.length fd) in
          match scan_exp r1 with
          | None => Some (JFloat (FFin (decimal_value m (- k))), r1)
          | Some (e, r2) => Some (JFloat (FFin (decimal_value m (e - k))), r2)
          end
      end
  end.

(** [dict(pairs)]: a repeated key keeps its first position and last value. *)
Definition dict_of_pairs (l : list (pystr * json)) : list (pystr * json) :=
  fold_left (fun d kv => dict_set d (fst kv) (snd kv)) l [].

Definition scan_constant (s : pystr) : option (json * pystr) :=
  match strip_prefix (py "null") s with
  | Some r => Some (JNull, r)
  | None =>
  match strip_prefix (py "true") s with
  | Some r => Some (JBool true, r)
  | None =>
  match strip_prefix (py "false") s with
  | Some r => Some (JBool false, r)
  | None =>
  match strip_prefix (py "NaN") s with
  | Some r => Some (JFloat FNaN, r)
  | None =>
  match strip_prefix (py "Infinity") s with
  | Some r => Some (JFloat FInf, r)
  | None =>
  match strip_prefix (py "-Infinity") s with
  | Some r => Some (JFloat FNegInf, r)
  | None => scan_number s
  end end end end end end.

Fixpoint scan_once (n : nat) (s : pystr) {struct n} : option (json * pystr) :=
  match n with
  | O => None
  | S n' =>
      match s with
      | [] => None
      | c :: r =>
          if c =? 34 then
            match scanstring (S (List.length r)) r with
            | Some (x, r') => Some (JStr x, r')
            | None => None
            end
          else if c =? 123 then
            match skip_ws r with
            | [] => None
            | d :: r1 =>
                if d =? 125 then Some (JObj [], r1)
                else
                  match scan_members n' (d :: r1) with
                  | Some (m, r2) => Some (JObj (dict_of_pairs m), r2)
                  | None => None
                  end
            end
          else if c =? 91 then
            match skip_ws r with
            | [] => None
            | d :: r1 =>
                if d =? 93 then Some (JArr [], r1)
                else
                  match scan_items n' (d :: r1) with
                  | Some (l, r2) => Some (JArr l, r2)
                  | None => None
                  end
            end
          else scan_constant s
      end
  end
with scan_members (n : nat) (s : pystr) {struct n}
  : option (list (pystr * json) * pystr) :=
  match n with
  | O => None
  | S n' =>
      match s with
      | [] => None
      | q :: r =>
          if q =? 34 then
            match scanstring (S (List.length r)) r with
            | None => None
            | Some (k, r1) =>
                match skip_ws r1 with
                | [] => None
                | col :: r2 =>
                    if col =? 58 then
                      match scan_once n' (skip_ws r2) with
                      | None => None
                      | Some (v, r3) =>
                          match skip_ws r3 with
                          | [] => None
                          | d :: r4 =>
                              if d =? 125 then Some ([(k, v)], r4)
                              else if d =? 44 then
                                match scan_members n' (skip_ws r4) with
                                | Some (m, r5) => Some ((k, v) :: m, r5)
                                | None => None
                                end
                              else None
                          end
                      end
                    else None
                end
            end
          else None
      end
  end
with scan_items (n : nat) (s : pystr) {struct n}
  : option (list json * pystr) :=
  match n with
  | O => None
  | S n' =>
      match scan_once n' s with
      | None => None
      | Some (v, r) =>
          match skip_ws r with
          | [] => None
          | d :: r1 =>
              if d =? 93 then Some ([v], r1)
              else if d =? 44 then
                match scan_items n' (skip_ws r1) with
                | Some (l, r2) => Some (v :: l, r2)
                | None => None
                end
              else None
          end
      end
  end.

Definition json_loads (s : pystr) : result json :=
  match scan_once (2 * List.length s + 2) (skip_ws s) with
  | Some (v, r) =>
      match skip_ws r with
      | [] => Ok v
      | _ :: _ => Raise JSONDecodeError
      end
  | None => Raise JSONDecodeError
  end.

(** ** The environment and the state of a run *)

Record Request := mkRequest {
  req_url : pystr;
  req_headers : list (pystr * pystr);
  req_data : option pybytes;
  req_method : option pystr;
}.

Record Response := mkResponse {
  resp_content_encoding : option pystr;
  resp_body : pybytes;
}.

(** What [urlopen] does with a request: a response, or an exception
    ([HTTPError], [URLError]). *)
Inductive http_outcome :=
| HttpOk (r : Response)
| HttpFail (e : exn).

(** [subprocess.CompletedProcess]. *)
Record Completed := mkCompleted {
  returncode : Z;
  stdout : pybytes;
  stderr : pybytes;
}.

(** The file-system steps of the program that the environment can fail. *)
Inductive io_step :=
| IoMkdir
| IoCreate
| IoDump
| IoFlush
| IoFsync
| IoReplace.

Inductive fsnode :=
| File (text : pystr)
| Dir.

(** What the program observes but does not define: the process environment,
    the clock, the network, the [openssl] executable, the storage devices,
    and the library functions that are not modelled.  Of the last kind are
    [env_str], the [str()] of a value that is not a string;
    [env_url_error], the exception with which [urllib] rejects the host of
    a URL, if it does; and [env_open_error], the exception of opening a
    name under which the file system holds nothing ([FileNotFoundError] as
    a rule, but [IsADirectoryError] for [.], [NotADirectoryError] below a
    file, [ValueError] for a name with a NUL). *)
Record Env := mkEnv {
  env_xdg_cache_home : option pystr;
  env_home : pystr;
  env_tmpdir : pystr;
  env_tmpnames : list pystr;
  env_device : pystr -> Z;
  env_clock : nat -> Q;
  env_http : nat -> Request -> http_outcome;
  env_openssl : pybytes -> pybytes -> option Completed;
  env_fails : io_step -> bool;
  env_partial : nat;
  env_float_repr : Q -> pystr;
  env_gzip_decompress : pybytes -> option pybytes;
  env_decode_bytes : pybytes -> option pystr;
  env_str : json -> pystr;
  env_url_error : pystr -> option exn;
  env_open_error : pystr -> exn;
}.

(** The operations a run performs on the outside, in order. *)
Inductive event :=
| EvHttp (r : Request)
| EvRun (key : pybytes) (input : pybytes)
| EvCreate (p : pystr)
| EvWrite (p : pystr) (text : pystr)
| EvFlush (p : pystr)
| EvFsync (p : pystr)
| EvReplace (src dst : pystr)
| EvUnlink (p : pystr).

Record State := mkState {
  st_ticks : nat;
  st_sent : nat;
  st_fs : gmap pystr fsnode;
  st_log : list event;
  st_cached_token : json;
}.

(** ** The monad of methods *)

Definition M (A : Type) : Type := State -> result A * State.

Definition ret {A} (a : A) : M A := fun s => (Ok a, s).
Definition raise {A} (e : exn) : M A := fun s => (Raise e, s).
Definition lift {A} (r : result A) : M A := fun s => (r, s).

Definition bind {A B} (m : M A) (k : A -> M B) : M B :=
  fun s =>
    match m s with
    | (Ok a, s') => k a s'
    | (Raise e, s') => (Raise e, s')
    end.

Notation "x <- m ;; k" := (bind m (fun x => k))
  (at level 100, m at next level, right associativity).
Notation "m ;;; k" := (bind m (fun _ => k))
  (at level 100, right associativity).

(** [try: m  except: h; raise]. *)
Definition except_reraise {A} (m : M A) (h : M unit) : M A :=
  fun s =>
    match m s with
    | (Ok a, s') => (Ok a, s')
    | (Raise e, s') =>
        match h s' with
        | (Ok _, s'') => (Raise e, s'')
        | (Raise e', s'') => (Raise e', s'')
        end
    end.

Definition with_cached (j : json) (s : State) : State :=
  mkState (st_ticks s) (st_sent s) (st_fs s) (st_log s) j.

Definition with_fs (fs : gmap pystr fsnode) (s : State) : State :=
  mkState (st_ticks s) (st_sent s) fs (st_log s) (st_cached_token s).

Definition get_cached : M json := fun s => (Ok (st_cached_token s), s).
Definition set_cached (j : json) : M unit := fun s => (Ok tt, with_cached j s).
Definition get_fs : M (gmap pystr fsnode) := fun s => (Ok (st_fs s), s).
Definition set_fs (fs : gmap pystr fsnode) : M unit :=
  fun s => (Ok tt, with_fs fs s).

Definition logged (e : event) (s : State) : State :=
  mkState (st_ticks s) (st_sent s) (st_fs s) (st_log s ++ [e])
          (st_cached_token s).

Definition tick (s : State) : State :=
  mkState (S (st_ticks s)) (st_sent s) (st_fs s) (st_log s) (st_cached_token s).

(** The state after [urlopen] has sent a request. *)
Definition sent (r : Request) (s : State) : State :=
  mkState (st_ticks s) (S (st_sent s)) (st_fs s) (st_log s ++ [EvHttp r])
          (st_cached_token s).

Definition emit (e : event) : M unit := fun s => (Ok tt, logged e s).

(** ** Paths

    A path is its text.  [a / b] is [b] when [b] is absolute; the paths the
    program joins are taken as they are written. *)

Definition path_join (a b : pystr) : pystr :=
  match b with
  | 47 :: _ => b
  | _ => a ++ py "/" ++ b
  end.

Fixpoint drop_last_component (rev_p : pystr) : pystr :=
  match rev_p with
  | [] => []
  | c :: r => if c =? 47 then r else drop_last_component r
  end.

(** [Path.parent]. *)
Definition path_parent (p : pystr) : pystr :=
  if mem_Z 47 p then
    match rev (drop_last_component (rev p)) with
    | [] => py "/"
    | d => d
    end
  else py ".".

(** [s.split(sep)] for a one-character separator. *)
Fixpoint split_on (sep : Z) (s : pystr) : list pystr :=
  match s with
  | [] => [[]]
  | c :: r =>
      if c =? sep then [] :: split_on sep r
      else
        match split_on sep r with
        | h :: t => (c :: h) :: t
        | [] => [[c]]
        end
  end.

(** The components of a path that [pathlib] keeps: not the empty ones, nor
    [.]. *)
Definition path_components (s : pystr) : list pystr :=
  List.filter (fun c => negb (pystr_eqb c [] || pystr_eqb c (py ".")))
              (split_on 47 s).

(** The root: exactly two leading slashes are kept, any other number is
    one. *)
Definition path_root (s : pystr) : pystr :=
  match s with
  | 47 :: 47 :: 47 :: _ => py "/"
  | 47 :: 47 :: _ => py "//"
  | 47 :: _ => py "/"
  | _ => []
  end.

(** [str(Path(s))]. *)
Definition posix_path (s : pystr) : pystr :=
  match path_root s, path_components s with
  | [], [] => py "."
  | r, cs => r ++ str_join (py "/") cs
  end.

(** ** The URL of a [urllib.request.Request] *)

(** [str.isspace]. *)
Definition is_space (c : Z) : bool :=
  ((9 <=? c) && (c <=? 13)) || ((28 <=? c) && (c <=? 32))
  || (c =? 0x85) || (c =? 0xA0) || (c =? 0x1680)
  || ((0x2000 <=? c) && (c <=? 0x200A))
  || (c =? 0x2028) || (c =? 0x2029) || (c =? 0x202F) || (c =? 0x205F)
  || (c =? 0x3000).

Fixpoint lstrip (s : pystr) : pystr :=
  match s with
  | c :: r => if is_space c then lstrip r else s
  | [] => []
  end.

(** [s.strip()]. *)
Definition strip (s : pystr) : pystr := rev (lstrip (rev (lstrip s))).

(** [urllib.parse.unwrap]: [<URL:scheme://host/path>] becomes
    [scheme://host/path]. *)
Definition unwrap (u : pystr) : pystr :=
  let u := strip u in
  let u :=
    match u with
    | 60 :: r =>
        match rev r with
        | 62 :: m => strip (rev m)
        | _ => u
        end
    | _ => u
    end in
  match u with
  | 85 :: 82 :: 76 :: 58 :: r => strip r
  | _ => u
  end.

(** [s.rpartition(c)]: what precedes and what follows the last [c]. *)
Fixpoint rpartition (c : Z) (s : pystr) : option (pystr * pystr) :=
  match s with
  | [] => None
  | x :: r =>
      match rpartition c r with
      | Some (a, b) => Some (x :: a, b)
      | None => if x =? c then Some ([], r) else None
      end
  end.

(** The first [/] or [:] of a text. *)
Fixpoint first_delimiter (s : pystr) : option Z :=
  match s with
  | [] => None
  | c :: r => if (c =? 47) || (c =? 58) then Some c else first_delimiter r
  end.

(** [_splittype] finds a type: the text starts with one character or more
    other than [/] and [:], followed by [:]. *)
Definition has_url_type (s : pystr) : bool :=
  match s with
  | [] => false
  | c :: r =>
      negb ((c =? 47) || (c =? 58))
      && match first_delimiter r with
         | Some 58 => true
         | _ => false
         end
  end.

Definition is_scheme_char (c : Z) : bool :=
  is_upper c || is_lower c || is_digit c
  || (c =? 43) || (c =? 45) || (c =? 46).

Definition is_host_char (c : Z) : bool :=
  is_upper c || is_lower c || is_digit c || (c =? 45) || (c =? 46).

Fixpoint plain_host (s : pystr) : bool :=
  match s with
  | [] => true
  | c :: r => if c =? 47 then true else is_host_char c && plain_host r
  end.

Fixpoint plain_scheme (s : pystr) : bool :=
  match s with
  | 58 :: 47 :: 47 :: r => plain_host r
  | c :: r => is_scheme_char c && plain_scheme r
  | [] => false
  end.

(** A URL that every version of [urllib.parse.urlsplit] splits without an
    exception: a scheme, [://], a host made of letters, digits, [.] and [-],
    and then nothing or a [/] and anything. *)
Definition plain_url (s : pystr) : bool :=
  match s with
  | c :: r => (is_upper c || is_lower c) && plain_scheme r
  | [] => false
  end.

(** ** The program *)

Definition _TOKEN_URL : pystr := py "https://oauth2.googleapis.com/token".
Definition _STORAGE_URL : pystr := py "https://storage.googleapis.com/storage/v1".
Definition _UPLOAD_URL : pystr :=
  py "https://storage.googleapis.com/upload/storage/v1".

(** The attributes of an [AccessTokenProvider] that never change after
    construction; [cached_token] lives in the [State]. *)
Record Provider := mkProvider {
  account : pystr;
  key : json;
  kid : json;
  expire : Z;
  token_url : json;
  cached_token_path : pystr;
}.

Record Bucket := mkBucket {
  name : pystr;
  url : pystr;
  access_token_provider : Provider;
}.

(** The argument of [from_service_account_json]: a [str], a [Path], or any
    other object. *)
Inductive cred_input :=
| InStr (s : pystr)
| InPath (p : pystr)
| InObj (o : json).

(** What the local variable [j] of [from_service_account_json] can hold: a
    decoded value, or the [json] module itself. *)
Inductive jvalue :=
| Decoded (v : json)
| JsonModule.

Definition subscript (j : jvalue) (k : pystr) : result json :=
  match j with
  | Decoded v => py_getitem v k
  | JsonModule => Raise TypeError
  end.

(** [headers[key] = val]. *)
Fixpoint add_header (h : list (pystr * pystr)) (k v : pystr)
  : list (pystr * pystr) :=
  match h with
  | [] => [(k, v)]
  | (k', v') :: r =>
      if pystr_eqb k' k then (k', v) :: r else (k', v') :: add_header r k v
  end.

Definition get_header (h : list (pystr * pystr)) (k : pystr) : option pystr :=
  match List.find (fun kv => pystr_eqb (fst kv) k) h with
  | Some kv => Some (snd kv)
  | None => None
  end.

Section Program.

Variable env : Env.

(** *** Runtime services *)

Definition time_time : M Q :=
  fun s => (Ok (env_clock env (st_ticks s)), tick s).

Definition io_check (step : io_step) : M unit :=
  if env_fails env step then raise OSError else ret tt.

(** [d.mkdir(parents=True, exist_ok=True)]; the ancestors of [d] are left
    implicit. *)
Definition mkdir_parents (d : pystr) : M unit :=
  io_check IoMkdir ;;;
  fs <- get_fs ;;
  match fs !! d with
  | Some (File _) => raise FileExistsError
  | Some Dir => ret tt
  | None => set_fs (<[d := Dir]> fs)
  end.

Definition is_file (p : pystr) : M bool :=
  fs <- get_fs ;;
  ret (match fs !! p with Some (File _) => true | _ => false end).

(** Reading the text of the file named [p]. *)
Definition read_text (p : pystr) : M pystr :=
  fs <- get_fs ;;
  match fs !! p with
  | Some (File t) => ret t
  | Some Dir => raise OSError
  | None => raise (env_open_error env p)
  end.

Definition tmp_path (n : pystr) : pystr :=
  path_join (env_tmpdir env) (py "tmp" ++ n).

Fixpoint fresh_name (fs : gmap pystr fsnode) (cands : list pystr)
  : option pystr :=
  match cands with
  | [] => None
  | n :: r =>
      match fs !! tmp_path n with
      | None => Some (tmp_path n)
      | Some _ => fresh_name fs r
      end
  end.

(** [tempfile.NamedTemporaryFile("w", encoding="utf-8", delete=False)]: no
    [dir] is given, so the file is created in the default temporary
    directory. *)
Definition named_temporary_file : M pystr :=
  io_check IoCreate ;;;
  fs <- get_fs ;;
  match fresh_name fs (env_tmpnames env) with
  | None => raise FileExistsError
  | Some p => set_fs (<[p := File []]> fs) ;;; emit (EvCreate p) ;;; ret p
  end.

Definition json_dumps_default (j : json) : pystr :=
  dumps (env_float_repr env) (py ", ") (py ": ") j.

Definition json_dumps_compact (j : json) : pystr :=
  dumps (env_float_repr env) (py ",") (py ":") j.

(** [json.dump(obj, f)]; a failing write leaves a prefix in the file. *)
Definition json_dump (j : json) (p : pystr) : M unit :=
  let text := json_dumps_default j in
  fs <- get_fs ;;
  if env_fails env IoDump then
    set_fs (<[p := File (firstn (env_partial env) text)]> fs) ;;;
    emit (EvWrite p (firstn (env_partial env) text)) ;;;
    raise OSError
  else
    set_fs (<[p := File text]> fs) ;;; emit (EvWrite p text).

Definition file_flush (p : pystr) : M unit :=
  io_check IoFlush ;;; emit (EvFlush p).

Definition os_fsync (p : pystr) : M unit :=
  io_check IoFsync ;;; emit (EvFsync p).

(** [os.replace]: atomic, within one device, onto a file or a free name. *)
Definition os_replace (src dst : pystr) : M unit :=
  io_check IoReplace ;;;
  if env_device env (path_parent src) =? env_device env (path_parent dst)
  then
    fs <- get_fs ;;
    match fs !! src, fs !! dst with
    | Some (File t), Some Dir => raise OSError
    | Some (File t), _ =>
        set_fs (<[dst := File t]> (delete src fs)) ;;;
        emit (EvReplace src dst)
    | _, _ => raise FileNotFoundError
    end
  else raise OSError.

Definition os_unlink (p : pystr) : M unit :=
  fs <- get_fs ;;
  match fs !! p with
  | Some (File _) => set_fs (delete p fs) ;;; emit (EvUnlink p)
  | _ => raise FileNotFoundError
  end.

Definition urlopen (r : Request) : M Response :=
  fun s =>
    match env_http env (st_sent s) r with
    | HttpOk resp => (Ok resp, sent r s)
    | HttpFail e => (Raise e, sent r s)
    end.

(** The [full_url] of [Request(u)].  The constructor unwraps [str(u)], sets
    the fragment aside, raises [ValueError] when what is left has no type,
    and asks [urlsplit] for the host, which raises for a malformed one. *)
Definition request_url (u : json) : result pystr :=
  let text := match u with JStr s => s | _ => env_str env u end in
  let text := unwrap text in
  let (path, full) :=
    match rpartition 35 text with
    | Some (path, []) => (path, path)
    | Some (path, _ :: _) => (path, text)
    | None => (text, text)
    end in
  if has_url_type path then
    if plain_url full then Ok full
    else
      match env_url_error env full with
      | Some e => Raise e
      | None => Ok full
      end
  else Raise ValueError.

(** [Request(url, headers=..., data=...)]. *)
Definition new_request (u : json) (h : list (pystr * pystr))
           (d : option pybytes) : result Request :=
  rbind (request_url u) (fun full => Ok (mkRequest full h d None)).

(** [json.loads] on [bytes] decodes them first. *)
Definition json_loads_bytes (b : pybytes) : result json :=
  match env_decode_bytes env b with
  | Some s => json_loads s
  | None => Raise ValueError
  end.

(** *** Module-level helpers *)

Definition _json_to_b64 (j : json) : result pystr :=
  rbind (str_encode (json_dumps_compact j)) (fun s =>
  Ok (ascii_decode (urlsafe_b64encode s))).

(** The key reaches [openssl] through an anonymous temporary file; what the
    command does with the key and its input is the environment's
    [env_openssl] ([None]: the command could not be started).  Only
    [p.stdout] is read. *)
Definition _jwt_sign_b64 (base : pystr) (k : json) : M pystr :=
  match k with
  | JStr ktext =>
      kbytes <- lift (str_encode ktext) ;;
      input <- lift (str_encode base) ;;
      emit (EvRun kbytes input) ;;;
      match env_openssl env kbytes input with
      | Some p => ret (ascii_decode (urlsafe_b64encode (stdout p)))
      | None => raise FileNotFoundError
      end
  | _ => raise TypeError
  end.

(** What [_urlopen_with_decoded_response] does with the response. *)
Definition decoded_response (response : Response) : result pybytes :=
  let response_data := resp_body response in
  if bool_decide (resp_content_encoding response = Some (py "gzip")) then
    match env_gzip_decompress env response_data with
    | Some d => Ok d
    | None => Raise BadGzipFile
    end
  else Ok response_data.

Definition _urlopen_with_decoded_response (request : Request) : M pybytes :=
  response <- urlopen request ;;
  lift (decoded_response response).

Definition _xdg_cache_home : pystr :=
  match env_xdg_cache_home env with
  | Some (c :: r) => c :: r
  | _ => path_join (env_home env) (py ".cache")
  end.

(** *** AccessTokenProvider *)

(** [__init__]; an omitted keyword argument ([None] here) takes its
    default: [kid=None], [expire=60], [token_url=_TOKEN_URL]. *)
Definition AccessTokenProvider (acc k : json) (kd : option json)
           (exp : option Z) (turl : option json) : M Provider :=
  let kd := match kd with Some x => x | None => JNull end in
  let exp := match exp with Some x => x | None => 60 end in
  let turl := match turl with Some x => x | None => JStr _TOKEN_URL end in
  set_cached JNull ;;;
  match acc with
  | JStr a =>
      let path :=
        path_join (path_join _xdg_cache_home (py "ugcs")) (a ++ py ".token") in
      let self := mkProvider a k kd exp turl path in
      mkdir_parents (path_parent path) ;;;
      f <- is_file path ;;
      if f then
        text <- read_text path ;;
        j <- lift (json_loads text) ;;
        set_cached j ;;;
        ret self
      else ret self
  | _ => raise TypeError
  end.

Definition from_service_account_json (json_obj : cred_input) : M Provider :=
  let json_obj' :=
    match json_obj with
    | InStr s =>
        match json_loads s with
        | Ok _ => InStr s
        | Raise _ => InPath s
        end
    | other => other
    end in
  j <- match json_obj' with
       | InPath p =>
           text <- read_text (posix_path p) ;;
           v <- lift (json_loads text) ;;
           ret (Decoded v)
       | _ => ret JsonModule
       end ;;
  ce <- lift (subscript j (py "client_email")) ;;
  pk <- lift (subscript j (py "private_key")) ;;
  pkid <- lift (subscript j (py "private_key_id")) ;;
  turi <- lift (subscript j (py "token_uri")) ;;
  AccessTokenProvider ce pk (Some pkid) None (Some turi).

Definition jwt_header_of (self : Provider) : list (pystr * json) :=
  let jwt_header := [(py "alg", JStr (py "RS256")); (py "typ", JStr (py "JWT"))] in
  match kid self with
  | JNull => jwt_header
  | kd => dict_set jwt_header (py "kid") kd
  end.

Definition jwt_claim_of (self : Provider) (unix_time : Z)
  : list (pystr * json) :=
  [(py "iss", JStr (account self));
   (py "scope",
    JStr (py "https://www.googleapis.com/auth/devstorage.read_write"));
   (py "aud", JStr (py "https://oauth2.googleapis.com/token"));
   (py "iat", JInt unix_time);
   (py "exp", JInt (unix_time + expire self))].

Definition _create_jwt (self : Provider) : M pystr :=
  t <- time_time ;;
  let unix_time := int_of_float t in
  let jwt_header := jwt_header_of self in
  let jwt_claim := jwt_claim_of self unix_time in
  h <- lift (_json_to_b64 (JObj jwt_header)) ;;
  c <- lift (_json_to_b64 (JObj jwt_claim)) ;;
  let payload := h ++ py "." ++ c in
  sig <- _jwt_sign_b64 payload (key self) ;;
  ret (payload ++ py "." ++ sig).

Definition _request_new_token (self : Provider) : M json :=
  assertion <- _create_jwt self ;;
  let data :=
    [(py "grant_type", py "urn:ietf:params:oauth:grant-type:jwt-bearer");
     (py "assertion", assertion)] in
  let headers :=
    [(py "Content-Type", py "application/x-www-form-urlencoded");
     (py "Accept-Encoding", py "gzip, identity")] in
  body <- lift (rbind (urlencode data) str_encode) ;;
  request <- lift (new_request (token_url self) headers (Some body)) ;;
  response_data <- _urlopen_with_decoded_response request ;;
  lift (json_loads_bytes response_data).

(** The body of the [with] block of [request_token]. *)
Definition store_token (self : Provider) : M unit :=
  f <- named_temporary_file ;;
  except_reraise
    (tok <- get_cached ;;
     json_dump tok f ;;;
     file_flush f ;;;
     os_fsync f ;;;
     os_replace f (cached_token_path self))
    (os_unlink f).

Definition request_token (self : Provider) : M json :=
  cached <- get_cached ;;
  match cached with
  | JNull => ret tt
  | _ =>
      t <- time_time ;;
      expires_at <- lift (py_getitem cached (py "expires_at")) ;;
      stale <- lift (pyfloat_ge (float_add t 3) expires_at) ;;
      if stale : bool then set_cached JNull else ret tt
  end ;;;
  cached <- get_cached ;;
  match cached with
  | JNull =>
      tok <- _request_new_token self ;;
      set_cached tok ;;;
      expires_in <- lift (py_getitem tok (py "expires_in")) ;;
      t <- time_time ;;
      expires_at <- lift (add_int expires_in (int_of_float t)) ;;
      tok' <- lift (py_setitem tok (py "expires_at") expires_at) ;;
      set_cached tok' ;;;
      store_token self
  | _ => ret tt
  end ;;;
  get_cached.

(** *** Bucket *)

Definition new_bucket (n : pystr) (p : Provider) : Bucket := mkBucket n n p.

Definition _authorized_request (self : Bucket) (u : pystr) : M Request :=
  token <- request_token (access_token_provider self) ;;
  ty <- lift (py_getitem token (py "token_type")) ;;
  ty_sp <- lift (str_concat ty (JStr (py " "))) ;;
  at_ <- lift (py_getitem token (py "access_token")) ;;
  auth <- lift (str_concat (JStr ty_sp) at_) ;;
  let headers :=
    [(py "Authorization", auth); (py "Accept-Encoding", py "gzip, identity")] in
  lift (new_request (JStr u) headers None).

Definition bucket_list (self : Bucket) (prefix : option pystr) : M json :=
  let u := _STORAGE_URL ++ py "/b/" ++ name self ++ py "/o" in
  u <- match prefix with
       | Some (c :: r) =>
           q <- lift (urlencode [(py "prefix", c :: r)]) ;;
           ret (u ++ py "?" ++ q)
       | _ => ret u
       end ;;
  request <- _authorized_request self u ;;
  response_data <- _urlopen_with_decoded_response request ;;
  lift (json_loads_bytes response_data).

Definition bucket_put (self : Bucket) (path : pystr) (data : pybytes)
           (content_type : pystr) : M json :=
  q <- lift (urlencode [(py "uploadType", py "media"); (py "name", path)]) ;;
  request <- _authorized_request self
               (_UPLOAD_URL ++ py "/b/" ++ name self ++ py "/o?" ++ q) ;;
  let h := add_header (req_headers request) (py "Content-Type") content_type in
  let h := add_header h (py "Content-Transfer-Encoding") (py "binary") in
  let request := mkRequest (req_url request) h (Some data) (req_method request) in
  response_data <- _urlopen_with_decoded_response request ;;
  lift (json_loads_bytes response_data).

Definition bucket_get (self : Bucket) (path : pystr) : M pybytes :=
  q <- lift (quote path []) ;;
  request <- _authorized_request self
               (_STORAGE_URL ++ py "/b/" ++ name self ++ py "/o/" ++ q
                ++ py "?alt=media") ;;
  response_data <- _urlopen_with_decoded_response request ;;
  ret response_data.

Definition bucket_get_metadata (self : Bucket) (path : pystr) : M json :=
  q <- lift (quote path []) ;;
  request <- _authorized_request self
               (_STORAGE_URL ++ py "/b/" ++ name self ++ py "/o/" ++ q) ;;
  response_data <- _urlopen_with_decoded_response request ;;
  lift (json_loads_bytes response_data).

Definition bucket_delete (self : Bucket) (path : pystr) : M unit :=
  q <- lift (quote path []) ;;
  request <- _authorized_request self
               (_STORAGE_URL ++ py "/b/" ++ name self ++ py "/o/" ++ q) ;;
  let request := mkRequest (req_url request) (req_headers request)
                           (req_data request) (Some (py "DELETE")) in
  _ <- _urlopen_with_decoded_response request ;;
  ret tt.

End Program.

(** ** A concrete run, used to exercise the definitions *)

Definition quoted (s : string) : pystr := 34 :: py s ++ [34].

Definition sample_response_text : pystr :=
  py "{" ++ quoted "access_token" ++ py ": " ++ quoted "ya29.x" ++ py ", "
  ++ quoted "token_type" ++ py ": " ++ quoted "Bearer" ++ py ", "
  ++ quoted "expires_in" ++ py ": 3599}".

Definition is_ascii_text (b : pybytes) : bool :=
  forallb (fun c => (0 <? c) && (c <? 128)) b.

Definition sample_env : Env :=
  mkEnv None (py "/home/u") (py "/tmp") [py "k3x9"; py "q0w1"]
        (fun _ => 0)
        (fun n => (1000 # 1) + (Z.of_nat n # 2))%Q
        (fun _ _ => HttpOk (mkResponse None sample_response_text))
        (fun _ _ => Some (mkCompleted 0 [1; 2; 3; 4] []))
        (fun _ => false)
        0%nat
        (fun _ => py "0.0")
        (fun _ => None)
        (fun b => if is_ascii_text b then Some b else None)
        (fun _ => py "None")
        (fun _ => None)
        (fun _ => FileNotFoundError).

Definition sample_state : State := mkState 0 0 ∅ [] JNull.

Definition sample_provider : Provider :=
  mkProvider (py "svc@example.test") (JStr (py "PEM")) JNull 60
             (JStr _TOKEN_URL) (py "/home/u/.cache/ugcs/svc@example.test.token").

(** ** Vocabulary of the statements *)

(** The alphabet of url-safe base64. *)
Definition is_b64url_char (c : Z) : bool :=
  is_upper c || is_lower c || is_digit c || (c =? 45) || (c =? 95).

Definition is_ascii (c : Z) : Prop := 0 <= c < 128.

(** A number that lies strictly after the instant [t]. *)
Definition later_than (x : json) (t : Q) : Prop :=
  match x with
  | JInt z => (t < inject_Z z)%Q
  | JBool b => (t < inject_Z (if b then 1 else 0))%Q
  | JFloat (FFin q) => (t < q)%Q
  | JFloat FInf => True
  | _ => False
  end.

(** A number that lies at or before the instant [t]. *)
Definition not_later_than (x : json) (t : Q) : Prop :=
  match x with
  | JInt z => (inject_Z z <= t)%Q
  | JBool b => (inject_Z (if b then 1 else 0) <= t)%Q
  | JFloat (FFin q) => (q <= t)%Q
  | JFloat FNegInf => True
  | _ => False
  end.

(** The same two relations for the float [f] that a sum has produced. *)
Definition later_than_float (x : json) (f : pyfloat) : Prop :=
  match f with
  | FFin t => later_than x t
  | FNegInf =>
      match x with
      | JInt _ | JBool _ | JFloat (FFin _) | JFloat FInf => True
      | _ => False
      end
  | _ => False
  end.

Definition not_later_than_float (x : json) (f : pyfloat) : Prop :=
  match f with
  | FFin t => not_later_than x t
  | FInf =>
      match x with
      | JInt _ | JBool _ | JFloat (FFin _) | JFloat FInf | JFloat FNegInf => True
      | _ => False
      end
  | FNegInf => x = JFloat FNegInf
  | FNaN => False
  end.

(** The instant the expiry test compares [expires_at] with: the float sum
    [time.time() + 3]. *)
Definition expiry_horizon (env : Env) (s : State) : pyfloat :=
  float_add (env_clock env (st_ticks s)) 3.

Definition http_requests (l : list event) : list Request :=
  List.concat (List.map (fun e => match e with EvHttp r => [r] | _ => [] end) l).

(** The text that is handed to the signer at Unix time [t]:
    [base64url(header) + "." + base64url(claims)]. *)
Definition signing_input (env : Env) (self : Provider) (t : Z) : pystr :=
  urlsafe_b64encode (json_dumps_compact env (JObj (jwt_header_of self)))
  ++ py "." ++
  urlsafe_b64encode (json_dumps_compact env (JObj (jwt_claim_of self t))).

(** The headers of the token exchange. *)
Definition exchange_headers : list (pystr * pystr) :=
  [(py "Content-Type", py "application/x-www-form-urlencoded");
   (py "Accept-Encoding", py "gzip, identity")].

(** The values that Python adds and compares as numbers. *)
Definition is_number (x : json) : Prop :=
  match x with
  | JInt _ | JBool _ | JFloat _ => True
  | _ => False
  end.

(** How a bucket operation that targets the URL [u] can leave the state
    [s']: the token provider raised; or it returned a token from which no
    [Authorization] value can be built; or the operation sent one request,
    right after the token was obtained. *)
Inductive authorized_outcome (env : Env) (self : Bucket) (u : pystr)
          (s s' : State) : Prop :=
| token_unavailable e :
    request_token env (access_token_provider self) s = (Raise e, s') ->
    authorized_outcome env self u s s'
| token_unusable tok :
    request_token env (access_token_provider self) s = (Ok tok, s') ->
    (forall ty acc,
        ~ (py_getitem tok (py "token_type") = Ok (JStr ty)
           /\ py_getitem tok (py "access_token") = Ok (JStr acc))) ->
    authorized_outcome env self u s s'
| request_sent tok s1 ty acc req :
    request_token env (access_token_provider self) s = (Ok tok, s1) ->
    py_getitem tok (py "token_type") = Ok (JStr ty) ->
    py_getitem tok (py "access_token") = Ok (JStr acc) ->
    s' = sent req s1 ->
    req_url req = u ->
    get_header (req_headers req) (py "Authorization")
    = Some (ty ++ py " " ++ acc) ->
    get_header (req_headers req) (py "Accept-Encoding")
    = Some (py "gzip, identity") ->
    authorized_outcome env self u s s'.

(** A text that ends with a character other than white space and [#]. *)
Definition ends_plainly (u : pystr) : Prop :=
  exists i z, u = i ++ [z] /\ is_space z = false /\ z <> 35.

(** The URL of an object of the bucket, from its quoted name. *)
Definition object_url (self : Bucket) (q : pystr) : pystr :=
  _STORAGE_URL ++ py "/b/" ++ name self ++ py "/o/" ++ q.

(** [repr] of a float is ASCII text. *)
Definition float_repr_ascii (env : Env) : Prop :=
  forall q, Forall is_ascii (env_float_repr env q).

(** The path of the cache file of the account [a]. *)
Definition cache_path (env : Env) (a : pystr) : pystr :=
  path_join (path_join (_xdg_cache_home env) (py "ugcs")) (a ++ py ".token").

(** ** Further concrete runs *)

Definition sample_cache_path : pystr :=
  py "/home/u/.cache/ugcs/svc@example.test.token".

Definition sample_token (expires_at : Z) : json :=
  JObj [(py "access_token", JStr (py "ya29.old"));
        (py "token_type", JStr (py "Bearer"));
        (py "expires_in", JInt 3599);
        (py "expires_at", JInt expires_at)].

(** At clock reading 1000 the first token is fresh, the second is stale. *)
Definition fresh_state : State := mkState 0 0 ∅ [] (sample_token 5000).
Definition stale_state : State := mkState 0 0 ∅ [] (sample_token 1003).

(** A clock reading one rounding step below a whole second, and a token
    that expires a little more than 3 seconds later. *)
Definition edge_clock : Q := (2147483646 # 1) - (1 # 4194304).

Definition edge_env : Env :=
  mkEnv None (py "/home/u") (py "/tmp") [py "k3x9"]
        (fun _ => 0)
        (fun _ => edge_clock) (env_http sample_env) (env_openssl sample_env)
        (fun _ => false) 0%nat (env_float_repr sample_env)
        (env_gzip_decompress sample_env) (env_decode_bytes sample_env)
        (env_str sample_env) (env_url_error sample_env)
        (env_open_error sample_env).

Definition edge_state : State := mkState 0 0 ∅ [] (sample_token 2147483649).

(** The temporary directory is on another device than the cache. *)
Definition two_devices_env : Env :=
  mkEnv None (py "/home/u") (py "/tmp") [py "k3x9"]
        (fun d => if pystr_eqb d (py "/tmp") then 1 else 0)
        (env_clock sample_env) (env_http sample_env) (env_openssl sample_env)
        (fun _ => false) 0%nat (env_float_repr sample_env)
        (env_gzip_decompress sample_env) (env_decode_bytes sample_env)
        (env_str sample_env) (env_url_error sample_env)
        (env_open_error sample_env).

(** [openssl] fails: exit status 1, nothing on standard output. *)
Definition failing_signer_env : Env :=
  mkEnv None (py "/home/u") (py "/tmp") [py "k3x9"]
        (fun _ => 0)
        (env_clock sample_env) (env_http sample_env)
        (fun _ _ => Some (mkCompleted 1 [] (py "unable to load key")))
        (fun _ => false) 0%nat (env_float_repr sample_env)
        (env_gzip_decompress sample_env) (env_decode_bytes sample_env)
        (env_str sample_env) (env_url_error sample_env)
        (env_open_error sample_env).

(** A cache file that does not hold JSON. *)
Definition corrupt_state : State :=
  mkState 0 0
          (<[sample_cache_path := File (py "{not json")]>
             (<[py "/home/u/.cache/ugcs" := Dir]> ∅))
          [] JNull.

(** A provider whose token endpoint is not the default one. *)
Definition other_endpoint : pystr := py "https://sts.example.test/token".

Definition other_provider : Provider :=
  mkProvider (py "svc@example.test") (JStr (py "PEM")) JNull 60
             (JStr other_endpoint) sample_cache_path.

Definition sample_credentials : json :=
  JObj [(py "client_email", JStr (py "svc@example.test"));
        (py "private_key", JStr (py "PEM"));
        (py "private_key_id", JStr (py "key-1"));
        (py "token_uri", JStr _TOKEN_URL)].

Definition sample_credentials_text : pystr :=
  dumps (fun _ => []) (py ", ") (py ": ") sample_credentials.

Definition credentials_file_state : State :=
  mkState 0 0 (<[py "sa.json" := File sample_credentials_text]> ∅) [] JNull.

Definition sample_bucket : Bucket := new_bucket (py "bkt") sample_provider.

(** A computation leaves the component [f] of the state alone. *)
Definition keeps {A B} (f : State -> B) (m : M A) : Prop :=
  forall s r s', m s = (r, s') -> f s' = f s.

(** ** Environments in which one step goes wrong *)

(** The token endpoint answers 503. *)
Definition unavailable_env : Env :=
  mkEnv None (py "/home/u") (py "/tmp") [py "k3x9"]
        (fun _ => 0)
        (env_clock sample_env)
        (fun _ _ => HttpFail (HTTPError 503 (py "busy")))
        (env_openssl sample_env)
        (fun _ => false) 0%nat (env_float_repr sample_env)
        (env_gzip_decompress sample_env) (env_decode_bytes sample_env)
        (env_str sample_env) (env_url_error sample_env)
        (env_open_error sample_env).




(** ** States of the cache directory *)

(** The cache directory exists and is empty. *)
Definition empty_cache_state : State :=
  mkState 0 0 (<[py "/home/u/.cache/ugcs" := Dir]> ∅) [] JNull.

(** The cache file holds JSON that is not a token. *)
Definition unusable_cache_state : State :=
  mkState 0 0
          (<[sample_cache_path := File (py "{}")]>
             (<[py "/home/u/.cache/ugcs" := Dir]> ∅))
          [] JNull.

(** ** Vocabulary of the further properties *)

(** The argument [c] is taken as the name of the file [p]: it is a [Path],
    or a [str] that is not JSON text, and [p] is that path as [pathlib]
    writes it. *)
Definition names_file (c : cred_input) (p : pystr) : Prop :=
  exists raw,
    (c = InPath raw \/ (c = InStr raw /\ exists e, json_loads raw = Raise e))
    /\ p = posix_path raw.

Definition credential_keys : list pystr :=
  [py "client_email"; py "private_key"; py "private_key_id"; py "token_uri"].

(** A credentials file without [private_key_id]. *)
Definition incomplete_credentials_state : State :=
  mkState 0 0
    (<[py "sa.json" :=
         File (dumps (fun _ => []) (py ", ") (py ": ")
                 (JObj [(py "client_email", JStr (py "svc@example.test"));
                        (py "private_key", JStr (py "PEM"));
                        (py "token_uri", JStr _TOKEN_URL)]))]> ∅)
    [] JNull.

(** The provider holds a token that the expiry test finds fresh (its
    [expires_at] is greater than the float sum [time.time() + 3]) and from
    which the [Authorization] value [ty acc] can be built. *)
Definition holds_fresh_token (env : Env) (s : State) (ty acc : pystr) : Prop :=
  (exists ea,
      py_getitem (st_cached_token s) (py "expires_at") = Ok ea
      /\ later_than_float ea (expiry_horizon env s))
  /\ py_getitem (st_cached_token s) (py "token_type") = Ok (JStr ty)
  /\ py_getitem (st_cached_token s) (py "access_token") = Ok (JStr acc).

(** The headers [_authorized_request] gives a request. *)
Definition auth_headers (ty acc : pystr) : list (pystr * pystr) :=
  [(py "Authorization", ty ++ py " " ++ acc);
   (py "Accept-Encoding", py "gzip, identity")].

(** What [_urlopen_with_decoded_response] returns for the next request. *)
Definition answer (env : Env) (s : State) (req : Request) : result pybytes :=
  match env_http env (st_sent s) req with
  | HttpOk resp => decoded_response env resp
  | HttpFail e => Raise e
  end.

(** The characters [quote_plus] can produce. *)
Definition is_query_char (c : Z) : Prop :=
  always_safe c = true \/ c = 37 \/ c = 43.

(** An octet. *)
Definition is_byte (c : Z) : Prop := 0 <= c < 256.

(** A provider whose key is not text. *)
Definition keyless_provider : Provider :=
  mkProvider (py "svc@example.test") JNull JNull 60
             (JStr _TOKEN_URL) sample_cache_path.

(** ** Values that survive the cache file *)

(** A Unicode scalar value: a code point that is not a surrogate. *)
Definition scalarb (c : Z) : bool :=
  (0 <=? c) && (c <? 0x110000) && negb ((0xD800 <=? c) && (c <=? 0xDFFF)).

(** The values whose text does not depend on the runtime's [repr] of
    floats, whose strings are made of scalar values and whose objects have
    no repeated key. *)
Fixpoint plainb (j : json) : bool :=
  match j with
  | JNull | JBool _ | JInt _ => true
  | JFloat (FFin _) => false
  | JFloat _ => true
  | JStr s => forallb scalarb s
  | JArr l => forallb plainb l
  | JObj d =>
      forallb (fun kv : pystr * json =>
                 forallb scalarb (fst kv) && plainb (snd kv)) d
      && bool_decide (NoDup (List.map fst d))
  end.

(** The digits of a decimal numeral, most significant first. *)
Fixpoint uint_digits (d : Decimal.uint) : list Z :=
  match d with
  | Decimal.Nil => []
  | Decimal.D0 r => 0 :: uint_digits r
  | Decimal.D1 r => 1 :: uint_digits r
  | Decimal.D2 r => 2 :: uint_digits r
  | Decimal.D3 r => 3 :: uint_digits r
  | Decimal.D4 r => 4 :: uint_digits r
  | Decimal.D5 r => 5 :: uint_digits r
  | Decimal.D6 r => 6 :: uint_digits r
  | Decimal.D7 r => 7 :: uint_digits r
  | Decimal.D8 r => 8 :: uint_digits r
  | Decimal.D9 r => 9 :: uint_digits r
  end.

(** What may follow a value in a JSON text: nothing, or [,], []] or [}]. *)
Definition ends_value (rest : pystr) : Prop :=
  match rest with
  | [] => True
  | c :: _ => c = 44 \/ c = 93 \/ c = 125
  end.

(** The text [dumps] writes for [j] is read back as [j] by the scanner,
    whatever follows the value and with any fuel above twice the length. *)
Definition reads_back (fr : Q -> pystr) (j : json) : Prop :=
  forall rest n,
    ends_value rest ->
    (2 * List.length (dumps fr (py ", ") (py ": ") j ++ rest) < n)%nat ->
    scan_once n (dumps fr (py ", ") (py ": ") j ++ rest) = Some (j, rest).

(** * Properties *)

(** ** Sanity checks of the text helpers *)

Example urlsafe_b64encode_foob :
  urlsafe_b64encode (py "foob") = py "Zm9vYg=="
  /\ urlsafe_b64encode [251; 255; 190] = py "-_--"
  /\ urlsafe_b64encode (py "fo") = py "Zm8=".
Proof. repeat split; reflexivity. Qed.

Example quote_slash :
  quote (py "a/b c~") [] = Ok (py "a%2Fb%20c~")
  /\ quote [233] [] = Ok (py "%C3%A9")
  /\ quote [0xD800] [] = Raise UnicodeEncodeError
  /\ urlencode [(py "name", py "a/b c"); (py "k", py "&=")]
     = Ok (py "name=a%2Fb+c&k=%26%3D").
Proof. repeat split; reflexivity. Qed.

Example json_loads_samples :
  json_loads (py "[1, -20, true, null, 2.5e1]")
  = Ok (JArr [JInt 1; JInt (-20); JBool true; JNull; JFloat (FFin (25 # 1))])
  /\ json_loads (py "[1,]") = Raise JSONDecodeError
  /\ json_loads [] = Raise JSONDecodeError
  /\ json_loads (py "01") = Raise JSONDecodeError
  /\ json_loads (py " {} ") = Ok (JObj []).
Proof. repeat split; reflexivity. Qed.

(** ** Text facts *)

Lemma list_ind3 (P : list Z -> Prop) :
  P [] ->
  (forall x, P [x]) ->
  (forall x y, P [x; y]) ->
  (forall x y z r, P r -> P (x :: y :: z :: r)) ->
  forall l, P l.
Proof.
  intros H0 H1 H2 H3.
  assert (Hn : forall (n : nat) l, (List.length l <= n)%nat -> P l).
  { induction n as [|n IH]; intros l Hl.
    - destruct l; [exact H0 | simpl in Hl; lia].
    - destruct l as [|x [|y [|z r]]]; auto.
      apply H3, IH. simpl in Hl. lia. }
  intros l. apply (Hn (List.length l)). lia.
Qed.

Lemma land_63_range v : 0 <= Z.land v 63 < 64.
Proof.
  change 63 with (Z.ones 6). rewrite Z.land_ones by lia.
  apply Z.mod_pos_bound. reflexivity.
Qed.

Lemma land_15_range v : 0 <= Z.land v 15 < 16.
Proof.
  change 15 with (Z.ones 4). rewrite Z.land_ones by lia.
  apply Z.mod_pos_bound. reflexivity.
Qed.

Lemma sextet_alphabet v : is_b64url_char (sextet v) = true.
Proof.
  unfold sextet, b64_char, is_b64url_char, is_upper, is_lower, is_digit.
  pose proof (land_63_range v) as Hr.
  repeat match goal with
         | |- context [?a <? ?b] => destruct (Z.ltb_spec a b)
         | |- context [?a =? ?b] => destruct (Z.eqb_spec a b)
         | |- context [?a <=? ?b] => destruct (Z.leb_spec a b)
         end; simpl; try reflexivity; lia.
Qed.

Lemma b64url_char_facts c :
  is_b64url_char c = true -> is_ascii c /\ c <> 46 /\ c <> 61.
Proof.
  unfold is_b64url_char, is_upper, is_lower, is_digit, is_ascii.
  intros H.
  repeat match type of H with
         | context [?a =? ?b] => destruct (Z.eqb_spec a b)
         | context [?a <=? ?b] => destruct (Z.leb_spec a b)
         end; simpl in H; try discriminate; lia.
Qed.

(** The output of the encoder is made of alphabet characters and [=]. *)
Lemma urlsafe_b64encode_chars b :
  Forall (fun c => is_b64url_char c = true \/ c = b64_pad) (urlsafe_b64encode b).
Proof.
  induction b as [|x|x y|x y z r IH] using list_ind3; simpl;
    repeat (apply List.Forall_cons;
            [first [left; apply sextet_alphabet | right; reflexivity]|]);
    auto.
Qed.

Lemma urlsafe_b64encode_ascii b : Forall is_ascii (urlsafe_b64encode b).
Proof.
  eapply List.Forall_impl; [| apply urlsafe_b64encode_chars].
  intros c [H | ->].
  - apply b64url_char_facts in H. tauto.
  - unfold is_ascii, b64_pad. lia.
Qed.

Lemma urlsafe_b64encode_no_dot b : ~ In 46 (urlsafe_b64encode b).
Proof.
  intros Hin.
  pose proof (urlsafe_b64encode_chars b) as Hall.
  rewrite List.Forall_forall in Hall.
  destruct (Hall _ Hin) as [H | H].
  - apply b64url_char_facts in H. lia.
  - discriminate H.
Qed.

Lemma utf8_encode_ascii s : Forall is_ascii s -> utf8_encode s = Some s.
Proof.
  induction 1 as [|c s Hc _ IH]; simpl; [reflexivity|].
  rewrite IH. unfold utf8_char, is_ascii in *.
  destruct (Z.ltb_spec c 0); [lia|].
  destruct (Z.ltb_spec c 128); [reflexivity | lia].
Qed.

Lemma str_encode_ascii s : Forall is_ascii s -> str_encode s = Ok s.
Proof. intros H. unfold str_encode. now rewrite utf8_encode_ascii. Qed.

Lemma split_on_none sep s : ~ In sep s -> split_on sep s = [s].
Proof.
  induction s as [|c r IH]; simpl; intros Hn; [reflexivity|].
  destruct (Z.eqb_spec c sep) as [->|Hne]; [exfalso; auto|].
  rewrite IH by auto. reflexivity.
Qed.

Lemma split_on_app sep x y :
  ~ In sep x -> split_on sep (x ++ sep :: y) = x :: split_on sep y.
Proof.
  induction x as [|c r IH]; simpl; intros Hn.
  - now rewrite Z.eqb_refl.
  - destruct (Z.eqb_spec c sep) as [->|Hne]; [exfalso; auto|].
    rewrite IH by auto. reflexivity.
Qed.

(** ** [json.dumps] writes ASCII *)

Lemma ascii_of_forallb s :
  forallb (fun c => (0 <=? c) && (c <? 128)) s = true -> Forall is_ascii s.
Proof.
  induction s as [|c r IH]; simpl; intros H; constructor.
  - apply andb_prop in H as [H _]. apply andb_prop in H as [H1 H2].
    unfold is_ascii. lia.
  - apply IH. now apply andb_prop in H as [_ H].
Qed.

Ltac ascii_literal := apply ascii_of_forallb; reflexivity.

Lemma hex_lower_ascii v : is_ascii (hex_lower (Z.land v 15)).
Proof.
  unfold hex_lower, is_ascii. pose proof (land_15_range v).
  destruct (Z.ltb_spec (Z.land v 15) 10); lia.
Qed.

Lemma escape_u_ascii n : Forall is_ascii (escape_u n).
Proof.
  unfold escape_u, hex4_lower.
  repeat (apply List.Forall_cons; [first [apply hex_lower_ascii | unfold is_ascii; lia]|]).
  constructor.
Qed.

Lemma escape_char_ascii c : Forall is_ascii (escape_char c).
Proof.
  unfold escape_char.
  repeat match goal with
         | |- context [if ?a =? ?b then _ else _] => destruct (Z.eqb_spec a b)
         end; try ascii_literal.
  destruct (Z.leb_spec 32 c), (Z.leb_spec c 126); cbn [andb].
  1: { repeat constructor; unfold is_ascii; lia. }
  all: destruct (c <? 65536);
    [apply escape_u_ascii | apply List.Forall_app; split; apply escape_u_ascii].
Qed.

Lemma encode_basestring_ascii_ascii s : Forall is_ascii (encode_basestring_ascii s).
Proof.
  unfold encode_basestring_ascii.
  apply List.Forall_cons; [unfold is_ascii; lia|].
  apply List.Forall_app. split; [| ascii_literal].
  induction s as [|c r IH]; simpl; [constructor|].
  apply List.Forall_app. split; [apply escape_char_ascii | exact IH].
Qed.

Lemma string_of_uint_ascii d : Forall is_ascii (py (NilEmpty.string_of_uint d)).
Proof.
  induction d; simpl; try constructor; try exact IHd; unfold is_ascii; simpl; lia.
Qed.

Lemma int_repr_ascii z : Forall is_ascii (int_repr z).
Proof.
  unfold int_repr, NilZero.string_of_int, NilZero.string_of_uint.
  destruct (Z.to_int z) as [d|d]; destruct d;
    first [ascii_literal
          | apply string_of_uint_ascii
          | apply List.Forall_cons;
            [unfold is_ascii; simpl; lia | first [ascii_literal | apply string_of_uint_ascii]]].
Qed.

Lemma join_map_ascii {A} (f : A -> pystr) sep l :
  Forall (fun x => Forall is_ascii (f x)) l ->
  Forall is_ascii sep ->
  Forall is_ascii (join_map f sep l).
Proof.
  intros Hl Hsep.
  induction Hl as [|x r Hx Hr IH]; [constructor|].
  destruct r as [|y r']; [exact Hx|].
  change (Forall is_ascii (f x ++ sep ++ join_map f sep (y :: r'))).
  apply List.Forall_app. split; [exact Hx|].
  apply List.Forall_app. split; [exact Hsep | exact IH].
Qed.

(** Induction on JSON values, through arrays and objects. *)
Lemma json_ind_nested (P : json -> Prop) :
  P JNull ->
  (forall b, P (JBool b)) ->
  (forall z, P (JInt z)) ->
  (forall f, P (JFloat f)) ->
  (forall s, P (JStr s)) ->
  (forall l, Forall P l -> P (JArr l)) ->
  (forall d, Forall (fun kv => P (snd kv)) d -> P (JObj d)) ->
  forall j, P j.
Proof.
  intros Hn Hb Hi Hf Hs Ha Ho.
  exact (fix IH (j : json) : P j :=
           match j with
           | JNull => Hn
           | JBool b => Hb b
           | JInt z => Hi z
           | JFloat f => Hf f
           | JStr s => Hs s
           | JArr l =>
               Ha l ((fix go (l : list json) : Forall P l :=
                        match l with
                        | [] => @List.Forall_nil _ P
                        | x :: r => @List.Forall_cons _ P x r (IH x) (go r)
                        end) l)
           | JObj d =>
               Ho d ((fix go (d : list (pystr * json))
                      : Forall (fun kv => P (snd kv)) d :=
                        match d with
                        | [] => @List.Forall_nil _ (fun kv => P (snd kv))
                        | kv :: r =>
                            @List.Forall_cons _ (fun kv => P (snd kv)) kv r
                                              (IH (snd kv)) (go r)
                        end) d)
           end).
Qed.

Lemma dumps_ascii fr isep ksep :
  (forall q, Forall is_ascii (fr q)) ->
  Forall is_ascii isep -> Forall is_ascii ksep ->
  forall j, Forall is_ascii (dumps fr isep ksep j).
Proof.
  intros Hfr Hi Hk.
  induction j as [| b | z | f | s | l IHl | d IHd] using json_ind_nested.
  - ascii_literal.
  - destruct b; ascii_literal.
  - apply int_repr_ascii.
  - destruct f; simpl; [apply Hfr | ascii_literal ..].
  - apply encode_basestring_ascii_ascii.
  - cbn [dumps]. apply List.Forall_app. split; [ascii_literal|].
    apply List.Forall_app. split; [| ascii_literal].
    apply join_map_ascii; assumption.
  - cbn [dumps]. apply List.Forall_app. split; [ascii_literal|].
    apply List.Forall_app. split; [| ascii_literal].
    apply join_map_ascii; [| assumption].
    eapply List.Forall_impl; [| exact IHd].
    intros [k v] Hv. cbn [fst snd] in *.
    apply List.Forall_app. split; [apply encode_basestring_ascii_ascii|].
    apply List.Forall_app. split; assumption.
Qed.

(** ** The assertion signer *)

Lemma json_to_b64_ok env j :
  float_repr_ascii env ->
  _json_to_b64 env j = Ok (urlsafe_b64encode (json_dumps_compact env j)).
Proof.
  intros Hfr. unfold _json_to_b64.
  rewrite str_encode_ascii; [reflexivity|].
  apply dumps_ascii; [exact Hfr | ascii_literal | ascii_literal].
Qed.

Lemma payload_ascii hb cb :
  Forall is_ascii (urlsafe_b64encode hb ++ py "." ++ urlsafe_b64encode cb).
Proof.
  apply List.Forall_app. split; [apply urlsafe_b64encode_ascii|].
  apply List.Forall_app. split; [ascii_literal | apply urlsafe_b64encode_ascii].
Qed.

Lemma jwt_sign_b64_run env base k kb input s :
  utf8_encode k = Some kb ->
  utf8_encode base = Some input ->
  _jwt_sign_b64 env base (JStr k) s =
    match env_openssl env kb input with
    | Some p => (Ok (urlsafe_b64encode (stdout p)), logged (EvRun kb input) s)
    | None => (Raise FileNotFoundError, logged (EvRun kb input) s)
    end.
Proof.
  intros Hk Hb. unfold _jwt_sign_b64, bind, lift, emit, str_encode.
  rewrite Hk, Hb. destruct (env_openssl env kb input); reflexivity.
Qed.

Lemma create_jwt_inv env self s a s' :
  _create_jwt env self s = (Ok a, s') ->
  exists k kb hb cb p,
    key self = JStr k /\ utf8_encode k = Some kb
    /\ utf8_encode (json_dumps_compact env (JObj (jwt_header_of self))) = Some hb
    /\ utf8_encode
         (json_dumps_compact env
            (JObj (jwt_claim_of self (int_of_float (env_clock env (st_ticks s))))))
       = Some cb
    /\ env_openssl env kb (urlsafe_b64encode hb ++ py "." ++ urlsafe_b64encode cb)
       = Some p
    /\ a = (urlsafe_b64encode hb ++ py "." ++ urlsafe_b64encode cb)
           ++ py "." ++ urlsafe_b64encode (stdout p)
    /\ s' = logged (EvRun kb (urlsafe_b64encode hb ++ py "."
                              ++ urlsafe_b64encode cb)) (tick s).
Proof.
  unfold _create_jwt, bind, time_time, lift, _json_to_b64, rbind, str_encode,
    ascii_decode.
  intros H.
  destruct (utf8_encode (json_dumps_compact env (JObj (jwt_header_of self))))
    as [hb|] eqn:Hh; [|discriminate].
  destruct (utf8_encode
              (json_dumps_compact env
                 (JObj (jwt_claim_of self
                          (int_of_float (env_clock env (st_ticks s)))))))
    as [cb|] eqn:Hc; [|discriminate].
  destruct (key self) as [| | | | k | |] eqn:Hkey;
    try (unfold _jwt_sign_b64, raise in H; discriminate).
  destruct (utf8_encode k) as [kb|] eqn:Hk.
  2: { unfold _jwt_sign_b64, bind, lift, str_encode in H. rewrite Hk in H.
       discriminate. }
  rewrite (jwt_sign_b64_run env _ k kb _ _ Hk
             (utf8_encode_ascii _ (payload_ascii hb cb))) in H.
  destruct (env_openssl env kb _) as [p|] eqn:Hp; [|discriminate].
  unfold ret in H. injection H as <- <-.
  exists k, kb, hb, cb, p. repeat split; auto.
Qed.

Lemma create_jwt_run env self s k kb :
  key self = JStr k ->
  utf8_encode k = Some kb ->
  float_repr_ascii env ->
  let h := urlsafe_b64encode (json_dumps_compact env (JObj (jwt_header_of self))) in
  let c := urlsafe_b64encode
             (json_dumps_compact env
                (JObj (jwt_claim_of self
                         (int_of_float (env_clock env (st_ticks s)))))) in
  _create_jwt env self s =
    match env_openssl env kb (h ++ py "." ++ c) with
    | Some p =>
        (Ok ((h ++ py "." ++ c) ++ py "." ++ urlsafe_b64encode (stdout p)),
         logged (EvRun kb (h ++ py "." ++ c)) (tick s))
    | None =>
        (Raise FileNotFoundError, logged (EvRun kb (h ++ py "." ++ c)) (tick s))
    end.
Proof.
  intros Hkey Hk Hfr h c.
  unfold _create_jwt, bind, time_time, lift.
  rewrite !json_to_b64_ok by exact Hfr. fold h c. rewrite Hkey.
  rewrite (jwt_sign_b64_run env _ k kb (h ++ py "." ++ c) _ Hk).
  - destruct (env_openssl env kb (h ++ py "." ++ c)); reflexivity.
  - apply utf8_encode_ascii, payload_ascii.
Qed.

Lemma jwt_three_parts h c sg :
  split_on 46 ((urlsafe_b64encode h ++ py "." ++ urlsafe_b64encode c)
               ++ py "." ++ urlsafe_b64encode sg)
  = [urlsafe_b64encode h; urlsafe_b64encode c; urlsafe_b64encode sg].
Proof.
  rewrite <- !List.app_assoc. change (py ".") with [46]. cbn [List.app].
  rewrite split_on_app by apply urlsafe_b64encode_no_dot.
  rewrite split_on_app by apply urlsafe_b64encode_no_dot.
  rewrite split_on_none by apply urlsafe_b64encode_no_dot.
  reflexivity.
Qed.

(** ** The expiry test *)

Lemma later_than_float_ge x t : later_than x t -> float_ge t x = Ok false.
Proof.
  assert (Hlt : forall a, (t < a)%Q -> Qle_bool a t = false).
  { intros a Ha. destruct (Qle_bool a t) eqn:E; [|reflexivity].
    apply Qle_bool_iff in E. exfalso. exact (Qlt_not_le _ _ Ha E). }
  destruct x as [| b | z | [q| | |] | s | l | d]; simpl; intros H;
    try contradiction; try reflexivity; now rewrite Hlt.
Qed.

Lemma not_later_than_float_ge x t : not_later_than x t -> float_ge t x = Ok true.
Proof.
  assert (Hle : forall a, (a <= t)%Q -> Qle_bool a t = true).
  { intros a Ha. now apply Qle_bool_iff. }
  destruct x as [| b | z | [q| | |] | s | l | d]; simpl; intros H;
    try contradiction; try reflexivity; now rewrite Hle.
Qed.

Lemma later_than_pyfloat_ge x f : later_than_float x f -> pyfloat_ge f x = Ok false.
Proof.
  destruct f as [t| | |]; cbn [later_than_float pyfloat_ge]; intros H;
    try contradiction.
  - now apply later_than_float_ge.
  - destruct x as [| b | z | [q| | |] | s | l | d]; try contradiction;
      reflexivity.
Qed.

Lemma not_later_than_pyfloat_ge x f :
  not_later_than_float x f -> pyfloat_ge f x = Ok true.
Proof.
  destruct f as [t| | |]; cbn [not_later_than_float pyfloat_ge]; intros H;
    try contradiction.
  - now apply not_later_than_float_ge.
  - destruct x as [| b | z | [q| | |] | s | l | d]; try contradiction;
      reflexivity.
  - subst x. reflexivity.
Qed.

Lemma getitem_is_dict x k v : py_getitem x k = Ok v -> exists d, x = JObj d.
Proof. destruct x; simpl; intros H; try discriminate. eauto. Qed.

(** A token that is still fresh is returned as it is; only the clock has
    been read. *)
Lemma request_token_fresh env self s ea :
  py_getitem (st_cached_token s) (py "expires_at") = Ok ea ->
  later_than_float ea (expiry_horizon env s) ->
  request_token env self s = (Ok (st_cached_token s), tick s).
Proof.
  intros Hget Hlater.
  destruct (getitem_is_dict _ _ _ Hget) as [d Hd].
  destruct s as [ticks sent fs log cached].
  unfold expiry_horizon in Hlater.
  cbn [st_cached_token st_ticks] in *. subst cached.
  unfold request_token, bind, get_cached, time_time, lift.
  cbn [st_cached_token st_ticks]. rewrite Hget.
  rewrite (later_than_pyfloat_ge _ _ Hlater).
  reflexivity.
Qed.

(** ** Rounding and whole numbers *)

Lemma round_half_even_lower x K :
  K * Zpos (Qden x) <= Qnum x -> K <= round_half_even x.
Proof.
  intros H. unfold round_half_even.
  assert (Hf : K <= Qnum x / Zpos (Qden x))
    by (apply Z.div_le_lower_bound; lia).
  destruct (_ ?= _); [destruct (Z.even _)| |]; lia.
Qed.

Lemma round_half_even_upper x K :
  Qnum x <= K * Zpos (Qden x) -> round_half_even x <= K.
Proof.
  intros H. unfold round_half_even.
  pose proof (Z.div_mod (Qnum x) (Zpos (Qden x)) ltac:(lia)) as Hdm.
  pose proof (Z.mod_pos_bound (Qnum x) (Zpos (Qden x)) ltac:(lia)) as Hr.
  set (f := Qnum x / Zpos (Qden x)) in *.
  set (r := Qnum x mod Zpos (Qden x)) in *.
  destruct (Z.eq_dec r 0) as [E|E].
  - rewrite E. change (2 * 0 ?= Zpos (Qden x)) with Lt. cbv iota.
    apply (Z.mul_le_mono_pos_l _ _ (Zpos (Qden x))); lia.
  - assert (f < K) by (apply (Z.mul_lt_mono_pos_l (Zpos (Qden x))); lia).
    destruct (_ ?= _); [destruct (Z.even _)| |]; lia.
Qed.

Lemma pow2_nonneg_exp k : 0 <= k -> pow2 k = inject_Z (2 ^ k).
Proof. intros H. unfold pow2. now rewrite (proj2 (Z.leb_le 0 k)). Qed.

Lemma pow2_neg_exp k : k < 0 -> pow2 k = 1 # Z.to_pos (2 ^ (- k)).
Proof. intros H. unfold pow2. now rewrite (proj2 (Z.leb_gt 0 k)). Qed.

Lemma to_pos_pow2 k : 0 <= k -> Zpos (Z.to_pos (2 ^ k)) = 2 ^ k.
Proof. intros H. apply Z2Pos.id. now apply Z.pow_pos_nonneg. Qed.

(** [Qlog2] finds a lower bound. *)
Lemma Qlog2_lower a :
  0 < Qnum a -> 0 <= Qlog2 a - 1 -> 2 ^ Qlog2 a * Zpos (Qden a) <= Qnum a.
Proof.
  intros Hpos. unfold Qlog2.
  set (k := Z.log2 (Qnum a) - Z.log2 (Zpos (Qden a))).
  destruct (Qle_bool (pow2 k) a) eqn:E; intros Hk.
  - apply Qle_bool_iff in E. rewrite pow2_nonneg_exp in E by lia.
    unfold Qle in E. cbn [Qnum Qden inject_Z] in E. lia.
  - pose proof (Z.log2_spec (Qnum a) Hpos) as [Hn _].
    pose proof (Z.log2_spec (Zpos (Qden a)) ltac:(lia)) as [_ Hd].
    pose proof (Z.log2_nonneg (Zpos (Qden a))) as Hld.
    pose proof (Z.log2_nonneg (Qnum a)) as Hln.
    assert (Hs : 2 ^ (k - 1) * 2 ^ Z.succ (Z.log2 (Zpos (Qden a)))
                 = 2 ^ Z.log2 (Qnum a)).
    { rewrite <- Z.pow_add_r by lia. f_equal. unfold k. lia. }
    assert (0 < 2 ^ (k - 1)) by (apply Z.pow_pos_nonneg; lia).
    nia.
Qed.

Lemma Qlog2_of_scale a u :
  0 < u -> u = Z.max (Qlog2 a) (-1022) - 52 -> Qlog2 a = u + 52.
Proof. lia. Qed.

(** The two bounds, for a positive number: rounding does not cross a whole
    number below [2 ** 53]. *)
Lemma round_pos_lower a k :
  0 < Qnum a ->
  0 <= k <= 2 ^ 53 ->
  (inject_Z k <= a)%Q ->
  let u := Z.max (Qlog2 a) (-1022) - 52 in
  (inject_Z k <= inject_Z (round_half_even (a * pow2 (- u))) * pow2 u)%Q.
Proof.
  intros Hpos Hk Hle u.
  unfold Qle in Hle. cbn [Qnum Qden inject_Z] in Hle.
  destruct (Z.lt_trichotomy u 0) as [Hu | [Hu | Hu]].
  - (* a finer grid than the integers *)
    assert (Hm : k * 2 ^ (- u) <= round_half_even (a * pow2 (- u))).
    { apply round_half_even_lower.
      rewrite pow2_nonneg_exp by lia.
      cbn [Qmult Qnum Qden inject_Z]. rewrite Pos.mul_1_r.
      assert (0 < 2 ^ (- u)) by (apply Z.pow_pos_nonneg; lia).
      nia. }
    rewrite (pow2_neg_exp u Hu).
    unfold Qle. cbn [Qmult Qnum Qden inject_Z].
    rewrite Pos.mul_1_l, to_pos_pow2 by lia. lia.
  - clearbody u. subst u.
    change (pow2 (- 0)) with (inject_Z 1). change (pow2 0) with (inject_Z 1).
    assert (Hm : k <= round_half_even (a * inject_Z 1)).
    { apply round_half_even_lower.
      cbn [Qmult Qnum Qden inject_Z]. rewrite Pos.mul_1_r. lia. }
    unfold Qle. cbn [Qmult Qnum Qden inject_Z]. lia.
  - (* the grid of the even numbers, or a coarser one *)
    assert (He : Qlog2 a = u + 52) by (unfold u in *; lia).
    pose proof (Qlog2_lower a Hpos ltac:(lia)) as Hlow. rewrite He in Hlow.
    rewrite Z.pow_add_r in Hlow by lia.
    assert (H2u : 2 <= 2 ^ u).
    { change 2 with (2 ^ 1) at 1. apply Z.pow_le_mono_r; lia. }
    assert (Hm : 2 ^ 52 <= round_half_even (a * pow2 (- u))).
    { apply round_half_even_lower.
      rewrite (pow2_neg_exp (- u)) by lia. rewrite Z.opp_involutive.
      cbn [Qmult Qnum Qden]. rewrite Pos2Z.inj_mul, to_pos_pow2 by lia.
      lia. }
    rewrite (pow2_nonneg_exp u) by lia.
    unfold Qle. cbn [Qmult Qnum Qden inject_Z].
    change (2 ^ 53) with (2 ^ 52 * 2) in Hk. nia.
Qed.

Lemma round_pos_upper a k :
  0 < Qnum a ->
  0 <= k < 2 ^ 53 ->
  (a <= inject_Z k)%Q ->
  let u := Z.max (Qlog2 a) (-1022) - 52 in
  (inject_Z (round_half_even (a * pow2 (- u))) * pow2 u <= inject_Z k)%Q.
Proof.
  intros Hpos Hk Hle u.
  unfold Qle in Hle. cbn [Qnum Qden inject_Z] in Hle.
  destruct (Z.lt_trichotomy u 0) as [Hu | [Hu | Hu]].
  - assert (Hm : round_half_even (a * pow2 (- u)) <= k * 2 ^ (- u)).
    { apply round_half_even_upper.
      rewrite pow2_nonneg_exp by lia.
      cbn [Qmult Qnum Qden inject_Z]. rewrite Pos.mul_1_r.
      assert (0 < 2 ^ (- u)) by (apply Z.pow_pos_nonneg; lia).
      nia. }
    rewrite (pow2_neg_exp u Hu).
    unfold Qle. cbn [Qmult Qnum Qden inject_Z].
    rewrite Pos.mul_1_l, to_pos_pow2 by lia. lia.
  - clearbody u. subst u.
    change (pow2 (- 0)) with (inject_Z 1). change (pow2 0) with (inject_Z 1).
    assert (Hm : round_half_even (a * inject_Z 1) <= k).
    { apply round_half_even_upper.
      cbn [Qmult Qnum Qden inject_Z]. rewrite Pos.mul_1_r. lia. }
    unfold Qle. cbn [Qmult Qnum Qden inject_Z]. lia.
  - exfalso.
    assert (He : Qlog2 a = u + 52) by (unfold u in *; lia).
    pose proof (Qlog2_lower a Hpos ltac:(lia)) as Hlow. rewrite He in Hlow.
    rewrite Z.pow_add_r in Hlow by lia.
    assert (H2u : 2 <= 2 ^ u).
    { change 2 with (2 ^ 1) at 1. apply Z.pow_le_mono_r; lia. }
    change (2 ^ 53) with (2 ^ 52 * 2) in Hk. nia.
Qed.

Lemma below_overflow r k :
  0 <= k < 2 ^ 53 -> (r <= inject_Z k)%Q -> Qle_bool (pow2 1024) (Qred r) = false.
Proof.
  intros Hk Hr. destruct (Qle_bool (pow2 1024) (Qred r)) eqn:E; [|reflexivity].
  apply Qle_bool_iff in E. rewrite Qred_correct in E.
  pose proof (Qle_trans _ _ _ E Hr) as H.
  rewrite pow2_nonneg_exp in H by lia.
  unfold Qle in H. cbn [Qnum Qden inject_Z] in H.
  assert (2 ^ 53 <= 2 ^ 1024) by (apply Z.pow_le_mono_r; lia).
  lia.
Qed.

(** A whole number below [2 ** 53] that is not above [x] is not above the
    float nearest to [x]; and one that is not below [x] is not below it. *)
Lemma binary64_round_not_below z x :
  Z.abs z < 2 ^ 53 ->
  (inject_Z z <= x)%Q ->
  not_later_than_float (JInt z) (binary64_round x).
Proof.
  intros Hz Hle. unfold binary64_round. cbv zeta.
  pose proof Hle as Hle'. unfold Qle in Hle'. cbn [Qnum Qden inject_Z] in Hle'.
  destruct (Z.eqb_spec (Qnum x) 0) as [E0|E0].
  - cbn [not_later_than_float not_later_than]. unfold Qle.
    cbn [Qnum Qden inject_Z]. nia.
  - destruct (Z.ltb_spec (Qnum x) 0) as [Hneg|Hpos].
    + assert (Hk : 0 <= - z < 2 ^ 53) by nia.
      assert (Ha : (- x <= inject_Z (- z))%Q).
      { unfold Qle. cbn [Qnum Qden inject_Z Qopp]. lia. }
      pose proof (round_pos_upper (- x) (- z) ltac:(cbn [Qnum Qopp]; lia) Hk Ha)
        as Hup. cbv zeta in Hup.
      set (r := (inject_Z (round_half_even _) * pow2 _)%Q) in *.
      rewrite (below_overflow r (- z) Hk Hup).
      cbn [not_later_than_float not_later_than].
      rewrite Qred_correct.
      unfold Qle in *. cbn [Qnum Qden inject_Z Qopp] in *. lia.
    + assert (Hk : 0 <= Z.max z 0 <= 2 ^ 53) by lia.
      assert (Ha : (inject_Z (Z.max z 0) <= x)%Q).
      { unfold Qle. cbn [Qnum Qden inject_Z]. nia. }
      pose proof (round_pos_lower x (Z.max z 0) ltac:(lia) Hk Ha) as Hlow.
      cbv zeta in Hlow.
      set (r := (inject_Z (round_half_even _) * pow2 _)%Q) in *.
      destruct (Qle_bool (pow2 1024) (Qred r)); [exact I|].
      cbn [not_later_than_float not_later_than].
      rewrite Qred_correct.
      unfold Qle in *. cbn [Qnum Qden inject_Z] in *. nia.
Qed.

Lemma binary64_round_not_above z z' x :
  - 2 ^ 53 <= z < 2 ^ 53 ->
  (x <= inject_Z z)%Q ->
  z < z' ->
  later_than_float (JInt z') (binary64_round x).
Proof.
  intros Hz Hle Hlt. unfold binary64_round. cbv zeta.
  pose proof Hle as Hle'. unfold Qle in Hle'. cbn [Qnum Qden inject_Z] in Hle'.
  destruct (Z.eqb_spec (Qnum x) 0) as [E0|E0].
  - cbn [later_than_float later_than]. unfold Qlt.
    cbn [Qnum Qden inject_Z]. nia.
  - destruct (Z.ltb_spec (Qnum x) 0) as [Hneg|Hpos].
    + assert (Hk : 0 <= Z.max (- z) 0 <= 2 ^ 53) by lia.
      assert (Ha : (inject_Z (Z.max (- z) 0) <= - x)%Q).
      { unfold Qle. cbn [Qnum Qden inject_Z Qopp]. nia. }
      pose proof (round_pos_lower (- x) (Z.max (- z) 0)
                    ltac:(cbn [Qnum Qopp]; lia) Hk Ha) as Hlow.
      cbv zeta in Hlow.
      set (r := (inject_Z (round_half_even _) * pow2 _)%Q) in *.
      destruct (Qle_bool (pow2 1024) (Qred r)); [exact I|].
      cbn [later_than_float later_than].
      rewrite Qred_correct.
      unfold Qle, Qlt in *. cbn [Qnum Qden inject_Z Qopp] in *. nia.
    + assert (Hk : 0 <= z < 2 ^ 53) by nia.
      pose proof (round_pos_upper x z ltac:(lia) Hk Hle) as Hup.
      cbv zeta in Hup.
      set (r := (inject_Z (round_half_even _) * pow2 _)%Q) in *.
      rewrite (below_overflow r z Hk Hup).
      cbn [later_than_float later_than].
      rewrite Qred_correct.
      unfold Qle, Qlt in *. cbn [Qnum Qden inject_Z] in *. nia.
Qed.

(** The expiry test agrees with the exact comparison wherever a whole
    second lies in between. *)
Lemma expires_within_three_seconds env s z :
  Z.abs z < 2 ^ 53 ->
  (inject_Z z <= env_clock env (st_ticks s) + 3)%Q ->
  not_later_than_float (JInt z) (expiry_horizon env s).
Proof. intros Hz H. now apply binary64_round_not_below. Qed.

Lemma expires_four_seconds_ahead env s z :
  Z.abs z < 2 ^ 53 ->
  (env_clock env (st_ticks s) + 4 <= inject_Z z)%Q ->
  later_than_float (JInt z) (expiry_horizon env s).
Proof.
  intros Hz H. unfold expiry_horizon, float_add.
  apply (binary64_round_not_above (z - 1)); [lia| |lia].
  unfold Qle, Qplus in *. cbn [Qnum Qden inject_Z] in *.
  rewrite Pos.mul_1_r in *. lia.
Qed.

(** ** Persisting the token *)

Lemma fresh_name_Some env fs cands f :
  fresh_name env fs cands = Some f ->
  fs !! f = None /\ exists n, In n cands /\ f = tmp_path env n.
Proof.
  induction cands as [|n r IH]; simpl; [discriminate|].
  destruct (fs !! tmp_path env n) eqn:E.
  - intros H. destruct (IH H) as (Hf & m & Hm & ->). eauto.
  - intros [= <-]. eauto.
Qed.

Lemma tmp_path_in_tmpdir env n :
  tmp_path env n = env_tmpdir env ++ py "/tmp" ++ n.
Proof. reflexivity. Qed.

Ltac run_in H :=
  cbv beta iota zeta delta
    [bind ret raise lift emit get_fs set_fs get_cached set_cached io_check
     except_reraise named_temporary_file json_dump file_flush os_fsync
     os_replace os_unlink store_token logged tick with_fs with_cached
     st_fs st_log st_sent st_ticks st_cached_token] in H.

Ltac run :=
  cbv beta iota zeta delta
    [bind ret raise lift emit get_fs set_fs get_cached set_cached io_check
     except_reraise named_temporary_file json_dump file_flush os_fsync
     os_replace os_unlink store_token logged tick with_fs with_cached
     st_fs st_log st_sent st_ticks st_cached_token].

Lemma http_requests_app l1 l2 :
  http_requests (l1 ++ l2) = http_requests l1 ++ http_requests l2.
Proof. unfold http_requests. now rewrite List.map_app, List.concat_app. Qed.

Lemma http_requests_snoc_other l e :
  (forall r, e <> EvHttp r) -> http_requests (l ++ [e]) = http_requests l.
Proof.
  intros He. rewrite http_requests_app.
  destruct e; try (exfalso; eapply He; reflexivity); apply app_nil_r.
Qed.

Ltac proj :=
  cbv beta iota delta [st_cached_token st_sent st_ticks st_log st_fs].

Ltac store_failed H Hnone :=
  rewrite ?lookup_insert_eq in H; injection H as <- <-; proj;
  rewrite ?http_requests_snoc_other by (intros; discriminate);
  rewrite ?insert_insert_eq; rewrite ?delete_insert_id by exact Hnone;
  auto 10.

Lemma store_token_cases env self s r s' :
  store_token env self s = (r, s') ->
  st_cached_token s' = st_cached_token s
  /\ st_sent s' = st_sent s
  /\ st_ticks s' = st_ticks s
  /\ http_requests (st_log s') = http_requests (st_log s)
  /\ match r with
     | Ok _ =>
         exists f,
           fresh_name env (st_fs s) (env_tmpnames env) = Some f
           /\ (forall step, In step [IoCreate; IoDump; IoFlush; IoFsync; IoReplace] ->
               env_fails env step = false)
           /\ env_device env (path_parent f)
              = env_device env (path_parent (cached_token_path self))
           /\ st_fs s' =
              <[cached_token_path self :=
                  File (json_dumps_default env (st_cached_token s))]> (st_fs s)
           /\ st_log s' = st_log s ++
                [EvCreate f;
                 EvWrite f (json_dumps_default env (st_cached_token s));
                 EvFlush f; EvFsync f;
                 EvReplace f (cached_token_path self)]
     | Raise _ => st_fs s' = st_fs s
     end.
Proof.
  destruct s as [ticks sent fs log cached]. intros H. run_in H.
  destruct (env_fails env IoCreate) eqn:F1; [injection H as <- <-; auto 10|].
  destruct (fresh_name env fs (env_tmpnames env)) as [f|] eqn:Hf;
    [|injection H as <- <-; auto 10].
  destruct (fresh_name_Some _ _ _ _ Hf) as [Hnone _].
  destruct (env_fails env IoDump) eqn:F2; [store_failed H Hnone|].
  destruct (env_fails env IoFlush) eqn:F3; [store_failed H Hnone|].
  destruct (env_fails env IoFsync) eqn:F4; [store_failed H Hnone|].
  destruct (env_fails env IoReplace) eqn:F5; [store_failed H Hnone|].
  assert (Hsteps : forall step,
             In step [IoCreate; IoDump; IoFlush; IoFsync; IoReplace] ->
             env_fails env step = false).
  { intros step Hin. cbn [In] in Hin.
    destruct Hin as [<-|[<-|[<-|[<-|[<-|[]]]]]]; assumption. }
  destruct (Z.eqb_spec (env_device env (path_parent f))
                       (env_device env (path_parent (cached_token_path self))))
    as [Hdev|Hdev]; [|store_failed H Hnone].
  rewrite lookup_insert_eq in H.
  rewrite insert_insert_eq in H.
  destruct (<[f:=File (json_dumps_default env cached)]> fs
              !! cached_token_path self) as [[t|]|] eqn:Hdst;
    [| rewrite ?lookup_insert_eq in H; store_failed H Hnone |].
  all: injection H as <- <-; proj;
    rewrite ?http_requests_snoc_other by (intros; discriminate);
    rewrite delete_insert_id by exact Hnone;
    repeat split; auto; exists f; repeat split; auto;
    rewrite <- !List.app_assoc; reflexivity.
Qed.

(** ** Frame rules: what a computation leaves alone *)

Lemma keeps_ret {A B} (f : State -> B) (a : A) : keeps f (ret a).
Proof. intros s r s' [= _ <-]. reflexivity. Qed.

Lemma keeps_raise {A B} (f : State -> B) e : keeps f (@raise A e).
Proof. intros s r s' [= _ <-]. reflexivity. Qed.

Lemma keeps_lift {A B} (f : State -> B) (x : result A) : keeps f (lift x).
Proof. intros s r s' [= _ <-]. reflexivity. Qed.

Lemma keeps_bind {A B C} (f : State -> C) (m : M A) (k : A -> M B) :
  keeps f m -> (forall a, keeps f (k a)) -> keeps f (bind m k).
Proof.
  intros Hm Hk s r s'. unfold bind.
  destruct (m s) as [[a|e] s1] eqn:E; intros H.
  - rewrite (Hk a _ _ _ H). exact (Hm _ _ _ E).
  - injection H as <- <-. exact (Hm _ _ _ E).
Qed.

Lemma keeps_get_cached {B} (f : State -> B) : keeps f get_cached.
Proof. intros s r s' [= _ <-]. reflexivity. Qed.

Lemma keeps_time_fs env : keeps st_fs (time_time env).
Proof. intros s r s' [= _ <-]. reflexivity. Qed.

Lemma keeps_emit_fs e : keeps st_fs (emit e).
Proof. intros s r s' [= _ <-]. reflexivity. Qed.

Lemma keeps_set_cached_fs j : keeps st_fs (set_cached j).
Proof. intros s r s' [= _ <-]. reflexivity. Qed.

Lemma keeps_urlopen_fs env r : keeps st_fs (urlopen env r).
Proof.
  intros s x s'. unfold urlopen.
  destruct (env_http env (st_sent s) r); intros [= _ <-]; reflexivity.
Qed.

Lemma keeps_time_cached env : keeps st_cached_token (time_time env).
Proof. intros s r s' [= _ <-]. reflexivity. Qed.

Lemma keeps_emit_cached e : keeps st_cached_token (emit e).
Proof. intros s r s' [= _ <-]. reflexivity. Qed.

Lemma keeps_urlopen_cached env r : keeps st_cached_token (urlopen env r).
Proof.
  intros s x s'. unfold urlopen.
  destruct (env_http env (st_sent s) r); intros [= _ <-]; reflexivity.
Qed.

Create HintDb frame.
#[local] Hint Resolve keeps_get_cached keeps_time_fs keeps_emit_fs
  keeps_set_cached_fs keeps_urlopen_fs keeps_time_cached keeps_emit_cached
  keeps_urlopen_cached : frame.

Ltac keeps_tac :=
  repeat first
    [ apply keeps_ret
    | apply keeps_raise
    | apply keeps_lift
    | solve [auto with frame]
    | apply keeps_bind; [|intros ?]
    | match goal with
      | |- keeps _ (match ?x with _ => _ end) => destruct x
      end ].

Lemma keeps_request_new_token_fs env self :
  keeps st_fs (_request_new_token env self).
Proof.
  unfold _request_new_token, _create_jwt, _urlopen_with_decoded_response,
    _jwt_sign_b64.
  keeps_tac.
Qed.

Lemma keeps_request_new_token_cached env self :
  keeps st_cached_token (_request_new_token env self).
Proof.
  unfold _request_new_token, _create_jwt, _urlopen_with_decoded_response,
    _jwt_sign_b64.
  keeps_tac.
Qed.

Lemma keeps_time_log env : keeps st_log (time_time env).
Proof. intros s r s' [= _ <-]. reflexivity. Qed.

Lemma keeps_set_cached_log j : keeps st_log (set_cached j).
Proof. intros s r s' [= _ <-]. reflexivity. Qed.

Lemma keeps_time_sent env : keeps st_sent (time_time env).
Proof. intros s r s' [= _ <-]. reflexivity. Qed.

Lemma keeps_set_cached_sent j : keeps st_sent (set_cached j).
Proof. intros s r s' [= _ <-]. reflexivity. Qed.

#[local] Hint Resolve keeps_time_log keeps_set_cached_log keeps_time_sent
  keeps_set_cached_sent : frame.

Lemma bind_inv {A B} (m : M A) (k : A -> M B) s r s' :
  bind m k s = (r, s') ->
  (exists a s1, m s = (Ok a, s1) /\ k a s1 = (r, s'))
  \/ (exists e, m s = (Raise e, s') /\ r = Raise e).
Proof.
  unfold bind. destruct (m s) as [[a|e] s1]; intros H.
  - left. eauto.
  - right. injection H as <- <-. eauto.
Qed.

Lemma lift_inv {A} (x : result A) s r s' :
  lift x s = (r, s') -> r = x /\ s' = s.
Proof. intros [= <- <-]. auto. Qed.

(** The first [if] of [request_token], for a cached value [c]. *)
Lemma stale_check_frame env c :
  let check : M unit :=
    match c with
    | JNull => ret tt
    | _ =>
        t <- time_time env ;;
        expires_at <- lift (py_getitem c (py "expires_at")) ;;
        stale <- lift (pyfloat_ge (float_add t 3) expires_at) ;;
        if stale : bool then set_cached JNull else ret tt
    end in
  keeps st_fs check /\ keeps st_log check /\ keeps st_sent check.
Proof.
  cbv zeta. repeat split; destruct c; keeps_tac.
Qed.

(** What a run of [request_token] does to the file system: nothing, unless
    it refreshes the token and every step of the write succeeds. *)
Lemma request_token_fs env self s r s' :
  request_token env self s = (r, s') ->
  match r with
  | Raise _ => st_fs s' = st_fs s
  | Ok tok =>
      tok = st_cached_token s'
      /\ ((st_fs s' = st_fs s /\ st_log s' = st_log s)
          \/ exists f pre,
               fresh_name env (st_fs s) (env_tmpnames env) = Some f
               /\ (forall step,
                      In step [IoCreate; IoDump; IoFlush; IoFsync; IoReplace] ->
                      env_fails env step = false)
               /\ st_fs s' =
                  <[cached_token_path self := File (json_dumps_default env tok)]>
                    (st_fs s)
               /\ st_log s' = pre ++
                    [EvCreate f; EvWrite f (json_dumps_default env tok);
                     EvFlush f; EvFsync f;
                     EvReplace f (cached_token_path self)])
  end.
Proof.
  unfold request_token. intros H.
  apply bind_inv in H as [(c & s0 & Hc & H) | (e & Hc & ->)];
    [|discriminate Hc].
  injection Hc as <- <-.
  destruct (stale_check_frame env (st_cached_token s)) as (Kfs & Klog & _).
  cbv zeta in Kfs, Klog.
  apply bind_inv in H as [(u & s1 & Hchk & H) | (e & Hchk & ->)];
    [|exact (Kfs _ _ _ Hchk)].
  pose proof (Kfs _ _ _ Hchk) as Hfs1. pose proof (Klog _ _ _ Hchk) as Hlog1.
  apply bind_inv in H as [(c1 & s1' & Hc1 & H) | (e & Hc1 & ->)];
    [|discriminate Hc1].
  injection Hc1 as <- <-.
  apply bind_inv in H as [(u2 & s2 & Href & H) | (e & Href & ->)].
  - (* the second [if] returned *)
    injection H as <- <-. split; [reflexivity|].
    destruct (st_cached_token s1) eqn:Ecached;
      try (injection Href as _ <-; left; split; assumption).
    right.
    apply bind_inv in Href as [(tok & s3 & Hnew & Href) | (e & _ & [=])].
    pose proof (keeps_request_new_token_fs env self _ _ _ Hnew) as Hfs3.
    apply bind_inv in Href as [(? & s4 & Hset & Href) | (e & _ & [=])].
    injection Hset as _ <-.
    apply bind_inv in Href as [(ei & s5 & Hei & Href) | (e & _ & [=])].
    apply lift_inv in Hei as [_ ->].
    apply bind_inv in Href as [(t & s6 & Ht & Href) | (e & _ & [=])].
    injection Ht as _ <-.
    apply bind_inv in Href as [(v & s7 & Hv & Href) | (e & _ & [=])].
    apply lift_inv in Hv as [_ ->].
    apply bind_inv in Href as [(tok' & s8 & Htok' & Href) | (e & _ & [=])].
    apply lift_inv in Htok' as [_ ->].
    apply bind_inv in Href as [(? & s9 & Hset & Href) | (e & _ & [=])].
    injection Hset as _ <-.
    apply store_token_cases in Href
      as (Hcached & _ & _ & _ & f & Hf & Hsteps & _ & Hfs & Hlog).
    cbn [with_cached tick st_fs st_log st_cached_token] in *.
    rewrite Hfs3, Hfs1 in *.
    exists f. eexists. rewrite Hcached.
    repeat split; [exact Hf | exact Hsteps | exact Hfs | exact Hlog].
  - (* the second [if] raised *)
    destruct (st_cached_token s1) eqn:Ecached; try discriminate Href.
    apply bind_inv in Href as [(tok & s3 & Hnew & Href) | (e' & Hnew & [= ->])].
    2: { rewrite (keeps_request_new_token_fs env self _ _ _ Hnew). exact Hfs1. }
    pose proof (keeps_request_new_token_fs env self _ _ _ Hnew) as Hfs3.
    apply bind_inv in Href as [(? & s4 & Hset & Href) | (e' & [=] & _)].
    injection Hset as _ <-.
    apply bind_inv in Href as [(ei & s5 & Hei & Href) | (e' & Hei & [= ->])].
    2: { apply lift_inv in Hei as [_ ->]. cbn. congruence. }
    apply lift_inv in Hei as [_ ->].
    apply bind_inv in Href as [(t & s6 & Ht & Href) | (e' & [=] & _)].
    injection Ht as _ <-.
    apply bind_inv in Href as [(v & s7 & Hv & Href) | (e' & Hv & [= ->])].
    2: { apply lift_inv in Hv as [_ ->]. cbn. congruence. }
    apply lift_inv in Hv as [_ ->].
    apply bind_inv in Href as [(tok' & s8 & Htok' & Href) | (e' & Htok' & [= ->])].
    2: { apply lift_inv in Htok' as [_ ->]. cbn. congruence. }
    apply lift_inv in Htok' as [_ ->].
    apply bind_inv in Href as [(? & s9 & Hset & Href) | (e' & [=] & _)].
    injection Hset as _ <-.
    apply store_token_cases in Href as (_ & _ & _ & _ & Hfs).
    cbn [with_cached tick st_fs] in Hfs. congruence.
Qed.

(** ** Percent-encoding facts *)

Ltac case_compare :=
  repeat match goal with
         | |- context [?a <? ?b] => destruct (Z.ltb_spec a b)
         | |- context [?a =? ?b] => destruct (Z.eqb_spec a b)
         | |- context [?a <=? ?b] => destruct (Z.leb_spec a b)
         end.

Lemma hex_upper_safe v : always_safe (hex_upper (Z.land v 15)) = true.
Proof.
  unfold hex_upper, always_safe, is_upper, is_lower, is_digit.
  pose proof (land_15_range v) as Hr.
  case_compare; simpl; try reflexivity; lia.
Qed.

Lemma always_safe_facts c : always_safe c = true -> is_ascii c /\ c <> 47 /\ c <> 37.
Proof.
  unfold always_safe, is_upper, is_lower, is_digit, is_ascii. intros H.
  repeat match type of H with
         | context [?a =? ?b] => destruct (Z.eqb_spec a b)
         | context [?a <=? ?b] => destruct (Z.leb_spec a b)
         end; simpl in H; try discriminate; lia.
Qed.

(** With no extra safe character, [quote] leaves only unreserved characters
    and [%XX] escapes. *)
Lemma quote_from_bytes_chars b :
  Forall (fun c => always_safe c = true \/ c = 37) (quote_from_bytes [] b).
Proof.
  unfold quote_from_bytes.
  induction b as [|x r IH]; simpl; [constructor|].
  apply List.Forall_app. split; [|exact IH].
  unfold quote_byte. simpl mem_Z. rewrite orb_false_r.
  destruct (always_safe x) eqn:E.
  - apply List.Forall_cons; [now left | constructor].
  - repeat (apply List.Forall_cons; [first [now right | left; apply hex_upper_safe]|]).
    constructor.
Qed.

Lemma quote_from_bytes_no_slash b : ~ In 47 (quote_from_bytes [] b).
Proof.
  intros Hin. pose proof (quote_from_bytes_chars b) as Hall.
  rewrite List.Forall_forall in Hall.
  destruct (Hall _ Hin) as [H | H]; [|discriminate H].
  apply always_safe_facts in H. lia.
Qed.

Lemma quote_byte_ascii safe b :
  is_ascii b -> Forall is_ascii (quote_byte safe b).
Proof.
  intros Hb. unfold quote_byte.
  destruct (always_safe b || mem_Z b safe);
    [apply List.Forall_cons; [exact Hb | constructor]|].
  repeat (apply List.Forall_cons;
          [first [unfold is_ascii; lia
                 | exact (proj1 (always_safe_facts _ (hex_upper_safe _)))]|]).
  constructor.
Qed.

Lemma quote_from_bytes_ascii safe b :
  Forall is_ascii b -> Forall is_ascii (quote_from_bytes safe b).
Proof.
  unfold quote_from_bytes. induction 1 as [|x r Hx _ IH]; simpl; [constructor|].
  apply List.Forall_app. split; [now apply quote_byte_ascii | exact IH].
Qed.

Lemma quote_ascii s safe :
  Forall is_ascii s -> quote s safe = Ok (quote_from_bytes safe s).
Proof. intros H. unfold quote. now rewrite str_encode_ascii. Qed.

Lemma quote_plus_ascii s :
  Forall is_ascii s -> exists q, quote_plus s = Ok q /\ Forall is_ascii q.
Proof.
  intros H. unfold quote_plus. destruct (mem_Z 32 s).
  - rewrite quote_ascii by exact H. eexists. split; [reflexivity|].
    unfold replace_space_plus. apply List.Forall_map.
    eapply List.Forall_impl; [| apply quote_from_bytes_ascii; exact H].
    intros c Hc. cbv beta. destruct (c =? 32); [unfold is_ascii; lia | exact Hc].
  - rewrite quote_ascii by exact H. eexists. split; [reflexivity|].
    now apply quote_from_bytes_ascii.
Qed.

Lemma urlencode_two_ascii k1 v1 k2 v2 :
  Forall is_ascii k1 -> Forall is_ascii v1 ->
  Forall is_ascii k2 -> Forall is_ascii v2 ->
  exists q, urlencode [(k1, v1); (k2, v2)] = Ok q /\ Forall is_ascii q.
Proof.
  intros H1 H2 H3 H4.
  destruct (quote_plus_ascii _ H1) as (a & Ea & Ha).
  destruct (quote_plus_ascii _ H2) as (b & Eb & Hb).
  destruct (quote_plus_ascii _ H3) as (c & Ec & Hc).
  destruct (quote_plus_ascii _ H4) as (d & Ed & Hd).
  unfold urlencode, urlencode_pairs, rbind. rewrite Ea, Eb, Ec, Ed.
  eexists. split; [reflexivity|].
  cbn [str_join].
  repeat (apply List.Forall_app; split); auto; ascii_literal.
Qed.

(** ** The token exchange *)

Lemma create_jwt_signing_input env self s k kb :
  key self = JStr k ->
  utf8_encode k = Some kb ->
  float_repr_ascii env ->
  let input :=
    signing_input env self (int_of_float (env_clock env (st_ticks s))) in
  _create_jwt env self s =
    match env_openssl env kb input with
    | Some p =>
        (Ok (input ++ py "." ++ urlsafe_b64encode (stdout p)),
         logged (EvRun kb input) (tick s))
    | None => (Raise FileNotFoundError, logged (EvRun kb input) (tick s))
    end.
Proof. intros Hk Hkb Hfr. exact (create_jwt_run env self s k kb Hk Hkb Hfr). Qed.

Lemma request_new_token_run env self s k kb u p :
  key self = JStr k ->
  utf8_encode k = Some kb ->
  request_url env (token_url self) = Ok u ->
  float_repr_ascii env ->
  let input :=
    signing_input env self (int_of_float (env_clock env (st_ticks s))) in
  env_openssl env kb input = Some p ->
  exists body,
    let req := mkRequest u exchange_headers (Some body) None in
    _request_new_token env self s =
      (match env_http env (st_sent s) req with
       | HttpOk resp => rbind (decoded_response env resp) (json_loads_bytes env)
       | HttpFail e => Raise e
       end,
       sent req (logged (EvRun kb input) (tick s))).
Proof.
  intros Hk Hkb Hu Hfr input Hp.
  assert (Ha : Forall is_ascii (input ++ py "." ++ urlsafe_b64encode (stdout p))).
  { apply List.Forall_app. split; [apply payload_ascii|].
    apply List.Forall_app. split; [ascii_literal | apply urlsafe_b64encode_ascii]. }
  destruct (urlencode_two_ascii
              (py "grant_type")
              (py "urn:ietf:params:oauth:grant-type:jwt-bearer")
              (py "assertion")
              (input ++ py "." ++ urlsafe_b64encode (stdout p)))
    as (q & Eq & Hq); try ascii_literal; [exact Ha|].
  exists q. cbv zeta.
  unfold _request_new_token, bind.
  rewrite (create_jwt_signing_input env self s k kb Hk Hkb Hfr).
  cbv zeta. fold input. rewrite Hp.
  unfold lift.
  match goal with
  | |- context [rbind ?x str_encode] =>
      assert (E2 : rbind x str_encode = Ok q)
        by exact (@eq_ind_r _ (Ok q) (fun r => rbind r str_encode = Ok q)
                            (str_encode_ascii q Hq) _ Eq);
      rewrite E2
  end.
  unfold new_request. rewrite Hu. cbn [rbind].
  unfold _urlopen_with_decoded_response, bind, urlopen, lift.
  change (st_sent (logged (EvRun kb input) (tick s))) with (st_sent s).
  fold exchange_headers.
  match goal with
  | |- context [env_http env ?n ?r] => destruct (env_http env n r) as [resp|e]
  end; [|reflexivity].
  destruct (decoded_response env resp); reflexivity.
Qed.

Lemma store_token_run env self s f :
  (forall step, env_fails env step = false) ->
  fresh_name env (st_fs s) (env_tmpnames env) = Some f ->
  env_device env (path_parent f)
  = env_device env (path_parent (cached_token_path self)) ->
  st_fs s !! cached_token_path self <> Some Dir ->
  exists s', store_token env self s = (Ok tt, s').
Proof.
  intros Hok Hf Hdev Hdst.
  destruct (fresh_name_Some _ _ _ _ Hf) as [Hnone _].
  destruct s as [ticks n fs log cached].
  cbv beta iota delta [st_fs] in Hf, Hnone, Hdst.
  assert (Hlook : <[f:=File (json_dumps_default env cached)]> fs
                    !! cached_token_path self <> Some Dir).
  { destruct (decide (f = cached_token_path self)) as [<-|Hne].
    - rewrite lookup_insert_eq. discriminate.
    - now rewrite lookup_insert_ne by exact Hne. }
  apply Z.eqb_eq in Hdev.
  eexists. run.
  rewrite ?Hok, ?Hf. cbv beta iota. rewrite ?Hok. cbv beta iota.
  rewrite Hdev.
  rewrite insert_insert_eq, lookup_insert_eq.
  destruct (<[f:=File (json_dumps_default env cached)]> fs
              !! cached_token_path self) as [[t|]|];
    [reflexivity | now exfalso | reflexivity].
Qed.

Lemma dict_get_set d k v : dict_get (dict_set d k v) k = Some v.
Proof.
  induction d as [|[k' v'] r IH]; simpl.
  - unfold pystr_eqb. now rewrite bool_decide_eq_true_2.
  - destruct (pystr_eqb k' k) eqn:E; simpl; rewrite E; [reflexivity | exact IH].
Qed.

(** ** Refreshing the token *)

Lemma add_int_number x n m :
  is_number x -> float_of_int n = Ok m -> exists v, add_int x n = Ok v.
Proof.
  destruct x as [| b | z | [q| | |] | s | l | d]; simpl; intros H Hm;
    try contradiction; rewrite ?Hm; cbn [rbind]; eauto.
Qed.

Lemma bind_ok {A B} (m : M A) (k : A -> M B) s a s1 :
  m s = (Ok a, s1) -> bind m k s = k a s1.
Proof. intros H. unfold bind. now rewrite H. Qed.

(** A stale token is dropped, and the call goes on as if none was cached. *)
Lemma request_token_stale env self s ea :
  py_getitem (st_cached_token s) (py "expires_at") = Ok ea ->
  not_later_than_float ea (expiry_horizon env s) ->
  request_token env self s = request_token env self (with_cached JNull (tick s)).
Proof.
  intros Hget Hstale.
  destruct (getitem_is_dict _ _ _ Hget) as [d Hd].
  destruct s as [ticks n fs log cached].
  unfold expiry_horizon in Hstale.
  cbn [st_cached_token st_ticks] in *. subst cached.
  unfold request_token at 1. unfold bind, get_cached, time_time, lift.
  cbn [st_cached_token st_ticks]. rewrite Hget.
  rewrite (not_later_than_pyfloat_ge _ _ Hstale).
  reflexivity.
Qed.

Lemma request_token_absent env self s k kb u p resp data tokd ei f :
  st_cached_token s = JNull ->
  key self = JStr k ->
  utf8_encode k = Some kb ->
  request_url env (token_url self) = Ok u ->
  float_repr_ascii env ->
  (forall input, env_openssl env kb input = Some p) ->
  (forall req, env_http env (st_sent s) req = HttpOk resp) ->
  decoded_response env resp = Ok data ->
  json_loads_bytes env data = Ok (JObj tokd) ->
  dict_get tokd (py "expires_in") = Some ei ->
  (forall n, exists v, add_int ei (int_of_float (env_clock env n)) = Ok v) ->
  (forall step, env_fails env step = false) ->
  fresh_name env (st_fs s) (env_tmpnames env) = Some f ->
  env_device env (path_parent f)
  = env_device env (path_parent (cached_token_path self)) ->
  st_fs s !! cached_token_path self <> Some Dir ->
  exists tok s' req,
    request_token env self s = (Ok tok, s')
    /\ http_requests (st_log s') = http_requests (st_log s) ++ [req]
    /\ req_url req = u
    /\ req_headers req = exchange_headers
    /\ st_ticks s' = S (S (st_ticks s))
    /\ py_getitem tok (py "expires_at")
       = add_int ei (int_of_float (env_clock env (S (st_ticks s))))
    /\ st_cached_token s' = tok
    /\ st_fs s' =
       <[cached_token_path self := File (json_dumps_default env tok)]> (st_fs s).
Proof.
  intros Hnull Hk Hkb Hu Hfr Hssl Hhttp Hdec Hload Hei Hnum Hok Hf Hdev Hdst.
  destruct (request_new_token_run env self s k kb u p Hk Hkb Hu Hfr (Hssl _))
    as (body & Hrun). cbv zeta in Hrun.
  rewrite Hhttp, Hdec in Hrun. cbn [rbind] in Hrun. rewrite Hload in Hrun.
  destruct (Hnum (S (st_ticks s))) as (v & Hv).
  set (req := mkRequest u exchange_headers (Some body) None) in *.
  set (s2 := sent req
               (logged (EvRun kb (signing_input env self
                                    (int_of_float (env_clock env (st_ticks s)))))
                       (tick s))) in *.
  set (tok := JObj (dict_set tokd (py "expires_at") v)).
  destruct (store_token_run env self (with_cached tok (tick (with_cached (JObj tokd) s2))) f)
    as (s' & Hstore); auto.
  pose proof (store_token_cases _ _ _ _ _ Hstore)
    as (Hc & _ & Ht & Hreq & g & _ & _ & _ & Hfs & _).
  exists tok, s', req.
  assert (Hrt : request_token env self s = (Ok tok, s')).
  { unfold request_token.
    rewrite (bind_ok get_cached _ s JNull s) by (unfold get_cached; now rewrite Hnull).
    rewrite (bind_ok (ret tt) _ s tt s) by reflexivity.
    rewrite (bind_ok get_cached _ s JNull s) by (unfold get_cached; now rewrite Hnull).
    erewrite bind_ok; [unfold get_cached; rewrite Hc; reflexivity|].
    rewrite (bind_ok _ _ _ _ _ Hrun).
    rewrite (bind_ok (set_cached (JObj tokd)) _ s2 tt (with_cached (JObj tokd) s2))
      by reflexivity.
    unfold lift at 1. unfold bind at 1. cbn [py_getitem]. rewrite Hei.
    unfold time_time at 1. unfold bind at 1.
    change (st_ticks (with_cached (JObj tokd) s2)) with (S (st_ticks s)).
    unfold lift at 1. unfold bind at 1. rewrite Hv.
    unfold lift at 1. unfold bind at 1. cbn [py_setitem].
    unfold set_cached at 1. unfold bind at 1.
    fold tok. exact Hstore. }
  split; [exact Hrt|].
  split.
  { rewrite Hreq. unfold s2, sent, logged, tick, with_cached. proj.
    rewrite http_requests_app, http_requests_snoc_other by (intros; discriminate).
    reflexivity. }
  repeat split; auto.
  unfold py_getitem, tok. now rewrite dict_get_set.
Qed.

(** ** What [quote_plus] and [urlencode] produce *)

Lemma quote_encodable path b safe :
  utf8_encode path = Some b -> quote path safe = Ok (quote_from_bytes safe b).
Proof. intros H. unfold quote, str_encode. now rewrite H. Qed.

Lemma quote_byte_space_chars x :
  Forall (fun c => always_safe c = true \/ c = 37 \/ c = 32) (quote_byte [32] x).
Proof.
  unfold quote_byte. cbn [mem_Z existsb]. rewrite orb_false_r.
  destruct (always_safe x) eqn:E; cbn [orb].
  - apply List.Forall_cons; [now left | constructor].
  - destruct (Z.eqb_spec x 32) as [->|Hne].
    + apply List.Forall_cons; [now right; right | constructor].
    + repeat (apply List.Forall_cons;
              [first [now right; left | left; apply hex_upper_safe]|]).
      constructor.
Qed.

Lemma quote_plus_chars s q : quote_plus s = Ok q -> Forall is_query_char q.
Proof.
  unfold quote_plus, quote, str_encode.
  destruct (utf8_encode s) as [b|]; [|destruct (mem_Z 32 s); discriminate].
  cbn [rbind]. destruct (mem_Z 32 s); intros [= <-].
  - unfold replace_space_plus, quote_from_bytes. apply List.Forall_map.
    apply List.Forall_concat. apply List.Forall_map.
    apply List.Forall_forall. intros x _.
    eapply List.Forall_impl; [|apply quote_byte_space_chars].
    intros c [Hc | [-> | ->]]; cbv beta; unfold is_query_char.
    + destruct (Z.eqb_spec c 32) as [->|_]; [discriminate Hc | now left].
    + cbn. auto.
    + cbn. auto.
  - eapply List.Forall_impl; [|apply quote_from_bytes_chars].
    intros c [Hc | ->]; unfold is_query_char; auto.
Qed.

Lemma quote_plus_encodable s b :
  utf8_encode s = Some b -> exists q, quote_plus s = Ok q.
Proof.
  intros H. unfold quote_plus, quote, str_encode. rewrite H.
  destruct (mem_Z 32 s); eexists; reflexivity.
Qed.

Lemma quote_plus_unencodable s :
  utf8_encode s = None -> quote_plus s = Raise UnicodeEncodeError.
Proof.
  intros H. unfold quote_plus, quote, str_encode. rewrite H.
  destruct (mem_Z 32 s); reflexivity.
Qed.

Lemma urlencode_upload path :
  urlencode [(py "uploadType", py "media"); (py "name", path)]
  = rbind (quote_plus path) (fun qp => Ok (py "uploadType=media&name=" ++ qp)).
Proof.
  unfold urlencode, urlencode_pairs.
  change (quote_plus (py "uploadType")) with (Ok (A := pystr) (py "uploadType")).
  change (quote_plus (py "media")) with (Ok (A := pystr) (py "media")).
  change (quote_plus (py "name")) with (Ok (A := pystr) (py "name")).
  cbn [rbind]. destruct (quote_plus path); reflexivity.
Qed.

Lemma urlencode_prefix p :
  urlencode [(py "prefix", p)]
  = rbind (quote_plus p) (fun qp => Ok (py "prefix=" ++ qp)).
Proof.
  unfold urlencode, urlencode_pairs.
  change (quote_plus (py "prefix")) with (Ok (A := pystr) (py "prefix")).
  cbn [rbind]. destruct (quote_plus p); reflexivity.
Qed.

(** ** URLs that [Request] takes as they are *)

Lemma strip_id c r i z :
  is_space c = false ->
  c :: r = i ++ [z] ->
  is_space z = false ->
  strip (c :: r) = c :: r.
Proof.
  intros Hc E Hz. unfold strip. cbn [lstrip]. rewrite Hc, E, rev_app_distr.
  cbn [rev app lstrip]. rewrite Hz. cbn [rev]. now rewrite rev_involutive.
Qed.

Lemma unwrap_https r i z :
  104 :: r = i ++ [z] ->
  is_space z = false ->
  unwrap (104 :: r) = 104 :: r.
Proof.
  intros E Hz. unfold unwrap.
  rewrite (strip_id 104 r i z eq_refl E Hz). reflexivity.
Qed.

Lemma rpartition_spec c s :
  match rpartition c s with
  | Some (a, b) => s = a ++ c :: b
  | None => True
  end.
Proof.
  induction s as [|x r IH]; cbn [rpartition]; [exact I|].
  destruct (rpartition c r) as [[a b]|].
  - now rewrite IH.
  - destruct (Z.eqb_spec x c) as [->|_]; [reflexivity | exact I].
Qed.

Lemma rpartition_app c p t :
  ~ In c p ->
  rpartition c (p ++ t) =
    match rpartition c t with
    | Some (a, b) => Some (p ++ a, b)
    | None => None
    end.
Proof.
  induction p as [|x p IH]; intros Hn.
  - cbn [app]. destruct (rpartition c t) as [[a b]|]; reflexivity.
  - cbn [app rpartition]. rewrite IH by (intros H; apply Hn; now right).
    destruct (rpartition c t) as [[a b]|]; [reflexivity|].
    destruct (Z.eqb_spec x c) as [->|_]; [|reflexivity].
    exfalso. apply Hn. now left.
Qed.

(** A URL is taken as it is when it starts with a prefix [p] that settles
    its type and its host and has no [#], and ends plainly. *)
Lemma request_url_accepted env p r t :
  p = 104 :: r ->
  ~ In 35 p ->
  (forall a, has_url_type (p ++ a) = true) ->
  (forall a, plain_url (p ++ a) = true) ->
  ends_plainly (p ++ t) ->
  request_url env (JStr (p ++ t)) = Ok (p ++ t).
Proof.
  intros Hp Hn Hty Hplain (i & z & E & Hz & Hz35).
  unfold request_url.
  assert (Hu : unwrap (p ++ t) = p ++ t).
  { subst p. cbn [app] in *. exact (unwrap_https _ i z E Hz). }
  rewrite Hu, (rpartition_app 35 p t Hn).
  pose proof (rpartition_spec 35 t) as Hs.
  destruct (rpartition 35 t) as [[a [|b0 b]]|].
  - exfalso. rewrite Hs in E. rewrite List.app_assoc in E.
    apply List.app_inj_tail in E as [_ E]. congruence.
  - now rewrite Hty, Hplain.
  - now rewrite Hty, Hplain.
Qed.

Lemma ends_plainly_app a b : ends_plainly b -> ends_plainly (a ++ b).
Proof.
  intros (i & z & -> & H). exists (a ++ i), z.
  now rewrite List.app_assoc.
Qed.

Lemma ends_plainly_chars a q :
  Forall (fun c => is_space c = false /\ c <> 35) q ->
  ends_plainly a ->
  ends_plainly (a ++ q).
Proof.
  intros Hq Ha. destruct q as [|c q'] using rev_ind.
  - now rewrite List.app_nil_r.
  - apply List.Forall_app in Hq as [_ Hc].
    apply List.Forall_inv in Hc.
    exists (a ++ q'), c. now rewrite List.app_assoc.
Qed.

Lemma safe_char_plain c : always_safe c = true -> is_space c = false /\ c <> 35.
Proof.
  intros H.
  assert (Hc : 45 <= c <= 126).
  { unfold always_safe, is_upper, is_lower, is_digit in H.
    repeat match type of H with
           | context [?a =? ?b] => destruct (Z.eqb_spec a b)
           | context [?a <=? ?b] => destruct (Z.leb_spec a b)
           end; simpl in H; try discriminate; lia. }
  split; [|lia]. unfold is_space.
  repeat match goal with
         | |- context [?a <=? ?b] => rewrite (proj2 (Z.leb_gt a b)) by lia
         | |- context [?a =? ?b] => rewrite (proj2 (Z.eqb_neq a b)) by lia
         end.
  rewrite !andb_false_r. reflexivity.
Qed.

Lemma query_chars_plain q :
  Forall is_query_char q -> Forall (fun c => is_space c = false /\ c <> 35) q.
Proof.
  apply List.Forall_impl. intros c [H | [-> | ->]].
  - now apply safe_char_plain.
  - split; [reflexivity | discriminate].
  - split; [reflexivity | discriminate].
Qed.

Lemma quoted_chars_plain b :
  Forall (fun c => is_space c = false /\ c <> 35) (quote_from_bytes [] b).
Proof.
  eapply List.Forall_impl; [|apply quote_from_bytes_chars].
  intros c [H | ->]; [now apply safe_char_plain|].
  split; [reflexivity | discriminate].
Qed.

Lemma not_in_mem c l : mem_Z c l = false -> ~ In c l.
Proof.
  intros H Hin.
  assert (E : mem_Z c l = true).
  { apply List.existsb_exists. exists c. split; [exact Hin | apply Z.eqb_refl]. }
  congruence.
Qed.

Lemma storage_url_accepted env t :
  ends_plainly t ->
  request_url env (JStr (_STORAGE_URL ++ t)) = Ok (_STORAGE_URL ++ t).
Proof.
  intros H.
  apply (request_url_accepted env _STORAGE_URL (List.tl _STORAGE_URL)).
  - reflexivity.
  - apply not_in_mem. reflexivity.
  - intros a. reflexivity.
  - intros a. reflexivity.
  - now apply ends_plainly_app.
Qed.

Lemma upload_url_accepted env t :
  ends_plainly t ->
  request_url env (JStr (_UPLOAD_URL ++ t)) = Ok (_UPLOAD_URL ++ t).
Proof.
  intros H.
  apply (request_url_accepted env _UPLOAD_URL (List.tl _UPLOAD_URL)).
  - reflexivity.
  - apply not_in_mem. reflexivity.
  - intros a. reflexivity.
  - intros a. reflexivity.
  - now apply ends_plainly_app.
Qed.

Lemma ends_plainly_literal (i : pystr) z :
  is_space z = false -> z <> 35 -> ends_plainly (i ++ [z]).
Proof. intros H1 H2. exists i, z. auto. Qed.

(** The URLs of the five operations. *)
Lemma object_url_accepted env self b :
  request_url env (JStr (object_url self (quote_from_bytes [] b)))
  = Ok (object_url self (quote_from_bytes [] b)).
Proof.
  unfold object_url. apply storage_url_accepted.
  do 2 apply ends_plainly_app.
  apply ends_plainly_chars; [apply quoted_chars_plain|].
  now apply (ends_plainly_literal (py "/o") 47).
Qed.

Lemma media_url_accepted env self q :
  request_url env (JStr (_STORAGE_URL ++ py "/b/" ++ name self ++ py "/o/" ++ q
                         ++ py "?alt=media"))
  = Ok (_STORAGE_URL ++ py "/b/" ++ name self ++ py "/o/" ++ q
        ++ py "?alt=media").
Proof.
  apply storage_url_accepted.
  do 4 apply ends_plainly_app.
  now apply (ends_plainly_literal (py "?alt=medi") 97).
Qed.

Lemma list_url_accepted env self :
  request_url env (JStr (_STORAGE_URL ++ py "/b/" ++ name self ++ py "/o"))
  = Ok (_STORAGE_URL ++ py "/b/" ++ name self ++ py "/o").
Proof.
  apply storage_url_accepted.
  do 2 apply ends_plainly_app.
  now apply (ends_plainly_literal (py "/") 111).
Qed.

Lemma prefix_url_accepted env self s qp :
  quote_plus s = Ok qp ->
  request_url env (JStr ((_STORAGE_URL ++ py "/b/" ++ name self ++ py "/o")
                         ++ py "?" ++ py "prefix=" ++ qp))
  = Ok ((_STORAGE_URL ++ py "/b/" ++ name self ++ py "/o")
        ++ py "?" ++ py "prefix=" ++ qp).
Proof.
  intros Hqp. rewrite <- !List.app_assoc.
  apply storage_url_accepted.
  do 4 apply ends_plainly_app.
  apply ends_plainly_chars;
    [exact (query_chars_plain _ (quote_plus_chars _ _ Hqp))|].
  now apply (ends_plainly_literal (py "prefix") 61).
Qed.

Lemma put_url_accepted env self s qp :
  quote_plus s = Ok qp ->
  request_url env (JStr (_UPLOAD_URL ++ py "/b/" ++ name self ++ py "/o?"
                         ++ py "uploadType=media&name=" ++ qp))
  = Ok (_UPLOAD_URL ++ py "/b/" ++ name self ++ py "/o?"
        ++ py "uploadType=media&name=" ++ qp).
Proof.
  intros Hqp.
  apply upload_url_accepted.
  do 3 apply ends_plainly_app.
  apply ends_plainly_chars;
    [exact (query_chars_plain _ (quote_plus_chars _ _ Hqp))|].
  now apply (ends_plainly_literal (py "uploadType=media&name") 61).
Qed.

(** ** Bucket requests *)

Lemma urlopen_decoded_state env req s r s' :
  _urlopen_with_decoded_response env req s = (r, s') -> s' = sent req s.
Proof.
  unfold _urlopen_with_decoded_response, bind, urlopen, lift.
  destruct (env_http env (st_sent s) req); intros [= _ <-]; reflexivity.
Qed.

Lemma authorized_request_inv env self u s r s1 :
  _authorized_request env self u s = (r, s1) ->
  match r with
  | Ok req =>
      exists tok ty acc full,
        request_token env (access_token_provider self) s = (Ok tok, s1)
        /\ py_getitem tok (py "token_type") = Ok (JStr ty)
        /\ py_getitem tok (py "access_token") = Ok (JStr acc)
        /\ request_url env (JStr u) = Ok full
        /\ req = mkRequest full
                   [(py "Authorization", ty ++ py " " ++ acc);
                    (py "Accept-Encoding", py "gzip, identity")] None None
  | Raise e =>
      authorized_outcome env self u s s1 \/ request_url env (JStr u) = Raise e
  end.
Proof.
  unfold _authorized_request. intros H.
  apply bind_inv in H as [(tok & s2 & Htok & H) | (e & Htok & ->)];
    [|left; now apply token_unavailable with e].
  unfold bind, lift, ret in H.
  destruct (py_getitem tok (py "token_type")) as [ty|e1] eqn:E1.
  2: { injection H as <- <-. left. apply token_unusable with tok; [exact Htok|].
       intros ty acc [Hty _]. congruence. }
  destruct ty as [| | | | t | |]; cbn [str_concat] in H;
    try (injection H as <- <-; left; apply token_unusable with tok;
         [exact Htok|]; intros ty acc [Hty _]; congruence).
  destruct (py_getitem tok (py "access_token")) as [at_|e2] eqn:E2.
  2: { injection H as <- <-. left. apply token_unusable with tok; [exact Htok|].
       intros ty acc [_ Hacc]. congruence. }
  destruct at_ as [| | | | a | |]; cbn [str_concat] in H;
    try (injection H as <- <-; left; apply token_unusable with tok;
         [exact Htok|]; intros ty acc [_ Hacc]; congruence).
  unfold new_request in H.
  destruct (request_url env (JStr u)) as [full|e] eqn:Eu; cbn [rbind] in H;
    injection H as <- <-.
  - exists tok, t, a, full. rewrite <- List.app_assoc. auto.
  - now right.
Qed.

Lemma authorized_send env self u s req s1 r s' :
  request_url env (JStr u) = Ok u ->
  _authorized_request env self u s = (Ok req, s1) ->
  forall req',
    req_url req' = req_url req ->
    get_header (req_headers req') (py "Authorization")
    = get_header (req_headers req) (py "Authorization") ->
    get_header (req_headers req') (py "Accept-Encoding")
    = get_header (req_headers req) (py "Accept-Encoding") ->
    _urlopen_with_decoded_response env req' s1 = (r, s') ->
    authorized_outcome env self u s s'.
Proof.
  intros Hu Hreq req' Hurl Hauth Henc Hopen.
  apply authorized_request_inv in Hreq
    as (tok & ty & acc & full & Htok & Hty & Hacc & Hfull & ->).
  assert (full = u) as -> by congruence.
  apply urlopen_decoded_state in Hopen.
  apply request_sent with tok s1 ty acc req'; auto.
Qed.

(** An operation that builds its request with [_authorized_request] and
    then opens it, possibly after adding headers, data or a method. *)
Lemma authorized_operation {A} env self u (adjust : Request -> Request)
      (finish : pybytes -> M A) s r s' :
  request_url env (JStr u) = Ok u ->
  (forall req, req_url (adjust req) = req_url req) ->
  (forall req,
      get_header (req_headers (adjust req)) (py "Authorization")
      = get_header (req_headers req) (py "Authorization")) ->
  (forall req,
      get_header (req_headers (adjust req)) (py "Accept-Encoding")
      = get_header (req_headers req) (py "Accept-Encoding")) ->
  (forall d, keeps (fun x => x) (finish d)) ->
  (request <- _authorized_request env self u ;;
   response_data <- _urlopen_with_decoded_response env (adjust request) ;;
   finish response_data) s = (r, s') ->
  authorized_outcome env self u s s'.
Proof.
  intros Hu Hurl Hauth Henc Hfin H.
  apply bind_inv in H as [(req & s1 & Hreq & H) | (e & Hreq & ->)].
  2: { destruct (authorized_request_inv _ _ _ _ _ _ Hreq) as [Ho | Hbad];
         [exact Ho | congruence]. }
  apply bind_inv in H as [(d & s2 & Hopen & H) | (e & Hopen & ->)].
  - rewrite (Hfin d _ _ _ H).
    eapply authorized_send; eauto.
  - eapply authorized_send; eauto.
Qed.

Lemma get_header_add_ne h k v k' :
  k <> k' -> get_header (add_header h k v) k' = get_header h k'.
Proof.
  intros Hne. unfold get_header.
  induction h as [|[a b] r IH]; simpl.
  - unfold pystr_eqb. now rewrite bool_decide_eq_false_2.
  - unfold pystr_eqb in *.
    destruct (bool_decide (a = k)) eqn:E1; simpl.
    + apply bool_decide_eq_true_1 in E1. subst a.
      now rewrite !bool_decide_eq_false_2 by exact Hne.
    + destruct (bool_decide (a = k')); [reflexivity | exact IH].
Qed.

Lemma keeps_all_ret {A} (a : A) : keeps (fun x => x) (ret a).
Proof. apply keeps_ret. Qed.

Lemma keeps_all_lift {A} (x : result A) : keeps (fun x => x) (lift x).
Proof. apply keeps_lift. Qed.

Lemma quote_bytes path q : quote path [] = Ok q -> exists b, q = quote_from_bytes [] b.
Proof.
  unfold quote, str_encode. destruct (utf8_encode path) as [b|]; [|discriminate].
  intros [= <-]. eauto.
Qed.

Lemma bucket_get_outcome env self path s r s' :
  bucket_get env self path s = (r, s') ->
  match quote path [] with
  | Ok q => authorized_outcome env self (object_url self q ++ py "?alt=media") s s'
  | Raise e => r = Raise e /\ s' = s
  end.
Proof.
  unfold bucket_get. intros H.
  apply bind_inv in H as [(q & s0 & Hq & H) | (e & Hq & ->)];
    apply lift_inv in Hq as [Hq ->]; rewrite <- Hq; [|auto].
  unfold object_url. rewrite <- !List.app_assoc.
  refine (authorized_operation env self _ (fun request => request)
            (fun d => ret d) s r s' _ _ _ _ _ H); auto using keeps_all_ret.
  apply media_url_accepted.
Qed.

Lemma bucket_get_metadata_outcome env self path s r s' :
  bucket_get_metadata env self path s = (r, s') ->
  match quote path [] with
  | Ok q => authorized_outcome env self (object_url self q) s s'
  | Raise e => r = Raise e /\ s' = s
  end.
Proof.
  unfold bucket_get_metadata. intros H.
  apply bind_inv in H as [(q & s0 & Hq & H) | (e & Hq & ->)];
    apply lift_inv in Hq as [Hq ->]; rewrite <- Hq; [|auto].
  refine (authorized_operation env self _ (fun request => request)
            (fun d => lift (json_loads_bytes env d)) s r s' _ _ _ _ _ H);
    auto using keeps_all_lift.
  destruct (quote_bytes _ _ (eq_sym Hq)) as (b & ->).
  apply object_url_accepted.
Qed.

Lemma bucket_delete_outcome env self path s r s' :
  bucket_delete env self path s = (r, s') ->
  match quote path [] with
  | Ok q => authorized_outcome env self (object_url self q) s s'
  | Raise e => r = Raise e /\ s' = s
  end.
Proof.
  unfold bucket_delete. intros H.
  apply bind_inv in H as [(q & s0 & Hq & H) | (e & Hq & ->)];
    apply lift_inv in Hq as [Hq ->]; rewrite <- Hq; [|auto].
  refine (authorized_operation env self _
            (fun request =>
               mkRequest (req_url request) (req_headers request)
                         (req_data request) (Some (py "DELETE")))
            (fun _ => ret tt) s r s' _ _ _ _ _ H); auto using keeps_all_ret.
  destruct (quote_bytes _ _ (eq_sym Hq)) as (b & ->).
  apply object_url_accepted.
Qed.

Lemma bucket_list_outcome env self prefix s r s' :
  bucket_list env self prefix s = (r, s') ->
  let base := _STORAGE_URL ++ py "/b/" ++ name self ++ py "/o" in
  match prefix with
  | Some (c :: p) =>
      match quote_plus (c :: p) with
      | Ok qp => authorized_outcome env self (base ++ py "?prefix=" ++ qp) s s'
      | Raise e => r = Raise e /\ s' = s
      end
  | _ => authorized_outcome env self base s s'
  end.
Proof.
  unfold bucket_list. cbv zeta. intros H.
  assert (Hplain : forall u,
             request_url env (JStr u) = Ok u ->
             (request <- _authorized_request env self u ;;
              response_data <- _urlopen_with_decoded_response env request ;;
              lift (json_loads_bytes env response_data)) s = (r, s') ->
             authorized_outcome env self u s s').
  { intros u Hu Hrun.
    refine (authorized_operation env self u (fun request => request)
              (fun d => lift (json_loads_bytes env d)) s r s' Hu _ _ _ _ Hrun);
      auto using keeps_all_lift. }
  destruct prefix as [[|c p]|].
  - rewrite (bind_ok (ret _) _ s _ s) in H by reflexivity.
    exact (Hplain _ (list_url_accepted env self) H).
  - rewrite urlencode_prefix in H.
    destruct (quote_plus (c :: p)) as [qp|e] eqn:Hqp; cbn [rbind] in H.
    + rewrite (bind_ok _ _ s ((_STORAGE_URL ++ py "/b/" ++ name self ++ py "/o")
                              ++ py "?" ++ py "prefix=" ++ qp) s) in H
        by reflexivity.
      exact (Hplain _ (prefix_url_accepted env self _ _ Hqp) H).
    + injection H as <- <-. auto.
  - rewrite (bind_ok (ret _) _ s _ s) in H by reflexivity.
    exact (Hplain _ (list_url_accepted env self) H).
Qed.

Lemma bucket_put_outcome env self path data content_type s r s' :
  bucket_put env self path data content_type s = (r, s') ->
  match quote_plus path with
  | Ok qp =>
      authorized_outcome env self
        (_UPLOAD_URL ++ py "/b/" ++ name self
         ++ py "/o?uploadType=media&name=" ++ qp) s s'
  | Raise e => r = Raise e /\ s' = s
  end.
Proof.
  unfold bucket_put. rewrite urlencode_upload. intros H.
  destruct (quote_plus path) as [qp|e] eqn:Hqp; cbn [rbind] in H.
  2: { injection H as <- <-. auto. }
  rewrite (bind_ok (lift _) _ s (py "uploadType=media&name=" ++ qp) s) in H
    by reflexivity.
  change (py "/o?uploadType=media&name=" ++ qp)
    with (py "/o?" ++ py "uploadType=media&name=" ++ qp).
  refine (authorized_operation env self _
            (fun request =>
               mkRequest (req_url request)
                 (add_header
                    (add_header (req_headers request) (py "Content-Type")
                                content_type)
                    (py "Content-Transfer-Encoding") (py "binary"))
                 (Some data) (req_method request))
            (fun d => lift (json_loads_bytes env d)) s r s' _ _ _ _ _ H);
    auto using keeps_all_lift.
  - exact (put_url_accepted env self _ _ Hqp).
  - intros req. cbn [req_headers].
    rewrite !get_header_add_ne by (intros E; discriminate E). reflexivity.
  - intros req. cbn [req_headers].
    rewrite !get_header_add_ne by (intros E; discriminate E). reflexivity.
Qed.

(** ** Construction of the provider *)

Lemma provider_fields env acc k kd ex tu s p s' :
  AccessTokenProvider env acc k kd ex tu s = (Ok p, s') ->
  exists a,
    acc = JStr a
    /\ account p = a
    /\ key p = k
    /\ kid p = match kd with Some x => x | None => JNull end
    /\ expire p = match ex with Some x => x | None => 60 end
    /\ token_url p = match tu with Some x => x | None => JStr _TOKEN_URL end
    /\ cached_token_path p = cache_path env a.
Proof.
  unfold AccessTokenProvider. intros H.
  apply bind_inv in H as [(? & s1 & _ & H) | (e & _ & [=])].
  destruct acc as [| | | | a | |]; try discriminate H.
  exists a.
  apply bind_inv in H as [(? & s2 & _ & H) | (e & _ & [=])].
  apply bind_inv in H as [(isf & s3 & _ & H) | (e & _ & [=])].
  destruct isf.
  - apply bind_inv in H as [(text & s4 & _ & H) | (e & _ & [=])].
    apply bind_inv in H as [(j & s5 & _ & H) | (e & _ & [=])].
    apply bind_inv in H as [(? & s6 & _ & H) | (e & _ & [=])].
    injection H as <- _. repeat split.
  - injection H as <- _. repeat split.
Qed.

Lemma json_loads_raises text e : json_loads text = Raise e -> e = JSONDecodeError.
Proof.
  unfold json_loads.
  destruct (scan_once _ _) as [[v r]|]; [destruct (skip_ws r)|]; congruence.
Qed.

Lemma inline_credentials_raise env text v s :
  json_loads text = Ok v ->
  from_service_account_json env (InStr text) s = (Raise TypeError, s).
Proof. intros H. unfold from_service_account_json. now rewrite H. Qed.

Lemma parsed_credentials_raise env o s :
  from_service_account_json env (InObj o) s = (Raise TypeError, s).
Proof. reflexivity. Qed.

(** ** No retry: a call opens at most one URL *)

Lemma keeps_emit_sent e : keeps st_sent (emit e).
Proof. intros s r s' [= _ <-]. reflexivity. Qed.

Lemma keeps_create_jwt_sent env self : keeps st_sent (_create_jwt env self).
Proof.
  unfold _create_jwt, _jwt_sign_b64.
  repeat first
    [ apply keeps_ret | apply keeps_raise | apply keeps_lift
    | apply keeps_emit_sent | apply keeps_time_sent
    | apply keeps_bind; [|intros ?]
    | match goal with
      | |- keeps _ (match ?x with _ => _ end) => destruct x
      end ].
Qed.

Lemma request_new_token_sent env self s r s' :
  _request_new_token env self s = (r, s') ->
  st_sent s' = st_sent s \/ st_sent s' = S (st_sent s).
Proof.
  unfold _request_new_token. intros H.
  apply bind_inv in H as [(a & s1 & Ha & H) | (e & Ha & _)];
    [|left; exact (keeps_create_jwt_sent env self _ _ _ Ha)].
  pose proof (keeps_create_jwt_sent env self _ _ _ Ha) as H1.
  apply bind_inv in H as [(b & s2 & Hb & H) | (e & Hb & _)];
    [|left; apply lift_inv in Hb as [_ ->]; exact H1].
  apply lift_inv in Hb as [_ ->].
  apply bind_inv in H as [(q & s3 & Hq & H) | (e & Hq & _)];
    [|left; apply lift_inv in Hq as [_ ->]; exact H1].
  apply lift_inv in Hq as [_ ->].
  right.
  apply bind_inv in H as [(d & s4 & Hd & H) | (e & Hd & _)].
  - apply lift_inv in H as [_ ->].
    apply urlopen_decoded_state in Hd as ->. cbn [sent st_sent]. now rewrite H1.
  - apply urlopen_decoded_state in Hd as ->. cbn [sent st_sent]. now rewrite H1.
Qed.

Lemma request_token_opens_at_most_one_url env self s r s' :
  request_token env self s = (r, s') ->
  st_sent s' = st_sent s \/ st_sent s' = S (st_sent s).
Proof.
  unfold request_token. intros H.
  apply bind_inv in H as [(c & s0 & Hc & H) | (e & Hc & _)]; [|discriminate Hc].
  injection Hc as <- <-.
  destruct (stale_check_frame env (st_cached_token s)) as (_ & _ & Ksent).
  cbv zeta in Ksent.
  apply bind_inv in H as [(u & s1 & Hchk & H) | (e & Hchk & _)];
    [|left; exact (Ksent _ _ _ Hchk)].
  pose proof (Ksent _ _ _ Hchk) as H1.
  apply bind_inv in H as [(c1 & s1' & Hc1 & H) | (e & Hc1 & _)];
    [|discriminate Hc1].
  injection Hc1 as <- <-.
  assert (Href : forall x s2,
             match st_cached_token s1 with
             | JNull =>
                 tok <- _request_new_token env self ;;
                 set_cached tok ;;;
                 expires_in <- lift (py_getitem tok (py "expires_in")) ;;
                 t <- time_time env ;;
                 expires_at <- lift (add_int expires_in (int_of_float t)) ;;
                 tok' <- lift (py_setitem tok (py "expires_at") expires_at) ;;
                 set_cached tok' ;;; store_token env self
             | _ => ret tt
             end s1 = (x, s2) ->
             st_sent s2 = st_sent s1 \/ st_sent s2 = S (st_sent s1)).
  { intros x s2 Hx.
    destruct (st_cached_token s1); try (injection Hx as _ <-; now left).
    apply bind_inv in Hx as [(tok & s3 & Hnew & Hx) | (e & Hnew & _)];
      [|exact (request_new_token_sent _ _ _ _ _ Hnew)].
    apply request_new_token_sent in Hnew.
    assert (st_sent s2 = st_sent s3) as ->; [|exact Hnew].
    apply bind_inv in Hx as [(? & s4 & Hset & Hx) | (e & [=] & _)].
    injection Hset as _ <-.
    apply bind_inv in Hx as [(ei & s5 & Hei & Hx) | (e & Hei & _)];
      [|now apply lift_inv in Hei as [_ ->]].
    apply lift_inv in Hei as [_ ->].
    apply bind_inv in Hx as [(t & s6 & Ht & Hx) | (e & [=] & _)].
    injection Ht as _ <-.
    apply bind_inv in Hx as [(v & s7 & Hv & Hx) | (e & Hv & _)];
      [|now apply lift_inv in Hv as [_ ->]].
    apply lift_inv in Hv as [_ ->].
    apply bind_inv in Hx as [(tok' & s8 & Htok' & Hx) | (e & Htok' & _)];
      [|now apply lift_inv in Htok' as [_ ->]].
    apply lift_inv in Htok' as [_ ->].
    apply bind_inv in Hx as [(? & s9 & Hset & Hx) | (e & [=] & _)].
    injection Hset as _ <-.
    apply store_token_cases in Hx as (_ & Hs & _). exact Hs. }
  apply bind_inv in H as [(u2 & s2 & Hr & H) | (e & Hr & _)].
  - injection H as _ <-. rewrite <- H1. exact (Href _ _ Hr).
  - rewrite <- H1. exact (Href _ _ Hr).
Qed.

(** ** The scanner's fuel *)

Lemma skip_ws_length s : (List.length (skip_ws s) <= List.length s)%nat.
Proof.
  induction s as [|c r IH]; simpl; [lia|].
  destruct (is_ws c); simpl; lia.
Qed.

Lemma decode_uXXXX_length s u r :
  decode_uXXXX s = Some (u, r) -> List.length s = (4 + List.length r)%nat.
Proof.
  unfold decode_uXXXX.
  destruct s as [|a [|b [|c [|d t]]]]; try discriminate.
  destruct (hex_val a), (hex_val b), (hex_val c), (hex_val d); try discriminate.
  intros [= _ <-]. reflexivity.
Qed.

Lemma cons_char_Some c x k r :
  cons_char c x = Some (k, r) -> exists k', x = Some (k', r).
Proof. destruct x as [[k' r']|]; simpl; [intros [= _ <-]; eauto | discriminate]. Qed.

Ltac scan_cases :=
  repeat match goal with
         | |- context [if ?b then _ else _] => destruct b
         | |- context [match decode_uXXXX ?x with _ => _ end] =>
             let E := fresh "E" in
             destruct (decode_uXXXX x) as [[? ?]|] eqn:E;
             [apply decode_uXXXX_length in E|]
         | |- context [match backslash ?x with _ => _ end] =>
             destruct (backslash x)
         | |- context [match ?l with [] => _ | _ :: _ => _ end] =>
             is_var l; destruct l
         end.

Lemma scanstring_fuel n : forall m s,
  (List.length s < n)%nat -> (List.length s < m)%nat ->
  scanstring n s = scanstring m s.
Proof.
  induction n as [|n IH]; intros m s Hn Hm; [lia|].
  destruct m as [|m]; [lia|].
  destruct s as [|c r]; [reflexivity|].
  cbn [scanstring]. cbn [List.length] in *.
  scan_cases; try reflexivity;
    f_equal; apply IH; cbn [List.length] in *; lia.
Qed.

Lemma scanstring_rest n : forall s k r,
  scanstring n s = Some (k, r) -> (List.length r < List.length s)%nat.
Proof.
  induction n as [|n IH]; intros s k r H; [discriminate|].
  destruct s as [|c t]; [discriminate|].
  cbn [scanstring] in H.
  repeat match type of H with
         | context [if ?b then _ else _] => destruct b
         | context [match decode_uXXXX ?x with _ => _ end] =>
             let E := fresh "E" in
             destruct (decode_uXXXX x) as [[? ?]|] eqn:E;
             [apply decode_uXXXX_length in E|]
         | context [match backslash ?x with _ => _ end] =>
             destruct (backslash x)
         | context [match ?l with [] => _ | _ :: _ => _ end] =>
             is_var l; destruct l
         end; try discriminate;
    try (injection H as _ <-; cbn [List.length] in *; lia);
    apply cons_char_Some in H as [k' H]; apply IH in H;
    cbn [List.length] in *; lia.
Qed.

Lemma strip_prefix_rest p : forall s r,
  strip_prefix p s = Some r -> (List.length r <= List.length s)%nat.
Proof.
  induction p as [|a p IH]; intros s r; simpl.
  - intros [= <-]. lia.
  - destruct s as [|b s]; [discriminate|].
    destruct (a =? b); [|discriminate].
    intros H. apply IH in H. simpl. lia.
Qed.

Lemma span_digits_rest s :
  (List.length (snd (span_digits s)) <= List.length s)%nat.
Proof.
  induction s as [|c r IH]; simpl; [lia|].
  destruct (is_digit c); [|simpl; lia].
  destruct (span_digits r) as [d r']. simpl in *. lia.
Qed.

Lemma scan_int_part_rest s d r :
  scan_int_part s = Some (d, r) -> (List.length r <= List.length s)%nat.
Proof.
  unfold scan_int_part. destruct s as [|c t]; [discriminate|].
  destruct (c =? 48); [intros [= _ <-]; simpl; lia|].
  destruct (is_digit c); [|discriminate].
  pose proof (span_digits_rest (c :: t)) as H.
  destruct (span_digits (c :: t)) as [d' r'].
  intros [= _ <-]. exact H.
Qed.

Lemma scan_frac_rest s d r :
  scan_frac s = Some (d, r) -> (List.length r <= List.length s)%nat.
Proof.
  unfold scan_frac. destruct s as [|c t]; [discriminate|].
  destruct (c =? 46); [|discriminate].
  pose proof (span_digits_rest t) as H.
  destruct (span_digits t) as [[|x d'] r']; [discriminate|].
  intros [= _ <-]. simpl in *. lia.
Qed.

Lemma scan_exp_rest s e r :
  scan_exp s = Some (e, r) -> (List.length r <= List.length s)%nat.
Proof.
  unfold scan_exp. destruct s as [|c t]; [discriminate|].
  destruct ((c =? 101) || (c =? 69)); [|discriminate].
  assert (Hs : (List.length (snd (scan_sign t)) <= List.length t)%nat).
  { unfold scan_sign. destruct t as [|x t']; [simpl; lia|].
    destruct (x =? 45); [simpl; lia|]. destruct (x =? 43); simpl; lia. }
  destruct (scan_sign t) as [sg r1].
  pose proof (span_digits_rest r1) as H.
  destruct (span_digits r1) as [[|x d'] r']; [discriminate|].
  intros [= _ <-]. simpl in *. lia.
Qed.

Lemma scan_number_rest s v r :
  scan_number s = Some (v, r) -> (List.length r <= List.length s)%nat.
Proof.
  unfold scan_number.
  assert (Hs : forall sg s1,
             match s with
             | c :: t => if c =? 45 then (-1, t) else (1, s)
             | [] => (1, s)
             end = (sg, s1) ->
             (List.length s1 <= List.length s)%nat).
  { intros sg s1. destruct s as [|c t]; [intros [= _ <-]; lia|].
    destruct (c =? 45); intros [= _ <-]; simpl; lia. }
  destruct (match s with
            | c :: t => if c =? 45 then (-1, t) else (1, s)
            | [] => (1, s)
            end) as [sg s1].
  specialize (Hs sg s1 eq_refl).
  destruct (scan_int_part s1) as [[ds r0]|] eqn:Ei; [|discriminate].
  apply scan_int_part_rest in Ei.
  destruct (scan_frac r0) as [[fd r1]|] eqn:Ef.
  - apply scan_frac_rest in Ef.
    destruct (scan_exp r1) as [[e r2]|] eqn:Ee.
    + apply scan_exp_rest in Ee. intros [= _ <-]. lia.
    + intros [= _ <-]. lia.
  - destruct (scan_exp r0) as [[e r2]|] eqn:Ee.
    + apply scan_exp_rest in Ee. intros [= _ <-]. lia.
    + intros [= _ <-]. lia.
Qed.

Lemma scan_constant_rest s v r :
  scan_constant s = Some (v, r) -> (List.length r <= List.length s)%nat.
Proof.
  unfold scan_constant.
  repeat match goal with
         | |- context [match strip_prefix ?p s with _ => _ end] =>
             let E := fresh "E" in
             destruct (strip_prefix p s) eqn:E;
             [apply strip_prefix_rest in E; intros [= _ <-]; exact E|]
         end.
  apply scan_number_rest.
Qed.

(** What is left after a value is never longer than the input. *)
Lemma scan_rest n :
  (forall s v r, scan_once n s = Some (v, r) ->
                 (List.length r <= List.length s)%nat)
  /\ (forall s v r, scan_members n s = Some (v, r) ->
                    (List.length r <= List.length s)%nat)
  /\ (forall s v r, scan_items n s = Some (v, r) ->
                    (List.length r <= List.length s)%nat).
Proof.
  induction n as [|n (IHo & IHm & IHi)]; [repeat split; discriminate|].
  assert (Ho : forall s v r, scan_once (S n) s = Some (v, r) ->
                             (List.length r <= List.length s)%nat).
  { intros s v r H. destruct s as [|c t]; [discriminate|].
    cbn [scan_once] in H.
    destruct (c =? 34).
    { destruct (scanstring _ t) as [[x r']|] eqn:E; [|discriminate].
      apply scanstring_rest in E. injection H as _ <-. simpl. lia. }
    destruct (c =? 123).
    { pose proof (skip_ws_length t) as Hw.
      destruct (skip_ws t) as [|d r1]; [discriminate|].
      destruct (d =? 125); [injection H as _ <-; simpl in *; lia|].
      destruct (scan_members n (d :: r1)) as [[m r2]|] eqn:E; [|discriminate].
      apply IHm in E. injection H as _ <-. simpl in *. lia. }
    destruct (c =? 91).
    { pose proof (skip_ws_length t) as Hw.
      destruct (skip_ws t) as [|d r1]; [discriminate|].
      destruct (d =? 93); [injection H as _ <-; simpl in *; lia|].
      destruct (scan_items n (d :: r1)) as [[m r2]|] eqn:E; [|discriminate].
      apply IHi in E. injection H as _ <-. simpl in *. lia. }
    now apply scan_constant_rest in H. }
  split; [exact Ho|]. split.
  - intros s v r H. destruct s as [|q t]; [discriminate|].
    cbn [scan_members] in H.
    destruct (q =? 34); [|discriminate].
    destruct (scanstring _ t) as [[k r1]|] eqn:Es; [|discriminate].
    apply scanstring_rest in Es.
    pose proof (skip_ws_length r1) as Hw1.
    destruct (skip_ws r1) as [|col r2]; [discriminate|].
    destruct (col =? 58); [|discriminate].
    pose proof (skip_ws_length r2) as Hw2.
    destruct (scan_once n (skip_ws r2)) as [[x r3]|] eqn:Eo; [|discriminate].
    apply IHo in Eo.
    pose proof (skip_ws_length r3) as Hw3.
    destruct (skip_ws r3) as [|d r4]; [discriminate|].
    destruct (d =? 125); [injection H as _ <-; simpl in *; lia|].
    destruct (d =? 44); [|discriminate].
    pose proof (skip_ws_length r4) as Hw4.
    destruct (scan_members n (skip_ws r4)) as [[m r5]|] eqn:Em; [|discriminate].
    apply IHm in Em. injection H as _ <-. simpl in *. lia.
  - intros s v r H. cbn [scan_items] in H.
    destruct (scan_once n s) as [[x r0]|] eqn:Eo; [|discriminate].
    apply IHo in Eo.
    pose proof (skip_ws_length r0) as Hw.
    destruct (skip_ws r0) as [|d r1]; [discriminate|].
    destruct (d =? 93); [injection H as _ <-; simpl in *; lia|].
    destruct (d =? 44); [|discriminate].
    pose proof (skip_ws_length r1) as Hw1.
    destruct (scan_items n (skip_ws r1)) as [[l r2]|] eqn:Ei; [|discriminate].
    apply IHi in Ei. injection H as _ <-. simpl in *. lia.
Qed.

(** Beyond twice the length of the text, the fuel does not matter. *)
Lemma scan_fuel n :
  (forall m s,
      (2 * List.length s < n)%nat -> (2 * List.length s < m)%nat ->
      scan_once n s = scan_once m s)
  /\ (forall m s,
         (2 * List.length s < n)%nat -> (2 * List.length s < m)%nat ->
         scan_members n s = scan_members m s)
  /\ (forall m s,
         (2 * List.length s + 1 < n)%nat -> (2 * List.length s + 1 < m)%nat ->
         scan_items n s = scan_items m s).
Proof.
  induction n as [|n (IHo & IHm & IHi)]; [repeat split; intros; lia|].
  destruct (scan_rest n) as (Ro & Rm & Ri).
  repeat split; intros m s Hn Hm; (destruct m as [|m]; [lia|]).
  - destruct s as [|c t]; [reflexivity|].
    cbn [scan_once]. cbn [List.length] in *.
    destruct (c =? 34); [reflexivity|].
    pose proof (skip_ws_length t) as Hw.
    destruct (c =? 123).
    { destruct (skip_ws t) as [|d r1]; [reflexivity|].
      destruct (d =? 125); [reflexivity|].
      rewrite (IHm m (d :: r1)) by (cbn [List.length] in *; lia).
      reflexivity. }
    destruct (c =? 91); [|reflexivity].
    destruct (skip_ws t) as [|d r1]; [reflexivity|].
    destruct (d =? 93); [reflexivity|].
    rewrite (IHi m (d :: r1)) by (cbn [List.length] in *; lia).
    reflexivity.
  - destruct s as [|q t]; [reflexivity|].
    cbn [scan_members]. cbn [List.length] in *.
    destruct (q =? 34); [|reflexivity].
    destruct (scanstring _ t) as [[k r1]|] eqn:Es; [|reflexivity].
    apply scanstring_rest in Es.
    pose proof (skip_ws_length r1) as Hw1.
    destruct (skip_ws r1) as [|col r2]; [reflexivity|].
    destruct (col =? 58); [|reflexivity].
    pose proof (skip_ws_length r2) as Hw2.
    rewrite (IHo m (skip_ws r2)) by (cbn [List.length] in *; lia).
    destruct (scan_once m (skip_ws r2)) as [[x r3]|] eqn:Eo; [|reflexivity].
    rewrite <- (IHo m (skip_ws r2)) in Eo by (cbn [List.length] in *; lia).
    apply Ro in Eo.
    pose proof (skip_ws_length r3) as Hw3.
    destruct (skip_ws r3) as [|d r4]; [reflexivity|].
    destruct (d =? 125); [reflexivity|].
    destruct (d =? 44); [|reflexivity].
    pose proof (skip_ws_length r4) as Hw4.
    rewrite (IHm m (skip_ws r4)) by (cbn [List.length] in *; lia).
    reflexivity.
  - cbn [scan_items].
    rewrite (IHo m s) by lia.
    destruct (scan_once m s) as [[x r0]|] eqn:Eo; [|reflexivity].
    rewrite <- (IHo m s) in Eo by lia.
    apply Ro in Eo.
    pose proof (skip_ws_length r0) as Hw.
    destruct (skip_ws r0) as [|d r1]; [reflexivity|].
    destruct (d =? 93); [reflexivity|].
    destruct (d =? 44); [|reflexivity].
    pose proof (skip_ws_length r1) as Hw1.
    rewrite (IHi m (skip_ws r1)) by (cbn [List.length] in *; lia).
    reflexivity.
Qed.

(** [json_loads] gives the result that any larger fuel gives. *)
Lemma json_loads_fuel s n :
  (2 * List.length s + 2 <= n)%nat ->
  scan_once n (skip_ws s) = scan_once (2 * List.length s + 2) (skip_ws s).
Proof.
  intros Hn. pose proof (skip_ws_length s) as Hw.
  apply (proj1 (scan_fuel n)); lia.
Qed.

(** * The claims of the specification *)

(** C1, as the specification states it, fails at the edge of the expiry
    test.  The test compares [expires_at] with the float sum
    [time.time() + 3], and that sum can round up to [expires_at] while
    [expires_at] lies more than 3 seconds after the clock reading.  Here the
    clock reads 2147483646 - 2^-22 and the token expires at 2147483649: the
    sum is 2147483649.0, the token counts as stale and another one is
    requested. *)
Lemma expiry_sum_rounds_up_counterexample :
  later_than (JInt 2147483649) (env_clock edge_env (st_ticks edge_state) + 3)%Q
  /\ expiry_horizon edge_env edge_state = FFin (2147483649 # 1)
  /\ exists tok s',
       request_token edge_env sample_provider edge_state = (Ok tok, s')
       /\ tok <> st_cached_token edge_state
       /\ List.length (http_requests (st_log s')) = 1%nat.
Proof.
  split; [vm_compute; reflexivity|].
  split; [vm_compute; reflexivity|].
  exists (JObj [(py "access_token", JStr (py "ya29.x"));
                (py "token_type", JStr (py "Bearer"));
                (py "expires_in", JInt 3599);
                (py "expires_at", JInt 2147487244)]).
  exists (snd (request_token edge_env sample_provider edge_state)).
  split; [vm_compute; reflexivity|].
  split; [discriminate | vm_compute; reflexivity].
Qed.

(** C1, amended.  A cached token whose [expires_at] is greater than the
    float sum [time.time() + 3] is returned as it is: [request_token] sends
    no request, runs no signer and touches no file (its log is unchanged),
    and the in-memory token and the file system, hence the cache file, are
    left as they were.  This is so in particular when [expires_at] is a
    whole number, below [2 ** 53] in magnitude, that lies 4 seconds or more
    after the clock reading. *)
Theorem request_token_serves_fresh_cache env self s ea :
  py_getitem (st_cached_token s) (py "expires_at") = Ok ea ->
  (later_than_float ea (expiry_horizon env s)
   \/ exists z,
        ea = JInt z /\ Z.abs z < 2 ^ 53
        /\ (env_clock env (st_ticks s) + 4 <= inject_Z z)%Q) ->
  exists s',
    request_token env self s = (Ok (st_cached_token s), s')
    /\ st_cached_token s' = st_cached_token s
    /\ st_fs s' = st_fs s
    /\ st_fs s' !! cached_token_path self = st_fs s !! cached_token_path self
    /\ st_log s' = st_log s
    /\ http_requests (st_log s') = http_requests (st_log s)
    /\ st_sent s' = st_sent s.
Proof.
  intros Hget Hfresh.
  assert (Hlater : later_than_float ea (expiry_horizon env s)).
  { destruct Hfresh as [H | (z & -> & Hz & H)]; [exact H|].
    now apply expires_four_seconds_ahead. }
  exists (tick s).
  rewrite (request_token_fresh env self s ea Hget Hlater).
  repeat split.
Qed.

Lemma request_token_serves_fresh_cache_witness :
  exists s',
    request_token sample_env sample_provider fresh_state
    = (Ok (sample_token 5000), s')
    /\ st_cached_token s' = sample_token 5000
    /\ st_fs s' = st_fs fresh_state
    /\ st_fs s' !! cached_token_path sample_provider
       = st_fs fresh_state !! cached_token_path sample_provider
    /\ st_log s' = st_log fresh_state
    /\ http_requests (st_log s') = http_requests (st_log fresh_state)
    /\ st_sent s' = st_sent fresh_state.
Proof.
  apply (request_token_serves_fresh_cache sample_env sample_provider
           fresh_state (JInt 5000)).
  - reflexivity.
  - right. exists 5000. split; [reflexivity|].
    split; [reflexivity|]. vm_compute. intros H. discriminate H.
Defined.

(** C2. With no cached token, or with one whose [expires_at] is at most the
    float sum [time.time() + 3] (as is a whole number, below [2 ** 53] in
    magnitude, that lies within 3 seconds of the clock reading or in the
    past), and an environment in which every step
    succeeds (the token endpoint is a URL that [Request] accepts, the signer
    runs, the endpoint answers with a JSON object whose [expires_in] can be
    added to the clock, the file steps succeed), [request_token] performs
    exactly one token exchange (one request, sent to the token endpoint) and
    returns a token whose [expires_at] is the [expires_in] of the response
    plus the Unix time read when the response is stamped. *)
Theorem request_token_refreshes_once env self s k kb u p resp data tokd ei f :
  (st_cached_token s = JNull
   \/ (exists ea,
         py_getitem (st_cached_token s) (py "expires_at") = Ok ea
         /\ not_later_than_float ea (expiry_horizon env s))
   \/ (exists z,
         py_getitem (st_cached_token s) (py "expires_at") = Ok (JInt z)
         /\ Z.abs z < 2 ^ 53
         /\ (inject_Z z <= env_clock env (st_ticks s) + 3)%Q)) ->
  key self = JStr k ->
  utf8_encode k = Some kb ->
  request_url env (token_url self) = Ok u ->
  float_repr_ascii env ->
  (forall input, env_openssl env kb input = Some p) ->
  (forall req, env_http env (st_sent s) req = HttpOk resp) ->
  decoded_response env resp = Ok data ->
  json_loads_bytes env data = Ok (JObj tokd) ->
  dict_get tokd (py "expires_in") = Some ei ->
  (forall n, exists v, add_int ei (int_of_float (env_clock env n)) = Ok v) ->
  (forall step, env_fails env step = false) ->
  fresh_name env (st_fs s) (env_tmpnames env) = Some f ->
  env_device env (path_parent f)
  = env_device env (path_parent (cached_token_path self)) ->
  st_fs s !! cached_token_path self <> Some Dir ->
  exists tok s' req n,
    request_token env self s = (Ok tok, s')
    /\ http_requests (st_log s') = http_requests (st_log s) ++ [req]
    /\ req_url req = u
    /\ req_headers req = exchange_headers
    /\ st_ticks s' = S n
    /\ py_getitem tok (py "expires_at")
       = add_int ei (int_of_float (env_clock env n)).
Proof.
  intros Hneed Hk Hkb Hu Hfr Hssl Hhttp Hdec Hload Hei Hnum Hok Hf Hdev Hdst.
  assert (Hdue : st_cached_token s = JNull
                 \/ exists ea,
                      py_getitem (st_cached_token s) (py "expires_at") = Ok ea
                      /\ not_later_than_float ea (expiry_horizon env s)).
  { destruct Hneed as [H | [H | (z & Hget & Hz & H)]]; auto.
    right. exists (JInt z). split; [exact Hget|].
    now apply expires_within_three_seconds. }
  destruct Hdue as [Hnull | (ea & Hget & Hstale)].
  - destruct (request_token_absent env self s k kb u p resp data tokd ei f)
      as (tok & s' & req & Hrun & Hreq & Hurl & Hhdr & Ht & Hexp & _); auto.
    exists tok, s', req, (S (st_ticks s)). auto 10.
  - rewrite (request_token_stale env self s ea Hget Hstale).
    destruct (request_token_absent env self (with_cached JNull (tick s))
                k kb u p resp data tokd ei f)
      as (tok & s' & req & Hrun & Hreq & Hurl & Hhdr & Ht & Hexp & _); auto.
    exists tok, s', req, (S (S (st_ticks s))). auto 10.
Qed.

Lemma request_token_refreshes_once_witness :
  exists tok s' req n,
    request_token sample_env sample_provider stale_state = (Ok tok, s')
    /\ http_requests (st_log s') = http_requests (st_log stale_state) ++ [req]
    /\ req_url req = _TOKEN_URL
    /\ req_headers req = exchange_headers
    /\ st_ticks s' = S n
    /\ py_getitem tok (py "expires_at")
       = add_int (JInt 3599) (int_of_float (env_clock sample_env n)).
Proof.
  apply (request_token_refreshes_once sample_env sample_provider stale_state
           (py "PEM") (py "PEM") _TOKEN_URL (mkCompleted 0 [1; 2; 3; 4] [])
           (mkResponse None sample_response_text) sample_response_text
           [(py "access_token", JStr (py "ya29.x"));
            (py "token_type", JStr (py "Bearer"));
            (py "expires_in", JInt 3599)]
           (JInt 3599) (py "/tmp/tmpk3x9")).
  - right. right. exists 1003. split; [reflexivity|].
    split; [reflexivity|]. vm_compute. intros H. discriminate H.
  - reflexivity.
  - reflexivity.
  - vm_compute. reflexivity.
  - intros q. apply ascii_of_forallb. reflexivity.
  - reflexivity.
  - reflexivity.
  - reflexivity.
  - vm_compute. reflexivity.
  - reflexivity.
  - intros n. eexists. reflexivity.
  - reflexivity.
  - vm_compute. reflexivity.
  - reflexivity.
  - vm_compute. intros H. discriminate H.
Defined.

(** C3, as the specification states it, fails: the temporary file is not
    created in the cache directory.  In this run the token is written to
    [/tmp/tmpk3x9] while the cache file lives in [/home/u/.cache/ugcs]. *)
Lemma temporary_file_outside_cache_directory :
  exists f,
    In (EvCreate f)
       (st_log (snd (request_token sample_env sample_provider sample_state)))
    /\ path_parent f = py "/tmp"
    /\ path_parent (cached_token_path sample_provider) = py "/home/u/.cache/ugcs"
    /\ path_parent f <> path_parent (cached_token_path sample_provider).
Proof.
  exists (py "/tmp/tmpk3x9"). split; [|split; [|split]].
  - vm_compute. right. right. left. reflexivity.
  - vm_compute. reflexivity.
  - vm_compute. reflexivity.
  - vm_compute. intros H. discriminate H.
Qed.

(** C3, amended.  A refresh writes the new token to a temporary file of the
    default temporary directory, flushes it, forces it to stable storage and
    moves it over the cache file with one [os.replace]; then the cache file
    holds the complete serialised token.  When any step fails the call
    raises and the file system is exactly as before: no temporary file is
    left and the cache file keeps its prior content. *)
Theorem request_token_replaces_cache_atomically env self s r s' :
  request_token env self s = (r, s') ->
  match r with
  | Raise _ =>
      st_fs s' = st_fs s
      /\ st_fs s' !! cached_token_path self = st_fs s !! cached_token_path self
  | Ok tok =>
      (st_fs s' = st_fs s /\ st_log s' = st_log s)
      \/ exists n pre,
           let f := env_tmpdir env ++ py "/tmp" ++ n in
           let text := json_dumps_default env tok in
           In n (env_tmpnames env)
           /\ st_fs s !! f = None
           /\ (forall step,
                  In step [IoCreate; IoDump; IoFlush; IoFsync; IoReplace] ->
                  env_fails env step = false)
           /\ st_log s' = pre ++
                [EvCreate f; EvWrite f text; EvFlush f; EvFsync f;
                 EvReplace f (cached_token_path self)]
           /\ st_fs s' = <[cached_token_path self := File text]> (st_fs s)
           /\ st_fs s' !! cached_token_path self = Some (File text)
  end.
Proof.
  intros H. apply request_token_fs in H.
  destruct r as [tok|e].
  - destruct H as [_ [Hsame | (f & pre & Hf & Hsteps & Hfs & Hlog)]];
      [left; exact Hsame | right].
    destruct (fresh_name_Some _ _ _ _ Hf) as (Hnone & n & Hn & ->).
    exists n, pre. cbv zeta. rewrite <- tmp_path_in_tmpdir.
    repeat split; auto.
    rewrite Hfs. apply lookup_insert_eq.
  - split; [exact H | now rewrite H].
Qed.

Lemma request_token_replaces_cache_atomically_witness :
  st_fs (snd (request_token two_devices_env sample_provider corrupt_state))
  = st_fs corrupt_state
  /\ st_fs (snd (request_token two_devices_env sample_provider corrupt_state))
       !! cached_token_path sample_provider
     = st_fs corrupt_state !! cached_token_path sample_provider.
Proof.
  apply (request_token_replaces_cache_atomically two_devices_env sample_provider
           corrupt_state (Raise OSError)
           (snd (request_token two_devices_env sample_provider corrupt_state))).
  vm_compute. reflexivity.
Defined.

(** Across devices the move cannot succeed, so every refresh raises. *)
Example refresh_across_devices_raises :
  fst (request_token two_devices_env sample_provider sample_state) = Raise OSError.
Proof. vm_compute. reflexivity. Qed.

(** C4, as the specification states it, fails: a cache file that is not
    valid JSON makes the constructor raise. *)
Lemma corrupt_cache_counterexample :
  json_loads (py "{not json") = Raise JSONDecodeError
  /\ st_fs corrupt_state !! cache_path sample_env (py "svc@example.test")
     = Some (File (py "{not json"))
  /\ fst (AccessTokenProvider sample_env (JStr (py "svc@example.test"))
            (JStr (py "PEM")) None None None corrupt_state)
     = Raise JSONDecodeError.
Proof. repeat split; vm_compute; reflexivity. Qed.

(** C4, amended.  When the cache file exists and its content is not valid
    JSON, constructing the provider raises the decoder's error; nothing
    recovers from it. *)
Theorem corrupt_cache_fails_construction env a k kd ex tu s text :
  env_fails env IoMkdir = false ->
  st_fs s !! path_parent (cache_path env a) = Some Dir ->
  st_fs s !! cache_path env a = Some (File text) ->
  (forall v, json_loads text <> Ok v) ->
  AccessTokenProvider env (JStr a) k kd ex tu s
  = (Raise JSONDecodeError, with_cached JNull s).
Proof.
  intros Hmk Hdir Hfile Hbad.
  destruct (json_loads text) as [v|e] eqn:Hload; [now destruct (Hbad v)|].
  pose proof (json_loads_raises _ _ Hload) as Hje. subst e.
  destruct s as [ticks n fs log cached].
  cbv beta iota delta [st_fs cache_path] in Hdir, Hfile.
  cbv beta iota zeta delta
    [AccessTokenProvider bind set_cached mkdir_parents io_check is_file
     read_text get_fs ret raise lift with_cached st_fs st_ticks st_sent st_log
     st_cached_token].
  rewrite Hmk. cbv beta iota.
  rewrite Hdir. cbv beta iota. rewrite Hfile. cbv beta iota.
  rewrite Hfile. cbv beta iota. rewrite Hload. reflexivity.
Qed.

Lemma corrupt_cache_fails_construction_witness :
  AccessTokenProvider sample_env (JStr (py "svc@example.test"))
    (JStr (py "PEM")) None None None corrupt_state
  = (Raise JSONDecodeError, with_cached JNull corrupt_state).
Proof.
  apply (corrupt_cache_fails_construction sample_env (py "svc@example.test")
           (JStr (py "PEM")) None None None corrupt_state (py "{not json")).
  - reflexivity.
  - vm_compute. reflexivity.
  - vm_compute. reflexivity.
  - intros v H. vm_compute in H. discriminate H.
Defined.

(** C5: the code does not do what the claim says.  A string that parses as
    JSON, and an already parsed structure, both make the loader raise
    [TypeError]: the variable that should hold the credentials is bound to
    the [json] module.  Only a file path yields a provider. *)
Theorem inline_credentials_are_rejected :
  json_loads sample_credentials_text = Ok sample_credentials
  /\ from_service_account_json sample_env (InStr sample_credentials_text)
       sample_state
     = (Raise TypeError, sample_state)
  /\ from_service_account_json sample_env (InObj sample_credentials)
       sample_state
     = (Raise TypeError, sample_state)
  /\ fst (from_service_account_json sample_env (InStr (py "sa.json"))
            credentials_file_state)
     = Ok (mkProvider (py "svc@example.test") (JStr (py "PEM"))
                      (JStr (py "key-1")) 60 (JStr _TOKEN_URL)
                      sample_cache_path).
Proof.
  assert (Hload : json_loads sample_credentials_text = Ok sample_credentials)
    by (vm_compute; reflexivity).
  split; [exact Hload|].
  split; [exact (inline_credentials_raise _ _ _ _ Hload)|].
  split; [apply parsed_credentials_raise|].
  vm_compute. reflexivity.
Qed.

(** ** Shape of the encoder's output *)

Lemma urlsafe_b64encode_length b :
  List.length (urlsafe_b64encode b) = (4 * ((List.length b + 2) / 3))%nat.
Proof.
  induction b as [|x|x y|x y z r IH] using list_ind3; try reflexivity.
  cbn [urlsafe_b64encode List.length]. rewrite IH.
  replace (S (S (S (List.length r))) + 2)%nat
    with (1 * 3 + (List.length r + 2))%nat by lia.
  rewrite Nat.div_add_l by discriminate. lia.
Qed.

(** Padding is kept whenever the input is not a multiple of 3 bytes. *)
Lemma urlsafe_b64encode_padded b :
  (List.length b mod 3 <> 0)%nat -> In b64_pad (urlsafe_b64encode b).
Proof.
  induction b as [|x|x y|x y z r IH] using list_ind3; intros Hmod.
  - now destruct Hmod.
  - cbn. auto.
  - cbn. auto.
  - cbn [urlsafe_b64encode]. do 4 right. apply IH.
    intros E. apply Hmod. cbn [List.length].
    replace (S (S (S (List.length r)))) with (List.length r + 1 * 3)%nat by lia.
    now rewrite Nat.Div0.mod_add.
Qed.

(** C6, as the specification states it, fails: the audience is not the
    configured token endpoint.  The provider below posts to
    [https://sts.example.test/token], yet its assertion names
    [https://oauth2.googleapis.com/token]. *)
Lemma jwt_audience_counterexample :
  exists a s',
    _create_jwt sample_env other_provider sample_state = (Ok a, s')
    /\ nth_error (split_on 46 a) 1
       = Some (urlsafe_b64encode
                 (json_dumps_compact sample_env
                    (JObj (jwt_claim_of other_provider 1000))))
    /\ dict_get (jwt_claim_of other_provider 1000) (py "aud")
       = Some (JStr _TOKEN_URL)
    /\ token_url other_provider = JStr other_endpoint
    /\ dict_get (jwt_claim_of other_provider 1000) (py "aud")
       <> Some (token_url other_provider).
Proof.
  eexists. eexists. split; [vm_compute; reflexivity|].
  repeat split; try (vm_compute; reflexivity).
  vm_compute. intros H. discriminate H.
Qed.

(** C6, amended.  The claims of every assertion are: issuer, the account;
    scope, the fixed read/write scope; audience, the fixed string
    [https://oauth2.googleapis.com/token] (the default endpoint, whatever
    endpoint is configured); issued-at, the Unix time read when the
    assertion is made; expiry, issued-at plus the configured lifetime.  A
    provider built without a lifetime has the lifetime 60. *)
Theorem jwt_claims_of_every_assertion env self s a s' :
  _create_jwt env self s = (Ok a, s') ->
  let iat := int_of_float (env_clock env (st_ticks s)) in
  let claims := jwt_claim_of self iat in
  (exists cb,
      utf8_encode (json_dumps_compact env (JObj claims)) = Some cb
      /\ nth_error (split_on 46 a) 1 = Some (urlsafe_b64encode cb))
  /\ List.map fst claims
     = [py "iss"; py "scope"; py "aud"; py "iat"; py "exp"]
  /\ dict_get claims (py "iss") = Some (JStr (account self))
  /\ dict_get claims (py "scope")
     = Some (JStr (py "https://www.googleapis.com/auth/devstorage.read_write"))
  /\ dict_get claims (py "aud") = Some (JStr _TOKEN_URL)
  /\ dict_get claims (py "iat") = Some (JInt iat)
  /\ dict_get claims (py "exp") = Some (JInt (iat + expire self))
  /\ (forall env' acc k kd tu s0 p s1,
         AccessTokenProvider env' acc k kd None tu s0 = (Ok p, s1) ->
         expire p = 60).
Proof.
  intros H iat claims.
  apply create_jwt_inv in H
    as (k & kb & hb & cb & p & _ & _ & _ & Hcb & _ & -> & _).
  split.
  { exists cb. split; [exact Hcb|]. now rewrite jwt_three_parts. }
  repeat split.
  intros env' acc k' kd tu s0 p0 s1 Hp.
  apply provider_fields in Hp as (a0 & _ & _ & _ & _ & He & _). exact He.
Qed.

Lemma jwt_claims_of_every_assertion_witness :
  dict_get (jwt_claim_of other_provider 1000) (py "aud") = Some (JStr _TOKEN_URL)
  /\ dict_get (jwt_claim_of other_provider 1000) (py "exp") = Some (JInt 1060).
Proof.
  destruct (_create_jwt sample_env other_provider sample_state) as [r s'] eqn:E.
  destruct r as [a|e]; [|vm_compute in E; discriminate E].
  destruct (jwt_claims_of_every_assertion sample_env other_provider
              sample_state a s' E) as (_ & _ & _ & _ & Haud & _ & Hexp & _).
  split; [exact Haud | exact Hexp].
Defined.

(** C7, as the specification states it, fails: the parts keep their [=]
    padding.  Here the signer wrote four bytes and the third part of the
    assertion is [AQIDBA==]. *)
Lemma jwt_padding_counterexample :
  exists a s',
    _create_jwt sample_env sample_provider sample_state = (Ok a, s')
    /\ nth_error (split_on 46 a) 2 = Some (py "AQIDBA==")
    /\ In b64_pad (py "AQIDBA==").
Proof.
  eexists. eexists. split; [vm_compute; reflexivity|].
  split; [vm_compute; reflexivity|].
  vm_compute. do 6 right. left. reflexivity.
Qed.

(** C7, amended.  Every assertion is three parts separated by dots: the
    url-safe base64 encodings of the header bytes, of the claims bytes and
    of the signer's output, each in the padded form (four characters for
    every three bytes, rounded up, [=] included when the length is not a
    multiple of three).  The signer is run on exactly
    [base64url(header) + "." + base64url(claims)]. *)
Theorem jwt_is_three_padded_base64_parts env self s a s' :
  _create_jwt env self s = (Ok a, s') ->
  exists kb hb cb p,
    utf8_encode (json_dumps_compact env (JObj (jwt_header_of self))) = Some hb
    /\ utf8_encode
         (json_dumps_compact env
            (JObj (jwt_claim_of self (int_of_float (env_clock env (st_ticks s))))))
       = Some cb
    /\ env_openssl env kb (urlsafe_b64encode hb ++ py "." ++ urlsafe_b64encode cb)
       = Some p
    /\ st_log s' = st_log s ++
         [EvRun kb (urlsafe_b64encode hb ++ py "." ++ urlsafe_b64encode cb)]
    /\ split_on 46 a
       = [urlsafe_b64encode hb; urlsafe_b64encode cb;
          urlsafe_b64encode (stdout p)]
    /\ (forall b,
           In b [hb; cb; stdout p] ->
           Forall (fun c => is_b64url_char c = true \/ c = b64_pad)
                  (urlsafe_b64encode b)
           /\ List.length (urlsafe_b64encode b)
              = (4 * ((List.length b + 2) / 3))%nat
           /\ ((List.length b mod 3 <> 0)%nat ->
               In b64_pad (urlsafe_b64encode b))).
Proof.
  intros H.
  apply create_jwt_inv in H
    as (k & kb & hb & cb & p & _ & _ & Hhb & Hcb & Hp & -> & ->).
  exists kb, hb, cb, p.
  split; [exact Hhb|]. split; [exact Hcb|]. split; [exact Hp|].
  split; [reflexivity|]. split; [apply jwt_three_parts|].
  intros b _. split; [apply urlsafe_b64encode_chars|].
  split; [apply urlsafe_b64encode_length | apply urlsafe_b64encode_padded].
Qed.

Lemma jwt_is_three_padded_base64_parts_witness :
  exists a,
    fst (_create_jwt sample_env sample_provider sample_state) = Ok a
    /\ exists h c sg, split_on 46 a = [h; c; sg].
Proof.
  destruct (_create_jwt sample_env sample_provider sample_state) as [r s'] eqn:E.
  destruct r as [a|e]; [|vm_compute in E; discriminate E].
  exists a. split; [reflexivity|].
  destruct (jwt_is_three_padded_base64_parts sample_env sample_provider
              sample_state a s' E)
    as (kb & hb & cb & p & _ & _ & _ & _ & Hsplit & _).
  eauto.
Defined.

(** C10.  The signing helper returns the url-safe base64 of whatever the
    command wrote to standard output, whatever its exit status and its error
    output are, and raises nothing; so with a signer that fails, the
    assertion is still made of three parts, the third one being the
    encoding of that output (empty when the output is empty). *)
Theorem jwt_sign_ignores_signer_failure env self s k kb rc out err :
  key self = JStr k ->
  utf8_encode k = Some kb ->
  float_repr_ascii env ->
  (forall input, env_openssl env kb input = Some (mkCompleted rc out err)) ->
  (forall base input s0,
      utf8_encode base = Some input ->
      _jwt_sign_b64 env base (JStr k) s0
      = (Ok (urlsafe_b64encode out), logged (EvRun kb input) s0))
  /\ (exists a s' h c,
         _create_jwt env self s = (Ok a, s')
         /\ split_on 46 a = [h; c; urlsafe_b64encode out])
  /\ (out = [] -> urlsafe_b64encode out = []).
Proof.
  intros Hk Hkb Hfr Hssl. split; [|split].
  - intros base input s0 Hb.
    rewrite (jwt_sign_b64_run env base k kb input s0 Hkb Hb), Hssl.
    reflexivity.
  - pose proof (create_jwt_run env self s k kb Hk Hkb Hfr) as Hrun.
    cbv zeta in Hrun. rewrite Hssl in Hrun. cbn [stdout] in Hrun.
    do 4 eexists. split; [exact Hrun|]. apply jwt_three_parts.
  - intros ->. reflexivity.
Qed.

Lemma jwt_sign_ignores_signer_failure_witness :
  (forall base input s0,
      utf8_encode base = Some input ->
      _jwt_sign_b64 failing_signer_env base (JStr (py "PEM")) s0
      = (Ok (urlsafe_b64encode []), logged (EvRun (py "PEM") input) s0))
  /\ (exists a s' h c,
         _create_jwt failing_signer_env sample_provider sample_state = (Ok a, s')
         /\ split_on 46 a = [h; c; urlsafe_b64encode []])
  /\ (@nil Z = [] -> urlsafe_b64encode [] = []).
Proof.
  apply (jwt_sign_ignores_signer_failure failing_signer_env sample_provider
           sample_state (py "PEM") (py "PEM") 1 [] (py "unable to load key")).
  - reflexivity.
  - reflexivity.
  - intros q. apply ascii_of_forallb. reflexivity.
  - intros input. reflexivity.
Defined.

(** With a failing signer the assertion ends with a dot. *)
Example failed_signature_is_empty :
  exists a,
    fst (_create_jwt failing_signer_env sample_provider sample_state) = Ok a
    /\ List.last a 0 = 46.
Proof. eexists. split; vm_compute; reflexivity. Qed.

(** C8.  The path handed to [get], [get_metadata] or [delete] appears in
    the request URL as [quote(path)] with no safe character: the UTF-8 bytes of the path
    with every byte other than letters, digits and [_.-~] written [%XX].
    No [/] of the path survives.  (A path that cannot be encoded raises
    before anything is sent.) *)
Theorem object_path_is_percent_encoded env self path s :
  match utf8_encode path with
  | Some b =>
      let q := quote_from_bytes [] b in
      q = List.concat (List.map (quote_byte []) b)
      /\ Forall (fun c => always_safe c = true \/ c = 37) q
      /\ ~ In 47 q
      /\ (forall r s',
             bucket_get env self path s = (r, s') ->
             authorized_outcome env self
               (object_url self q ++ py "?alt=media") s s')
      /\ (forall r s',
             bucket_get_metadata env self path s = (r, s') ->
             authorized_outcome env self (object_url self q) s s')
      /\ (forall r s',
             bucket_delete env self path s = (r, s') ->
             authorized_outcome env self (object_url self q) s s')
  | None =>
      bucket_get env self path s = (Raise UnicodeEncodeError, s)
      /\ bucket_get_metadata env self path s = (Raise UnicodeEncodeError, s)
      /\ bucket_delete env self path s = (Raise UnicodeEncodeError, s)
  end.
Proof.
  destruct (utf8_encode path) as [b|] eqn:Hb.
  - assert (Hq : quote path [] = Ok (quote_from_bytes [] b))
      by (unfold quote, str_encode; now rewrite Hb).
    cbv zeta. split; [reflexivity|].
    split; [apply quote_from_bytes_chars|].
    split; [apply quote_from_bytes_no_slash|].
    split; [|split]; intros r s' H.
    + apply bucket_get_outcome in H. now rewrite Hq in H.
    + apply bucket_get_metadata_outcome in H. now rewrite Hq in H.
    + apply bucket_delete_outcome in H. now rewrite Hq in H.
  - unfold bucket_get, bucket_get_metadata, bucket_delete, bind, lift, quote,
      str_encode.
    rewrite Hb. repeat split.
Qed.

Lemma object_path_is_percent_encoded_witness :
  authorized_outcome sample_env sample_bucket
    (object_url sample_bucket (py "dir%2Ff%201") ++ py "?alt=media")
    fresh_state
    (snd (bucket_get sample_env sample_bucket (py "dir/f 1") fresh_state)).
Proof.
  pose proof (object_path_is_percent_encoded sample_env sample_bucket
                (py "dir/f 1") fresh_state) as H.
  change (utf8_encode (py "dir/f 1")) with (Some (py "dir/f 1")) in H.
  cbv zeta in H. destruct H as (_ & _ & _ & Hget & _).
  apply (Hget (fst (bucket_get sample_env sample_bucket (py "dir/f 1")
                      fresh_state))).
  vm_compute. reflexivity.
Defined.

Example bucket_get_url :
  List.last (http_requests
               (st_log (snd (bucket_get sample_env sample_bucket (py "dir/f 1")
                               fresh_state))))
            (mkRequest [] [] None None)
  = mkRequest
      (py "https://storage.googleapis.com/storage/v1/b/bkt/o/dir%2Ff%201?alt=media")
      [(py "Authorization", py "Bearer ya29.old");
       (py "Accept-Encoding", py "gzip, identity")]
      None None.
Proof. vm_compute. reflexivity. Qed.

(** C9.  Each bucket operation builds its URL (which fails only when the
    path or prefix cannot be encoded, before anything is done) and then
    first asks the provider for a token and sends one request to that URL,
    whose [Authorization] header is the token's [token_type], a space and
    its [access_token], and whose [Accept-Encoding] header is
    [gzip, identity]; when no token or no such header value can be had, it
    raises without sending anything. *)
Theorem bucket_operations_send_authorized_requests env self :
  (forall prefix s r s',
      bucket_list env self prefix s = (r, s') ->
      let base := _STORAGE_URL ++ py "/b/" ++ name self ++ py "/o" in
      match prefix with
      | Some (c :: p) =>
          match quote_plus (c :: p) with
          | Ok qp =>
              authorized_outcome env self (base ++ py "?prefix=" ++ qp) s s'
          | Raise e => r = Raise e /\ s' = s
          end
      | _ => authorized_outcome env self base s s'
      end)
  /\ (forall path data content_type s r s',
         bucket_put env self path data content_type s = (r, s') ->
         match quote_plus path with
         | Ok qp =>
             authorized_outcome env self
               (_UPLOAD_URL ++ py "/b/" ++ name self
                ++ py "/o?uploadType=media&name=" ++ qp) s s'
         | Raise e => r = Raise e /\ s' = s
         end)
  /\ (forall path s r s',
         bucket_get env self path s = (r, s') ->
         match quote path [] with
         | Ok q =>
             authorized_outcome env self
               (object_url self q ++ py "?alt=media") s s'
         | Raise e => r = Raise e /\ s' = s
         end)
  /\ (forall path s r s',
         bucket_get_metadata env self path s = (r, s') ->
         match quote path [] with
         | Ok q => authorized_outcome env self (object_url self q) s s'
         | Raise e => r = Raise e /\ s' = s
         end)
  /\ (forall path s r s',
         bucket_delete env self path s = (r, s') ->
         match quote path [] with
         | Ok q => authorized_outcome env self (object_url self q) s s'
         | Raise e => r = Raise e /\ s' = s
         end).
Proof.
  split; [exact (bucket_list_outcome env self)|].
  split; [exact (bucket_put_outcome env self)|].
  split; [exact (bucket_get_outcome env self)|].
  split; [exact (bucket_get_metadata_outcome env self)|].
  exact (bucket_delete_outcome env self).
Qed.

Lemma bucket_operations_send_authorized_requests_witness :
  authorized_outcome sample_env sample_bucket
    (_STORAGE_URL ++ py "/b/bkt/o?prefix=logs%2F") fresh_state
    (snd (bucket_list sample_env sample_bucket (Some (py "logs/")) fresh_state))
  /\ bucket_put sample_env sample_bucket [0xD800] [] (py "text/plain")
       fresh_state
     = (Raise UnicodeEncodeError, fresh_state).
Proof.
  pose proof (bucket_operations_send_authorized_requests sample_env
                sample_bucket) as (Hlist & Hput & _).
  split.
  - exact (Hlist (Some (py "logs/")) fresh_state _ _ eq_refl).
  - destruct (bucket_put sample_env sample_bucket [0xD800] [] (py "text/plain")
                fresh_state) as [r s'] eqn:E.
    destruct (Hput [0xD800] [] (py "text/plain") fresh_state r s' E)
      as [-> ->].
    reflexivity.
Defined.

Example bucket_put_request :
  List.last (http_requests
               (st_log (snd (bucket_put sample_env sample_bucket (py "d/f")
                               [1; 2] (py "text/plain") fresh_state))))
            (mkRequest [] [] None None)
  = mkRequest
      (py "https://storage.googleapis.com/upload/storage/v1/b/bkt/o?uploadType=media&name=d%2Ff")
      [(py "Authorization", py "Bearer ya29.old");
       (py "Accept-Encoding", py "gzip, identity");
       (py "Content-Type", py "text/plain");
       (py "Content-Transfer-Encoding", py "binary")]
      (Some [1; 2]) None.
Proof. vm_compute. reflexivity. Qed.

(** * Further properties of the program *)

(** ** [request_token], case by case *)

Lemma request_token_absent_unfold env self s :
  st_cached_token s = JNull ->
  request_token env self s =
    (let (r, s2) := _request_new_token env self s in
     match r with
     | Raise e => (Raise e, s2)
     | Ok tok =>
         match py_getitem tok (py "expires_in") with
         | Raise e => (Raise e, with_cached tok s2)
         | Ok ei =>
             match add_int ei (int_of_float (env_clock env (st_ticks s2))) with
             | Raise e => (Raise e, tick (with_cached tok s2))
             | Ok v =>
                 match py_setitem tok (py "expires_at") v with
                 | Raise e => (Raise e, tick (with_cached tok s2))
                 | Ok tok' =>
                     let (r', s') :=
                       store_token env self
                         (with_cached tok' (tick (with_cached tok s2))) in
                     match r' with
                     | Ok _ => (Ok (st_cached_token s'), s')
                     | Raise e => (Raise e, s')
                     end
                 end
             end
         end
     end).
Proof.
  intros Hnull. destruct s as [ticks n fs log cached].
  cbn [st_cached_token] in Hnull. subst cached.
  unfold request_token, bind, get_cached, ret, set_cached, lift, time_time.
  cbn [st_cached_token].
  destruct (_request_new_token env self _) as [[tok|e] s2]; [|reflexivity].
  cbn [st_cached_token with_cached].
  destruct (py_getitem tok (py "expires_in")) as [ei|e]; [|reflexivity].
  cbn [st_ticks with_cached].
  destruct (add_int ei _) as [v|e]; [|reflexivity].
  destruct (py_setitem tok (py "expires_at") v) as [tok'|e]; [|reflexivity].
  cbn [st_cached_token with_cached tick].
  destruct (store_token env self _) as [[u|e] s']; reflexivity.
Qed.

Lemma request_token_present env self s :
  st_cached_token s <> JNull ->
  request_token env self s =
    match py_getitem (st_cached_token s) (py "expires_at") with
    | Raise e => (Raise e, tick s)
    | Ok ea =>
        match pyfloat_ge (expiry_horizon env s) ea with
        | Raise e => (Raise e, tick s)
        | Ok true => request_token env self (with_cached JNull (tick s))
        | Ok false => (Ok (st_cached_token s), tick s)
        end
    end.
Proof.
  intros Hnn. destruct s as [ticks n fs log cached].
  cbn [st_cached_token st_ticks] in *.
  destruct cached; try (now destruct Hnn);
    unfold request_token at 1; unfold bind, get_cached, time_time, lift;
    cbn [st_cached_token st_ticks];
    (destruct (py_getitem _ (py "expires_at")) as [ea|e]; [|reflexivity]);
    unfold expiry_horizon; cbn [st_ticks];
    (destruct (pyfloat_ge _ ea) as [[|]|e]; reflexivity).
Qed.

Lemma setitem_getitem x k v y :
  py_setitem x k v = Ok y -> py_getitem y k = Ok v.
Proof.
  destruct x; simpl; try discriminate. intros [= <-].
  simpl. now rewrite dict_get_set.
Qed.

Lemma null_or_not (j : json) : j = JNull \/ j <> JNull.
Proof. destruct j; auto; right; discriminate. Qed.

(** A successful refresh, seen from a state without cached token. *)
Lemma request_token_absent_ok env self s tok s' :
  st_cached_token s = JNull ->
  request_token env self s = (Ok tok, s') ->
  exists resp s2 ei v,
    _request_new_token env self s = (Ok resp, s2)
    /\ py_getitem resp (py "expires_in") = Ok ei
    /\ add_int ei (int_of_float (env_clock env (st_ticks s2))) = Ok v
    /\ py_setitem resp (py "expires_at") v = Ok tok
    /\ store_token env self (with_cached tok (tick (with_cached resp s2)))
       = (Ok tt, s')
    /\ st_cached_token s' = tok.
Proof.
  intros Hnull H. rewrite (request_token_absent_unfold env self s Hnull) in H.
  destruct (_request_new_token env self s) as [[resp|e] s2]; [|discriminate].
  destruct (py_getitem resp (py "expires_in")) as [ei|e] eqn:Hei;
    [|discriminate].
  destruct (add_int ei _) as [v|e] eqn:Hv; [|discriminate].
  destruct (py_setitem resp (py "expires_at") v) as [tok'|e] eqn:Hset;
    [|discriminate].
  destruct (store_token env self _) as [[[]|e] s3] eqn:Hstore; [|discriminate].
  injection H as <- <-.
  pose proof (store_token_cases _ _ _ _ _ Hstore) as (Hc & _).
  cbn [with_cached st_cached_token] in Hc.
  exists resp, s2, ei, v. rewrite Hc. repeat split; auto.
Qed.

(** X1.  What [request_token] returns is what the provider then holds in
    memory, and it always carries an [expires_at]; a further call made while
    that instant is greater than the float sum [time.time() + 3] returns the
    same token and only reads the clock. *)
Theorem returned_token_is_cached_and_reused env self s tok s' :
  request_token env self s = (Ok tok, s') ->
  st_cached_token s' = tok
  /\ (exists ea, py_getitem tok (py "expires_at") = Ok ea)
  /\ (forall ea,
         py_getitem tok (py "expires_at") = Ok ea ->
         later_than_float ea (expiry_horizon env s') ->
         request_token env self s' = (Ok tok, tick s')).
Proof.
  intros H.
  assert (Hc : st_cached_token s' = tok).
  { apply request_token_fs in H. now destruct H as [-> _]. }
  split; [exact Hc|]. split.
  - destruct (null_or_not (st_cached_token s)) as [Hnull|Hnn].
    + apply (request_token_absent_ok env self s tok s' Hnull) in H
        as (resp & s2 & ei & v & _ & _ & _ & Hset & _).
      exists v. exact (setitem_getitem _ _ _ _ Hset).
    + rewrite (request_token_present env self s Hnn) in H.
      destruct (py_getitem (st_cached_token s) (py "expires_at")) as [ea|e]
        eqn:Hget; [|discriminate].
      destruct (pyfloat_ge _ ea) as [[|]|e]; [| |discriminate].
      * apply (request_token_absent_ok env self (with_cached JNull (tick s))
                 tok s' eq_refl) in H
          as (resp & s2 & ei & v & _ & _ & _ & Hset & _).
        exists v. exact (setitem_getitem _ _ _ _ Hset).
      * injection H as <- _. eauto.
  - intros ea Hget Hlater. rewrite <- Hc in *.
    exact (request_token_fresh env self s' ea Hget Hlater).
Qed.

Lemma returned_token_is_cached_and_reused_witness :
  exists tok s',
    request_token sample_env sample_provider fresh_state = (Ok tok, s')
    /\ request_token sample_env sample_provider s' = (Ok tok, tick s').
Proof.
  assert (E : request_token sample_env sample_provider fresh_state
              = (Ok (sample_token 5000), tick fresh_state))
    by (vm_compute; reflexivity).
  exists (sample_token 5000), (tick fresh_state). split; [exact E|].
  destruct (returned_token_is_cached_and_reused sample_env sample_provider
              fresh_state _ _ E) as (_ & _ & Hagain).
  apply (Hagain (JInt 5000)); [reflexivity|].
  vm_compute. reflexivity.
Defined.

Lemma needs_refresh_state env self s :
  (st_cached_token s = JNull
   \/ (exists ea,
         py_getitem (st_cached_token s) (py "expires_at") = Ok ea
         /\ not_later_than_float ea (expiry_horizon env s))
   \/ (exists z,
         py_getitem (st_cached_token s) (py "expires_at") = Ok (JInt z)
         /\ Z.abs z < 2 ^ 53
         /\ (inject_Z z <= env_clock env (st_ticks s) + 3)%Q)) ->
  exists s0,
    st_cached_token s0 = JNull
    /\ request_token env self s = request_token env self s0
    /\ st_sent s0 = st_sent s
    /\ st_fs s0 = st_fs s
    /\ st_log s0 = st_log s.
Proof.
  intros [Hnull | [(ea & Hget & Hstale) | (z & Hget & Hz & Hle)]].
  - exists s. auto.
  - exists (with_cached JNull (tick s)).
    rewrite (request_token_stale env self s ea Hget Hstale). auto.
  - exists (with_cached JNull (tick s)).
    rewrite (request_token_stale env self s (JInt z) Hget
               (expires_within_three_seconds env s z Hz Hle)).
    auto.
Qed.

Lemma exchange_run env self s k kb u p :
  key self = JStr k ->
  utf8_encode k = Some kb ->
  request_url env (token_url self) = Ok u ->
  float_repr_ascii env ->
  (forall input, env_openssl env kb input = Some p) ->
  exists req s2,
    req_url req = u
    /\ req_headers req = exchange_headers
    /\ _request_new_token env self s =
       (match env_http env (st_sent s) req with
        | HttpOk resp => rbind (decoded_response env resp) (json_loads_bytes env)
        | HttpFail e => Raise e
        end, s2)
    /\ st_fs s2 = st_fs s
    /\ st_cached_token s2 = st_cached_token s
    /\ st_ticks s2 = S (st_ticks s)
    /\ http_requests (st_log s2) = http_requests (st_log s) ++ [req].
Proof.
  intros Hk Hkb Hu Hfr Hssl.
  destruct (request_new_token_run env self s k kb u p Hk Hkb Hu Hfr (Hssl _))
    as (body & Hrun). cbv zeta in Hrun.
  eexists. eexists. split; [|split; [|split; [exact Hrun|]]];
    try reflexivity.
  repeat split.
  unfold sent, logged, tick. proj.
  rewrite http_requests_app, http_requests_snoc_other by (intros; discriminate).
  reflexivity.
Qed.

(** X2.  When a refresh is due, the token endpoint is a URL that [Request]
    accepts, and the endpoint cannot be reached or answers with an HTTP
    error, [request_token] raises that very error after one request.  The
    provider then holds no token in memory (a stale one has been dropped)
    and the file system, hence the cache file, is as before. *)
Theorem failed_exchange_leaves_no_token env self s k kb u p e :
  (st_cached_token s = JNull
   \/ (exists ea,
         py_getitem (st_cached_token s) (py "expires_at") = Ok ea
         /\ not_later_than_float ea (expiry_horizon env s))
   \/ (exists z,
         py_getitem (st_cached_token s) (py "expires_at") = Ok (JInt z)
         /\ Z.abs z < 2 ^ 53
         /\ (inject_Z z <= env_clock env (st_ticks s) + 3)%Q)) ->
  key self = JStr k ->
  utf8_encode k = Some kb ->
  request_url env (token_url self) = Ok u ->
  float_repr_ascii env ->
  (forall input, env_openssl env kb input = Some p) ->
  (forall req, env_http env (st_sent s) req = HttpFail e) ->
  exists s' req,
    request_token env self s = (Raise e, s')
    /\ st_cached_token s' = JNull
    /\ st_fs s' = st_fs s
    /\ http_requests (st_log s') = http_requests (st_log s) ++ [req]
    /\ req_url req = u.
Proof.
  intros Hneed Hk Hkb Hu Hfr Hssl Hhttp.
  destruct (needs_refresh_state env self s Hneed)
    as (s0 & Hnull & -> & Hsent & Hfs & Hlog).
  destruct (exchange_run env self s0 k kb u p Hk Hkb Hu Hfr Hssl)
    as (req & s2 & Hurl & _ & Hrun & Hfs2 & Hc2 & _ & Hreq).
  rewrite Hsent, Hhttp in Hrun.
  exists s2, req.
  rewrite (request_token_absent_unfold env self s0 Hnull), Hrun.
  repeat split; congruence.
Qed.

Lemma failed_exchange_leaves_no_token_witness :
  exists s' req,
    request_token unavailable_env sample_provider stale_state
    = (Raise (HTTPError 503 (py "busy")), s')
    /\ st_cached_token s' = JNull
    /\ st_fs s' = st_fs stale_state
    /\ http_requests (st_log s') = http_requests (st_log stale_state) ++ [req]
    /\ req_url req = _TOKEN_URL.
Proof.
  apply (failed_exchange_leaves_no_token unavailable_env sample_provider
           stale_state (py "PEM") (py "PEM") _TOKEN_URL
           (mkCompleted 0 [1; 2; 3; 4] [])).
  - right. right. exists 1003. split; [reflexivity|].
    split; [reflexivity|]. vm_compute. intros H. discriminate H.
  - reflexivity.
  - reflexivity.
  - reflexivity.
  - intros q. apply ascii_of_forallb. reflexivity.
  - reflexivity.
  - reflexivity.
Defined.





(** ** The constructor and the cache file *)

Lemma drop_last_component_length l :
  l <> [] -> (List.length (drop_last_component l) < List.length l)%nat.
Proof.
  induction l as [|c r IH]; [congruence|]. intros _. simpl.
  destruct (c =? 47); [lia|].
  destruct r as [|c' r']; [simpl; lia|].
  specialize (IH ltac:(discriminate)). lia.
Qed.

Lemma path_parent_shorter p :
  (2 <= List.length p)%nat ->
  (List.length (path_parent p) < List.length p)%nat.
Proof.
  intros Hp. unfold path_parent.
  destruct (mem_Z 47 p); [|simpl; lia].
  assert (Hr : rev p <> []).
  { intros E. apply (f_equal (@List.length Z)) in E.
    rewrite length_rev in E. simpl in E. lia. }
  pose proof (drop_last_component_length (rev p) Hr) as Hd.
  rewrite length_rev in Hd.
  destruct (rev (drop_last_component (rev p))) as [|x d] eqn:E.
  - simpl. lia.
  - rewrite <- E, length_rev. exact Hd.
Qed.

Lemma path_join_cases a b :
  path_join a b = b \/ path_join a b = a ++ py "/" ++ b.
Proof.
  unfold path_join. destruct b as [|c r]; auto.
  destruct c as [|p|p]; auto.
  repeat (destruct p as [p|p|]; auto).
Qed.

Lemma cache_path_length env a : (6 <= List.length (cache_path env a))%nat.
Proof.
  unfold cache_path.
  assert (Hl : (6 <= List.length (a ++ py ".token"))%nat)
    by (rewrite length_app; simpl; lia).
  destruct (path_join_cases (path_join (_xdg_cache_home env) (py "ugcs"))
                            (a ++ py ".token")) as [-> | ->].
  - exact Hl.
  - rewrite length_app, length_app. lia.
Qed.

Lemma cache_dir_is_not_cache_file env a :
  path_parent (cache_path env a) <> cache_path env a.
Proof.
  intros E. pose proof (cache_path_length env a) as Hl.
  pose proof (path_parent_shorter (cache_path env a) ltac:(lia)) as Hs.
  rewrite E in Hs. lia.
Qed.

Lemma provider_construction env a k kd ex tu s :
  env_fails env IoMkdir = false ->
  (forall t, st_fs s !! path_parent (cache_path env a) <> Some (File t)) ->
  let p := mkProvider a k
             (match kd with Some x => x | None => JNull end)
             (match ex with Some x => x | None => 60 end)
             (match tu with Some x => x | None => JStr _TOKEN_URL end)
             (cache_path env a) in
  let s1 :=
    with_fs (match st_fs s !! path_parent (cache_path env a) with
             | None => <[path_parent (cache_path env a) := Dir]> (st_fs s)
             | Some _ => st_fs s
             end) (with_cached JNull s) in
  AccessTokenProvider env (JStr a) k kd ex tu s =
    match st_fs s !! cache_path env a with
    | Some (File text) =>
        match json_loads text with
        | Ok j => (Ok p, with_cached j s1)
        | Raise e => (Raise e, s1)
        end
    | _ => (Ok p, s1)
    end.
Proof.
  intros Hmk Hdir. pose proof (cache_dir_is_not_cache_file env a) as Hne.
  destruct s as [ticks n fs log cached].
  cbv beta iota zeta delta [st_fs cache_path] in *.
  cbv beta iota zeta delta
    [AccessTokenProvider bind set_cached set_fs mkdir_parents io_check is_file
     read_text get_fs ret raise lift with_cached with_fs st_fs st_ticks st_sent
     st_log st_cached_token].
  rewrite Hmk. cbv beta iota.
  destruct (fs !! path_join _ _) as [[text|]|] eqn:Ef;
    (destruct (fs !! path_parent _) as [[t|]|] eqn:Ep;
     [now destruct (Hdir t) | |]);
    cbv beta iota; rewrite ?lookup_insert_ne by exact Hne;
    rewrite ?Ef; cbv beta iota; rewrite ?lookup_insert_ne by exact Hne;
    rewrite ?Ef; cbv beta iota; try reflexivity;
    destruct (json_loads text); reflexivity.
Qed.

(** X5.  Whatever its arguments and whatever it returns, the constructor
    reads no clock, sends no request and logs no operation, and every file
    or directory that existed before is still there, unchanged. *)
Theorem constructor_keeps_existing_entries env acc k kd ex tu s :
  let s' := snd (AccessTokenProvider env acc k kd ex tu s) in
  st_ticks s' = st_ticks s
  /\ st_sent s' = st_sent s
  /\ st_log s' = st_log s
  /\ (forall p x, st_fs s !! p = Some x -> st_fs s' !! p = Some x).
Proof.
  cbv zeta.
  destruct acc as [| | | | a | |];
    try (destruct s; cbn; now auto).
  destruct (env_fails env IoMkdir) eqn:Hmk.
  { destruct s as [ticks n fs log cached].
    cbv beta iota zeta delta
      [AccessTokenProvider bind set_cached mkdir_parents io_check raise
       with_cached st_fs st_ticks st_sent st_log st_cached_token].
    rewrite Hmk. cbn [snd]. auto. }
  destruct (st_fs s !! path_parent (cache_path env a)) as [[t|]|] eqn:Ep.
  { destruct s as [ticks n fs log cached].
    cbv beta iota zeta delta [st_fs cache_path] in Ep.
    cbv beta iota zeta delta
      [AccessTokenProvider bind set_cached mkdir_parents io_check raise ret
       get_fs with_cached st_fs st_ticks st_sent st_log st_cached_token].
    rewrite Hmk. cbv beta iota. rewrite Ep. cbn [snd]. auto. }
  - rewrite provider_construction by (try assumption; intros t; congruence).
    cbv zeta. rewrite Ep.
    destruct (st_fs s !! cache_path env a) as [[text|]|];
      [destruct (json_loads text)| |]; destruct s; cbn; auto.
  - rewrite provider_construction by (try assumption; intros t; congruence).
    cbv zeta. rewrite Ep.
    assert (Hins : forall p x,
               st_fs s !! p = Some x ->
               <[path_parent (cache_path env a) := Dir]> (st_fs s) !! p = Some x).
    { intros p x Hp. rewrite lookup_insert_ne; [exact Hp | congruence]. }
    destruct (st_fs s !! cache_path env a) as [[text|]|];
      [destruct (json_loads text)| |]; destruct s; cbn in *; auto.
Qed.

(** X6.  A cache file that holds valid JSON which is not a token (any value
    but [null] without a readable [expires_at]) is accepted by the
    constructor.  Every call of [request_token] then raises on reading
    [expires_at], having only read the clock: no exchange is attempted, and
    the cache file stays as it is. *)
Theorem unusable_cache_file_blocks_provider env a k kd ex tu s text j e :
  env_fails env IoMkdir = false ->
  (forall t, st_fs s !! path_parent (cache_path env a) <> Some (File t)) ->
  st_fs s !! cache_path env a = Some (File text) ->
  json_loads text = Ok j ->
  j <> JNull ->
  py_getitem j (py "expires_at") = Raise e ->
  exists p s1,
    AccessTokenProvider env (JStr a) k kd ex tu s = (Ok p, s1)
    /\ st_cached_token s1 = j
    /\ st_fs s1 !! cache_path env a = Some (File text)
    /\ (forall s2,
           st_cached_token s2 = j ->
           request_token env p s2 = (Raise e, tick s2)
           /\ st_cached_token (tick s2) = j
           /\ st_fs (tick s2) = st_fs s2
           /\ st_log (tick s2) = st_log s2
           /\ st_sent (tick s2) = st_sent s2).
Proof.
  intros Hmk Hdir Hfile Hload Hnn Hget.
  pose proof (provider_construction env a k kd ex tu s Hmk Hdir) as Hrun.
  cbv zeta in Hrun. rewrite Hfile, Hload in Hrun.
  eexists. eexists. split; [exact Hrun|].
  split; [reflexivity|]. split.
  - cbn [with_cached with_fs st_fs].
    destruct (st_fs s !! path_parent (cache_path env a)) eqn:Ep;
      [exact Hfile|].
    rewrite lookup_insert_ne by exact (cache_dir_is_not_cache_file env a).
    exact Hfile.
  - intros s2 Hc. split; [|destruct s2; auto].
    rewrite request_token_present by (rewrite Hc; exact Hnn).
    rewrite Hc, Hget. reflexivity.
Qed.

Lemma unusable_cache_file_blocks_provider_witness :
  exists p s1,
    AccessTokenProvider sample_env (JStr (py "svc@example.test"))
      (JStr (py "PEM")) None None None unusable_cache_state = (Ok p, s1)
    /\ request_token sample_env p s1
       = (Raise (KeyError (py "expires_at")), tick s1).
Proof.
  destruct (unusable_cache_file_blocks_provider sample_env
              (py "svc@example.test") (JStr (py "PEM")) None None None
              unusable_cache_state (py "{}") (JObj [])
              (KeyError (py "expires_at")))
    as (p & s1 & Hrun & Hc & _ & Hcalls).
  - reflexivity.
  - intros t. vm_compute. discriminate.
  - vm_compute. reflexivity.
  - vm_compute. reflexivity.
  - discriminate.
  - reflexivity.
  - exists p, s1. split; [exact Hrun|]. exact (proj1 (Hcalls s1 Hc)).
Defined.

(** ** Credentials and the cache across providers *)

(** X7.  A token that [request_token] has just obtained and stored is what a
    provider constructed afterwards for the same account starts with: the
    constructor finds the cache file and loads the token from it, provided
    the token is written in a form that [json.load] reads back. *)
Theorem refreshed_token_is_reloaded env self s tok s' k kd ex tu :
  (st_cached_token s = JNull
   \/ (exists ea,
         py_getitem (st_cached_token s) (py "expires_at") = Ok ea
         /\ not_later_than_float ea (expiry_horizon env s))
   \/ (exists z,
         py_getitem (st_cached_token s) (py "expires_at") = Ok (JInt z)
         /\ Z.abs z < 2 ^ 53
         /\ (inject_Z z <= env_clock env (st_ticks s) + 3)%Q)) ->
  request_token env self s = (Ok tok, s') ->
  cached_token_path self = cache_path env (account self) ->
  json_loads (json_dumps_default env tok) = Ok tok ->
  env_fails env IoMkdir = false ->
  (forall t, st_fs s !! path_parent (cache_path env (account self))
             <> Some (File t)) ->
  forall s0,
    st_fs s0 = st_fs s' ->
    exists p s1,
      AccessTokenProvider env (JStr (account self)) k kd ex tu s0 = (Ok p, s1)
      /\ st_cached_token s1 = tok
      /\ account p = account self
      /\ cached_token_path p = cached_token_path self.
Proof.
  intros Hneed Hrun Hpath Hrt Hmk Hdir s0 Hfs0.
  destruct (needs_refresh_state env self s Hneed)
    as (sn & Hnull & Heq & _ & Hfsn & _).
  rewrite Heq in Hrun.
  destruct (request_token_absent_ok env self sn tok s' Hnull Hrun)
    as (resp & s2 & ei & v & Hnew & _ & _ & _ & Hstore & _).
  apply keeps_request_new_token_fs in Hnew.
  apply store_token_cases in Hstore as (_ & _ & _ & _ & f & _ & _ & _ & Hfs & _).
  cbn [with_cached tick st_fs st_cached_token] in Hfs.
  rewrite Hnew, Hfsn, Hpath in Hfs.
  assert (Hfile : st_fs s0 !! cache_path env (account self)
                  = Some (File (json_dumps_default env tok))).
  { rewrite Hfs0, Hfs. apply lookup_insert_eq. }
  assert (Hdir0 : forall t, st_fs s0 !! path_parent (cache_path env (account self))
                            <> Some (File t)).
  { intros t. rewrite Hfs0, Hfs.
    rewrite lookup_insert_ne
      by (intros E; exact (cache_dir_is_not_cache_file env _ (eq_sym E))).
    apply Hdir. }
  pose proof (provider_construction env (account self) k kd ex tu s0 Hmk Hdir0)
    as Hc.
  cbv zeta in Hc. rewrite Hfile, Hrt in Hc.
  eexists. eexists. split; [exact Hc|].
  repeat split. cbn [cached_token_path]. now rewrite Hpath.
Qed.

Lemma refreshed_token_is_reloaded_witness :
  exists tok s' p s1,
    request_token sample_env sample_provider sample_state = (Ok tok, s')
    /\ AccessTokenProvider sample_env (JStr (py "svc@example.test"))
         (JStr (py "PEM")) None None None s' = (Ok p, s1)
    /\ st_cached_token s1 = tok.
Proof.
  set (tok := JObj [(py "access_token", JStr (py "ya29.x"));
                    (py "token_type", JStr (py "Bearer"));
                    (py "expires_in", JInt 3599);
                    (py "expires_at", JInt 4599)]).
  set (s' := snd (request_token sample_env sample_provider sample_state)).
  assert (E : request_token sample_env sample_provider sample_state
              = (Ok tok, s')) by (vm_compute; reflexivity).
  destruct (refreshed_token_is_reloaded sample_env sample_provider sample_state
              tok s' (JStr (py "PEM")) None None None)
    with (s0 := s') as (p & s1 & H1 & H2 & _).
  - left. reflexivity.
  - exact E.
  - vm_compute. reflexivity.
  - vm_compute. reflexivity.
  - reflexivity.
  - intros t. vm_compute. discriminate.
  - reflexivity.
  - exists tok, s', p, s1. auto.
Defined.

Lemma from_file_unfold env c p s :
  names_file c p ->
  from_service_account_json env c s =
    (text <- read_text env p ;;
     v <- lift (json_loads text) ;;
     ce <- lift (py_getitem v (py "client_email")) ;;
     pk <- lift (py_getitem v (py "private_key")) ;;
     pkid <- lift (py_getitem v (py "private_key_id")) ;;
     turi <- lift (py_getitem v (py "token_uri")) ;;
     AccessTokenProvider env ce pk (Some pkid) None (Some turi)) s.
Proof.
  intros (raw & [-> | [-> [e He]]] & ->);
    cbv beta iota zeta delta
      [from_service_account_json bind read_text get_fs lift ret raise subscript];
    rewrite ?He; cbv beta iota;
    (destruct (st_fs s !! posix_path raw) as [[text|]|];
     [|reflexivity|reflexivity]);
    (destruct (json_loads text) as [v|]; [|reflexivity]);
    repeat match goal with
           | |- context [py_getitem v ?k] => destruct (py_getitem v k)
           end; reflexivity.
Qed.

(** X8.  Credentials named by a path (a [Path], or a [str] that is not JSON
    text) are read from the file of that name, as [pathlib] writes it: the
    provider is constructed from the
    file's [client_email], [private_key], [private_key_id] and [token_uri],
    other keys are ignored, and the assertion lifetime is the default of 60
    seconds. *)
Theorem credentials_file_gives_provider env c p s text d ce pk pkid turi :
  names_file c p ->
  st_fs s !! p = Some (File text) ->
  json_loads text = Ok (JObj d) ->
  dict_get d (py "client_email") = Some ce ->
  dict_get d (py "private_key") = Some pk ->
  dict_get d (py "private_key_id") = Some pkid ->
  dict_get d (py "token_uri") = Some turi ->
  from_service_account_json env c s
  = AccessTokenProvider env ce pk (Some pkid) None (Some turi) s
  /\ (forall q s',
         from_service_account_json env c s = (Ok q, s') ->
         ce = JStr (account q)
         /\ key q = pk
         /\ kid q = pkid
         /\ token_url q = turi
         /\ expire q = 60
         /\ cached_token_path q = cache_path env (account q)).
Proof.
  intros Hc Hfile Hload H1 H2 H3 H4.
  assert (Hrun : from_service_account_json env c s
                 = AccessTokenProvider env ce pk (Some pkid) None (Some turi) s).
  { rewrite (from_file_unfold env c p s Hc).
    cbv beta iota zeta delta [bind read_text get_fs lift ret raise py_getitem].
    rewrite Hfile. cbv beta iota. rewrite Hload. cbv beta iota.
    rewrite H1, H2, H3, H4. reflexivity. }
  split; [exact Hrun|].
  intros q s' Hq. rewrite Hrun in Hq.
  apply provider_fields in Hq as (a & -> & <- & Hk & Hkd & Hex & Htu & Hp).
  auto 10.
Qed.

Lemma credentials_file_gives_provider_witness :
  from_service_account_json sample_env (InStr (py "sa.json"))
    credentials_file_state
  = AccessTokenProvider sample_env (JStr (py "svc@example.test"))
      (JStr (py "PEM")) (Some (JStr (py "key-1"))) None
      (Some (JStr _TOKEN_URL)) credentials_file_state.
Proof.
  apply (credentials_file_gives_provider sample_env (InStr (py "sa.json"))
           (py "sa.json") credentials_file_state sample_credentials_text
           [(py "client_email", JStr (py "svc@example.test"));
            (py "private_key", JStr (py "PEM"));
            (py "private_key_id", JStr (py "key-1"));
            (py "token_uri", JStr _TOKEN_URL)]).
  - exists (py "sa.json"). split; [|vm_compute; reflexivity].
    right. split; [reflexivity|]. exists JSONDecodeError. vm_compute. reflexivity.
  - vm_compute. reflexivity.
  - vm_compute. reflexivity.
  - reflexivity.
  - reflexivity.
  - reflexivity.
  - reflexivity.
Defined.

(** X9.  The four fields are read in the order [client_email],
    [private_key], [private_key_id], [token_uri]; the first one that cannot
    be read decides the exception ([KeyError] of that key for a dict,
    [TypeError] for another JSON value), and nothing has been done yet: no
    directory made, no token loaded. *)
Theorem first_missing_credential_is_reported
        env c p s text j before k after e :
  names_file c p ->
  st_fs s !! p = Some (File text) ->
  json_loads text = Ok j ->
  credential_keys = before ++ k :: after ->
  (forall k', In k' before -> exists v, py_getitem j k' = Ok v) ->
  py_getitem j k = Raise e ->
  from_service_account_json env c s = (Raise e, s).
Proof.
  intros Hc Hfile Hload Hkeys Hbefore Hk.
  rewrite (from_file_unfold env c p s Hc).
  cbv beta iota zeta delta [bind read_text get_fs lift ret raise].
  rewrite Hfile. cbv beta iota. rewrite Hload. cbv beta iota.
  unfold credential_keys in Hkeys.
  destruct before as [|b1 [|b2 [|b3 [|b4 rest]]]];
    cbn [app] in Hkeys; injection Hkeys as <-; intros; subst;
    repeat match goal with
           | |- context [py_getitem j ?x] =>
               lazymatch goal with
               | H : py_getitem j x = _ |- _ => rewrite H; cbv beta iota
               | _ =>
                   let v := fresh "v" in
                   let Hv := fresh "Hv" in
                   destruct (Hbefore x) as (v & Hv);
                   [cbn [In]; auto 6 | rewrite Hv; cbv beta iota]
               end
           end; try reflexivity.
  destruct rest; discriminate.
Qed.

Lemma first_missing_credential_is_reported_witness :
  from_service_account_json sample_env (InPath (py "sa.json"))
    incomplete_credentials_state
  = (Raise (KeyError (py "private_key_id")), incomplete_credentials_state).
Proof.
  apply (first_missing_credential_is_reported sample_env (InPath (py "sa.json"))
           (py "sa.json") incomplete_credentials_state
           (dumps (fun _ => []) (py ", ") (py ": ")
                 (JObj [(py "client_email", JStr (py "svc@example.test"));
                        (py "private_key", JStr (py "PEM"));
                        (py "token_uri", JStr _TOKEN_URL)]))
           (JObj [(py "client_email", JStr (py "svc@example.test"));
                  (py "private_key", JStr (py "PEM"));
                  (py "token_uri", JStr _TOKEN_URL)])
           [py "client_email"; py "private_key"] (py "private_key_id")
           [py "token_uri"]).
  - exists (py "sa.json"). split; [now left | vm_compute; reflexivity].
  - vm_compute. reflexivity.
  - vm_compute. reflexivity.
  - reflexivity.
  - intros k' [<- | [<- | []]]; eexists; reflexivity.
  - reflexivity.
Defined.

(** X10.  Credentials that cannot be read raise, and leave everything as
    it was: [JSONDecodeError] for a file that does not hold JSON, [OSError]
    for a directory, and, when the file system holds nothing under the
    name, the error of the operating system for that name (this is what a
    misspelt JSON text ends in, being taken for a file name).  The name is
    the argument as [pathlib] writes it: the empty string stands for [.]. *)
Theorem unreadable_credentials_raise env c p s :
  names_file c p ->
  (forall text v, st_fs s !! p = Some (File text) -> json_loads text <> Ok v) ->
  from_service_account_json env c s
  = (Raise match st_fs s !! p with
           | None => env_open_error env p
           | Some Dir => OSError
           | Some (File _) => JSONDecodeError
           end, s).
Proof.
  intros Hc Hbad.
  rewrite (from_file_unfold env c p s Hc).
  cbv beta iota zeta delta [bind read_text get_fs lift ret raise].
  destruct (st_fs s !! p) as [[text|]|]; try reflexivity.
  destruct (json_loads text) as [v|e] eqn:E.
  - now destruct (Hbad text v eq_refl).
  - now rewrite (json_loads_raises _ _ E).
Qed.

Lemma unreadable_credentials_raise_witness :
  from_service_account_json sample_env (InStr (py "./sa.json/")) sample_state
  = (Raise FileNotFoundError, sample_state)
  /\ names_file (InStr []) (py ".").
Proof.
  split.
  - apply (unreadable_credentials_raise sample_env (InStr (py "./sa.json/"))
             (py "sa.json") sample_state).
    + exists (py "./sa.json/"). split; [|vm_compute; reflexivity].
      right. split; [reflexivity|]. exists JSONDecodeError.
      vm_compute. reflexivity.
    + intros text v H. vm_compute in H. discriminate H.
  - exists []. split; [|reflexivity].
    right. split; [reflexivity|]. exists JSONDecodeError. reflexivity.
Defined.

(** ** Bucket operations with a token at hand *)

Lemma authorized_request_fresh env self u full s ty acc :
  holds_fresh_token env s ty acc ->
  request_url env (JStr u) = Ok full ->
  _authorized_request env self u s
  = (Ok (mkRequest full (auth_headers ty acc) None None), tick s).
Proof.
  intros ((ea & Hea & Hlater) & Hty & Hacc) Hu.
  unfold _authorized_request.
  rewrite (bind_ok _ _ _ _ _ (request_token_fresh env _ s ea Hea Hlater)).
  cbv beta iota zeta delta [bind lift ret new_request].
  rewrite Hty. cbn [str_concat]. rewrite Hacc. cbn [str_concat].
  rewrite Hu. cbn [rbind].
  unfold auth_headers. now rewrite <- List.app_assoc.
Qed.

Lemma urlopen_decoded_run env req s :
  _urlopen_with_decoded_response env req s = (answer env s req, sent req s).
Proof.
  unfold _urlopen_with_decoded_response, bind, urlopen, lift, answer.
  destruct (env_http env (st_sent s) req); reflexivity.
Qed.

Lemma answer_tick env s req : answer env (tick s) req = answer env s req.
Proof. reflexivity. Qed.

Lemma bucket_get_fresh env self s ty acc path b :
  holds_fresh_token env s ty acc ->
  utf8_encode path = Some b ->
  let req :=
    mkRequest (object_url self (quote_from_bytes [] b) ++ py "?alt=media")
              (auth_headers ty acc) None None in
  bucket_get env self path s = (answer env s req, sent req (tick s)).
Proof.
  intros Htok Hb. cbv zeta.
  pose proof (quote_encodable path b [] Hb) as Hq.
  unfold object_url. rewrite <- !List.app_assoc.
  unfold bucket_get.
  rewrite (bind_ok (lift (quote path [])) _ s _ s)
    by (unfold lift; now rewrite Hq).
  rewrite (bind_ok _ _ _ _ _
             (authorized_request_fresh env self _ _ s ty acc Htok
                (media_url_accepted env self _))).
  unfold bind. rewrite urlopen_decoded_run, answer_tick.
  destruct (answer env s _); reflexivity.
Qed.

Lemma bucket_get_metadata_fresh env self s ty acc path b :
  holds_fresh_token env s ty acc ->
  utf8_encode path = Some b ->
  let req :=
    mkRequest (object_url self (quote_from_bytes [] b))
              (auth_headers ty acc) None None in
  bucket_get_metadata env self path s
  = (rbind (answer env s req) (json_loads_bytes env), sent req (tick s)).
Proof.
  intros Htok Hb. cbv zeta.
  pose proof (quote_encodable path b [] Hb) as Hq.
  unfold object_url, bucket_get_metadata.
  rewrite (bind_ok (lift (quote path [])) _ s _ s)
    by (unfold lift; now rewrite Hq).
  rewrite (bind_ok _ _ _ _ _
             (authorized_request_fresh env self _ _ s ty acc Htok
                (object_url_accepted env self b))).
  unfold bind. rewrite urlopen_decoded_run, answer_tick.
  destruct (answer env s _); reflexivity.
Qed.

Lemma bucket_delete_fresh env self s ty acc path b :
  holds_fresh_token env s ty acc ->
  utf8_encode path = Some b ->
  let req :=
    mkRequest (object_url self (quote_from_bytes [] b))
              (auth_headers ty acc) None (Some (py "DELETE")) in
  bucket_delete env self path s
  = (rbind (answer env s req) (fun _ => Ok tt), sent req (tick s)).
Proof.
  intros Htok Hb. cbv zeta.
  pose proof (quote_encodable path b [] Hb) as Hq.
  unfold object_url, bucket_delete.
  rewrite (bind_ok (lift (quote path [])) _ s _ s)
    by (unfold lift; now rewrite Hq).
  rewrite (bind_ok _ _ _ _ _
             (authorized_request_fresh env self _ _ s ty acc Htok
                (object_url_accepted env self b))).
  cbv beta iota zeta delta [req_url req_headers req_data].
  unfold bind. rewrite urlopen_decoded_run, answer_tick.
  destruct (answer env s _); reflexivity.
Qed.

Lemma bucket_put_fresh
        env self s ty acc path b data content_type :
  holds_fresh_token env s ty acc ->
  utf8_encode path = Some b ->
  exists qp,
    quote_plus path = Ok qp
    /\ Forall is_query_char qp
    /\ let req :=
         mkRequest
           (_UPLOAD_URL ++ py "/b/" ++ name self
            ++ py "/o?uploadType=media&name=" ++ qp)
           (auth_headers ty acc
            ++ [(py "Content-Type", content_type);
                (py "Content-Transfer-Encoding", py "binary")])
           (Some data) None in
       bucket_put env self path data content_type s
       = (rbind (answer env s req) (json_loads_bytes env), sent req (tick s)).
Proof.
  intros Htok Hb.
  destruct (quote_plus_encodable path b Hb) as (qp & Hqp).
  exists qp. split; [exact Hqp|]. split; [exact (quote_plus_chars _ _ Hqp)|].
  cbv zeta. unfold bucket_put.
  assert (Hq : urlencode [(py "uploadType", py "media"); (py "name", path)]
               = Ok (py "uploadType=media&name=" ++ qp)).
  { rewrite urlencode_upload, Hqp. reflexivity. }
  rewrite (bind_ok (lift (urlencode _)) _ s _ s)
    by (unfold lift; now rewrite Hq).
  rewrite (bind_ok _ _ _ _ _
             (authorized_request_fresh env self _ _ s ty acc Htok
                (put_url_accepted env self _ _ Hqp))).
  cbv beta iota zeta delta [req_url req_headers req_data req_method].
  change (add_header
            (add_header (auth_headers ty acc) (py "Content-Type") content_type)
            (py "Content-Transfer-Encoding") (py "binary"))
    with (auth_headers ty acc
          ++ [(py "Content-Type", content_type);
              (py "Content-Transfer-Encoding", py "binary")]).
  change (py "/o?uploadType=media&name=" ++ qp)
    with (py "/o?" ++ py "uploadType=media&name=" ++ qp).
  unfold bind. rewrite urlopen_decoded_run, answer_tick.
  destruct (answer env s _); reflexivity.
Qed.

Lemma bucket_list_fresh env self s ty acc prefix :
  holds_fresh_token env s ty acc ->
  let base := _STORAGE_URL ++ py "/b/" ++ name self ++ py "/o" in
  let run u :=
    let req := mkRequest u (auth_headers ty acc) None None in
    (rbind (answer env s req) (json_loads_bytes env), sent req (tick s)) in
  bucket_list env self prefix s =
    match prefix with
    | Some (c :: r) =>
        match quote_plus (c :: r) with
        | Ok qp => run (base ++ py "?prefix=" ++ qp)
        | Raise e => (Raise e, s)
        end
    | _ => run base
    end.
Proof.
  intros Htok. cbv zeta.
  assert (Hrun : forall u,
             request_url env (JStr u) = Ok u ->
             (request <- _authorized_request env self u ;;
              response_data <- _urlopen_with_decoded_response env request ;;
              lift (json_loads_bytes env response_data)) s
             = (rbind (answer env s (mkRequest u (auth_headers ty acc) None None))
                      (json_loads_bytes env),
                sent (mkRequest u (auth_headers ty acc) None None) (tick s))).
  { intros u Hu.
    rewrite (bind_ok _ _ _ _ _
               (authorized_request_fresh env self u u s ty acc Htok Hu)).
    unfold bind. rewrite urlopen_decoded_run, answer_tick.
    destruct (answer env s _); reflexivity. }
  unfold bucket_list.
  destruct prefix as [[|c r]|].
  - rewrite (bind_ok (ret _) _ s _ s) by reflexivity.
    rewrite Hrun by apply list_url_accepted. reflexivity.
  - rewrite urlencode_prefix.
    destruct (quote_plus (c :: r)) as [qp|e] eqn:Hqp; cbn [rbind].
    + rewrite (bind_ok _ _ s ((_STORAGE_URL ++ py "/b/" ++ name self ++ py "/o")
                              ++ py "?" ++ py "prefix=" ++ qp) s)
        by reflexivity.
      rewrite Hrun by exact (prefix_url_accepted env self _ _ Hqp).
      reflexivity.
    + reflexivity.
  - rewrite (bind_ok (ret _) _ s _ s) by reflexivity.
    rewrite Hrun by apply list_url_accepted. reflexivity.
Qed.

Lemma sample_holds_fresh_token :
  holds_fresh_token sample_env fresh_state (py "Bearer") (py "ya29.old").
Proof.
  split; [|split; reflexivity].
  exists (JInt 5000). split; [reflexivity|]. vm_compute. reflexivity.
Qed.

(** X11.  With a fresh token in memory, [get], [get_metadata] and [delete]
    each send exactly one request and nothing else happens but a clock
    reading.  The three requests go to the same object URL ([get] adds
    [?alt=media]) with the two authorization headers and no body; only
    [delete] sets a method.  [get] returns the response body as bytes,
    [get_metadata] parses it as JSON, [delete] discards it. *)
Theorem object_operations_with_fresh_token env self s ty acc path b :
  holds_fresh_token env s ty acc ->
  utf8_encode path = Some b ->
  let u := object_url self (quote_from_bytes [] b) in
  let h := auth_headers ty acc in
  let get_req := mkRequest (u ++ py "?alt=media") h None None in
  let meta_req := mkRequest u h None None in
  let del_req := mkRequest u h None (Some (py "DELETE")) in
  bucket_get env self path s
  = (answer env s get_req, sent get_req (tick s))
  /\ bucket_get_metadata env self path s
     = (rbind (answer env s meta_req) (json_loads_bytes env),
        sent meta_req (tick s))
  /\ bucket_delete env self path s
     = (rbind (answer env s del_req) (fun _ => Ok tt), sent del_req (tick s)).
Proof.
  intros Htok Hb. cbv zeta. split; [|split].
  - exact (bucket_get_fresh env self s ty acc path b Htok Hb).
  - exact (bucket_get_metadata_fresh env self s ty acc path b Htok Hb).
  - exact (bucket_delete_fresh env self s ty acc path b Htok Hb).
Qed.

Lemma object_operations_with_fresh_token_witness :
  fst (bucket_get sample_env sample_bucket (py "dir/f 1") fresh_state)
  = Ok sample_response_text
  /\ fst (bucket_delete sample_env sample_bucket (py "dir/f 1") fresh_state)
     = Ok tt.
Proof.
  destruct (object_operations_with_fresh_token sample_env sample_bucket
              fresh_state (py "Bearer") (py "ya29.old") (py "dir/f 1")
              (py "dir/f 1") sample_holds_fresh_token eq_refl)
    as (Hget & _ & Hdel).
  rewrite Hget, Hdel. split; reflexivity.
Defined.

(** X12.  With a fresh token in memory, [put] sends one request carrying
    the data, with the headers [Content-Type] and
    [Content-Transfer-Encoding: binary] after the authorization headers.  Its
    query is [uploadType=media&name=] followed by the object name encoded
    with [quote_plus], which consists of unreserved characters, [%] and [+]
    only: the name cannot add a parameter to the query. *)
Theorem put_sends_data_with_two_query_parameters
        env self s ty acc path b data content_type :
  holds_fresh_token env s ty acc ->
  utf8_encode path = Some b ->
  exists qp,
    quote_plus path = Ok qp
    /\ Forall is_query_char qp
    /\ let req :=
         mkRequest
           (_UPLOAD_URL ++ py "/b/" ++ name self
            ++ py "/o?uploadType=media&name=" ++ qp)
           (auth_headers ty acc
            ++ [(py "Content-Type", content_type);
                (py "Content-Transfer-Encoding", py "binary")])
           (Some data) None in
       bucket_put env self path data content_type s
       = (rbind (answer env s req) (json_loads_bytes env), sent req (tick s)).
Proof. exact (bucket_put_fresh env self s ty acc path b data content_type). Qed.

Lemma put_sends_data_with_two_query_parameters_witness :
  exists qp,
    quote_plus (py "a&b=c d") = Ok qp
    /\ Forall is_query_char qp
    /\ st_log (snd (bucket_put sample_env sample_bucket (py "a&b=c d") [1; 2]
                      (py "text/plain") fresh_state))
       = [EvHttp
            (mkRequest
               (_UPLOAD_URL ++ py "/b/bkt/o?uploadType=media&name=" ++ qp)
               (auth_headers (py "Bearer") (py "ya29.old")
                ++ [(py "Content-Type", py "text/plain");
                    (py "Content-Transfer-Encoding", py "binary")])
               (Some [1; 2]) None)].
Proof.
  destruct (put_sends_data_with_two_query_parameters sample_env sample_bucket
              fresh_state (py "Bearer") (py "ya29.old") (py "a&b=c d")
              (py "a&b=c d") [1; 2] (py "text/plain")
              sample_holds_fresh_token eq_refl)
    as (qp & Hqp & Hchars & Hrun).
  exists qp. split; [exact Hqp|]. split; [exact Hchars|].
  cbv zeta in Hrun. rewrite Hrun. reflexivity.
Defined.

(** X13.  With a fresh token in memory, [list] sends one request to the
    object collection of the bucket.  A query [?prefix=...] is added only
    for a non-empty prefix: the empty string lists the whole bucket, as no
    prefix does.  A prefix that cannot be encoded raises before anything is
    done. *)
Theorem list_adds_prefix_only_when_non_empty env self s ty acc prefix :
  holds_fresh_token env s ty acc ->
  let base := _STORAGE_URL ++ py "/b/" ++ name self ++ py "/o" in
  let run u :=
    let req := mkRequest u (auth_headers ty acc) None None in
    (rbind (answer env s req) (json_loads_bytes env), sent req (tick s)) in
  bucket_list env self prefix s =
    match prefix with
    | Some (c :: r) =>
        match quote_plus (c :: r) with
        | Ok qp => run (base ++ py "?prefix=" ++ qp)
        | Raise e => (Raise e, s)
        end
    | _ => run base
    end.
Proof. exact (bucket_list_fresh env self s ty acc prefix). Qed.

Lemma list_adds_prefix_only_when_non_empty_witness :
  bucket_list sample_env sample_bucket (Some []) fresh_state
  = bucket_list sample_env sample_bucket None fresh_state
  /\ List.map req_url
       (http_requests
          (st_log (snd (bucket_list sample_env sample_bucket
                          (Some (py "dir/a b")) fresh_state))))
     = [py "https://storage.googleapis.com/storage/v1/b/bkt/o?prefix=dir%2Fa+b"].
Proof.
  pose proof (list_adds_prefix_only_when_non_empty sample_env sample_bucket
                fresh_state (py "Bearer") (py "ya29.old"))
    as H.
  cbv zeta in H. split.
  - rewrite (H (Some []) sample_holds_fresh_token).
    rewrite (H None sample_holds_fresh_token). reflexivity.
  - rewrite (H (Some (py "dir/a b")) sample_holds_fresh_token).
    vm_compute. reflexivity.
Defined.

(** X14.  When the server answers an operation with an error, each of the
    five bucket operations raises that very error to its caller, after
    exactly one request; the token stays in memory. *)
Theorem http_errors_reach_the_caller
        env self s ty acc e path b data content_type :
  holds_fresh_token env s ty acc ->
  utf8_encode path = Some b ->
  (forall req, env_http env (st_sent s) req = HttpFail e) ->
  (exists req, bucket_list env self None s = (Raise e, sent req (tick s)))
  /\ (exists req,
         bucket_list env self (Some path) s = (Raise e, sent req (tick s)))
  /\ (exists req,
         bucket_put env self path data content_type s
         = (Raise e, sent req (tick s)))
  /\ (exists req, bucket_get env self path s = (Raise e, sent req (tick s)))
  /\ (exists req,
         bucket_get_metadata env self path s = (Raise e, sent req (tick s)))
  /\ (exists req, bucket_delete env self path s = (Raise e, sent req (tick s))).
Proof.
  intros Htok Hb Hfail.
  assert (Hans : forall req, answer env s req = Raise e)
    by (intros req; unfold answer; now rewrite Hfail).
  pose proof (bucket_list_fresh env self s ty acc) as Hlist. cbv zeta in Hlist.
  repeat split.
  - eexists. rewrite (Hlist None Htok), Hans. reflexivity.
  - rewrite (Hlist (Some path) Htok).
    destruct path as [|c r]; [eexists; rewrite Hans; reflexivity|].
    destruct (quote_plus_encodable _ b Hb) as (qp & ->).
    eexists. rewrite Hans. reflexivity.
  - destruct (bucket_put_fresh env self s ty acc path b data content_type Htok Hb)
      as (qp & _ & _ & Hrun).
    cbv zeta in Hrun. eexists. rewrite Hrun, Hans. reflexivity.
  - eexists. rewrite (bucket_get_fresh env self s ty acc path b Htok Hb), Hans.
    reflexivity.
  - eexists.
    rewrite (bucket_get_metadata_fresh env self s ty acc path b Htok Hb), Hans.
    reflexivity.
  - eexists. rewrite (bucket_delete_fresh env self s ty acc path b Htok Hb), Hans.
    reflexivity.
Qed.

Lemma http_errors_reach_the_caller_witness :
  exists req,
    bucket_get unavailable_env sample_bucket (py "missing") fresh_state
    = (Raise (HTTPError 503 (py "busy")), sent req (tick fresh_state)).
Proof.
  destruct (http_errors_reach_the_caller unavailable_env sample_bucket
              fresh_state (py "Bearer") (py "ya29.old")
              (HTTPError 503 (py "busy")) (py "missing") (py "missing")
              [] (py "text/plain"))
    as (_ & _ & _ & Hget & _).
  - split; [|split; reflexivity].
    exists (JInt 5000). split; [reflexivity|]. vm_compute. reflexivity.
  - reflexivity.
  - reflexivity.
  - exact Hget.
Defined.

Lemma request_token_has_expiry env self s tok s' :
  request_token env self s = (Ok tok, s') ->
  st_cached_token s' = tok
  /\ exists ea, py_getitem tok (py "expires_at") = Ok ea.
Proof.
  intros H.
  assert (Hc : st_cached_token s' = tok).
  { apply request_token_fs in H. now destruct H as [-> _]. }
  split; [exact Hc|].
  destruct (null_or_not (st_cached_token s)) as [Hnull|Hnn].
  - apply (request_token_absent_ok env self s tok s' Hnull) in H
      as (resp & s2 & ei & v & _ & _ & _ & Hset & _).
    exists v. exact (setitem_getitem _ _ _ _ Hset).
  - rewrite (request_token_present env self s Hnn) in H.
    destruct (py_getitem (st_cached_token s) (py "expires_at")) as [ea|e]
      eqn:Hget; [|discriminate].
    destruct (pyfloat_ge _ ea) as [[|]|e]; [| |discriminate].
    + apply (request_token_absent_ok env self (with_cached JNull (tick s))
               tok s' eq_refl) in H
        as (resp & s2 & ei & v & _ & _ & _ & Hset & _).
      exists v. exact (setitem_getitem _ _ _ _ Hset).
    + injection H as <- _. eauto.
Qed.

(** X15.  Once an authorized request has been built, the token it used is
    in memory with an expiry instant; as long as that instant is greater
    than the float sum [time.time() + 3], every further authorized request
    for a URL that [Request] accepts is built from the same token, with the
    same headers, after a mere clock reading. *)
Theorem operations_share_one_token env self u1 s req1 s1 :
  _authorized_request env self u1 s = (Ok req1, s1) ->
  exists ea,
    py_getitem (st_cached_token s1) (py "expires_at") = Ok ea
    /\ forall u2 full s2,
         st_cached_token s2 = st_cached_token s1 ->
         later_than_float ea (expiry_horizon env s2) ->
         request_url env (JStr u2) = Ok full ->
         _authorized_request env self u2 s2
         = (Ok (mkRequest full (req_headers req1) None None), tick s2).
Proof.
  intros H.
  apply authorized_request_inv in H
    as (tok & ty & acc & full1 & Htok & Hty & Hacc & _ & ->).
  destruct (request_token_has_expiry _ _ _ _ _ Htok) as (Hc & ea & Hea).
  exists ea. rewrite Hc. split; [exact Hea|].
  intros u2 full s2 Hc2 Hlater Hu2. cbn [req_headers].
  apply authorized_request_fresh; [|exact Hu2].
  rewrite <- Hc2 in Hea, Hty, Hacc.
  split; [eauto | split; assumption].
Qed.

Lemma operations_share_one_token_witness :
  exists req1 s1,
    _authorized_request sample_env sample_bucket (py "https://a.test/1")
      fresh_state = (Ok req1, s1)
    /\ _authorized_request sample_env sample_bucket (py " https://a.test/2#")
         (sent req1 s1)
       = (Ok (mkRequest (py "https://a.test/2") (req_headers req1) None None),
          tick (sent req1 s1)).
Proof.
  pose proof (authorized_request_fresh sample_env sample_bucket
                (py "https://a.test/1") (py "https://a.test/1") fresh_state _ _
                sample_holds_fresh_token eq_refl) as E.
  eexists. eexists. split; [exact E|].
  destruct (operations_share_one_token sample_env sample_bucket _ _ _ _ E)
    as (ea & Hea & Hnext).
  apply Hnext; [reflexivity| |vm_compute; reflexivity].
  injection Hea as <-. vm_compute. reflexivity.
Defined.

(** ** A key that cannot be written *)

Lemma create_jwt_without_text_key env self s :
  (forall k, key self <> JStr k) ->
  float_repr_ascii env ->
  _create_jwt env self s = (Raise TypeError, tick s).
Proof.
  intros Hkey Hfr.
  unfold _create_jwt, bind, time_time, lift.
  rewrite !json_to_b64_ok by exact Hfr.
  destruct (key self) as [| | | | k | |]; try reflexivity.
  now destruct (Hkey k).
Qed.

(** X16.  A private key that is not text (the credentials file gave a
    number or [null], say) makes every refresh raise [TypeError] when the
    key is written out for the signer: the signer is not run, nothing is
    sent, the file system is untouched and no token is held. *)
Theorem key_that_is_not_text_fails_before_signing env self s :
  (forall k, key self <> JStr k) ->
  float_repr_ascii env ->
  (st_cached_token s = JNull
   \/ (exists ea,
         py_getitem (st_cached_token s) (py "expires_at") = Ok ea
         /\ not_later_than_float ea (expiry_horizon env s))
   \/ (exists z,
         py_getitem (st_cached_token s) (py "expires_at") = Ok (JInt z)
         /\ Z.abs z < 2 ^ 53
         /\ (inject_Z z <= env_clock env (st_ticks s) + 3)%Q)) ->
  exists s',
    request_token env self s = (Raise TypeError, s')
    /\ st_log s' = st_log s
    /\ st_sent s' = st_sent s
    /\ st_fs s' = st_fs s
    /\ st_cached_token s' = JNull.
Proof.
  intros Hkey Hfr Hneed.
  destruct (needs_refresh_state env self s Hneed)
    as (s0 & Hnull & -> & Hsent & Hfs & Hlog).
  exists (tick s0).
  rewrite (request_token_absent_unfold env self s0 Hnull).
  unfold _request_new_token, bind.
  rewrite (create_jwt_without_text_key env self s0 Hkey Hfr).
  destruct s0; cbn in *. auto.
Qed.

Lemma key_that_is_not_text_fails_before_signing_witness :
  exists s',
    request_token sample_env keyless_provider sample_state
    = (Raise TypeError, s')
    /\ st_log s' = st_log sample_state
    /\ st_sent s' = st_sent sample_state
    /\ st_fs s' = st_fs sample_state
    /\ st_cached_token s' = JNull.
Proof.
  apply (key_that_is_not_text_fails_before_signing sample_env keyless_provider
           sample_state).
  - intros k. discriminate.
  - intros q. apply ascii_of_forallb. reflexivity.
  - left. reflexivity.
Defined.

(** *** Url-safe base64 loses nothing *)

Lemma forall_bytes (P : Z -> bool) :
  forallb P (List.map Z.of_nat (seq 0 256)) = true ->
  forall x, is_byte x -> P x = true.
Proof.
  intros H x Hx. rewrite forallb_forall in H. apply H.
  apply in_map_iff. exists (Z.to_nat x). unfold is_byte in Hx.
  split; [lia|]. apply in_seq. lia.
Qed.

Lemma forall_byte_pairs (P : Z -> Z -> bool) :
  forallb (fun x => forallb (P x) (List.map Z.of_nat (seq 0 256)))
          (List.map Z.of_nat (seq 0 256)) = true ->
  forall x y, is_byte x -> is_byte y -> P x y = true.
Proof.
  intros H x y Hx Hy.
  apply (forall_bytes (P x)); [|exact Hy].
  exact (forall_bytes _ H x Hx).
Qed.

Lemma b64_char_inj i j :
  0 <= i < 64 -> 0 <= j < 64 -> b64_char i = b64_char j -> i = j.
Proof. intros Hi Hj. unfold b64_char. case_compare; lia. Qed.

Lemma b64_char_not_pad i : 0 <= i < 64 -> b64_char i <> b64_pad.
Proof. intros Hi. unfold b64_char, b64_pad. case_compare; lia. Qed.

Lemma sextet_inj v w : sextet v = sextet w -> Z.land v 63 = Z.land w 63.
Proof. apply b64_char_inj; apply land_63_range. Qed.

Lemma sextet_not_pad v : sextet v <> b64_pad.
Proof. apply b64_char_not_pad, land_63_range. Qed.

Lemma sextet_first x : is_byte x -> Z.land (Z.shiftr x 2) 63 = x / 4.
Proof.
  intros Hx. apply Z.eqb_eq.
  exact (forall_bytes (fun x => Z.land (Z.shiftr x 2) 63 =? x / 4)
           ltac:(vm_compute; reflexivity) x Hx).
Qed.

Lemma sextet_second_last x :
  is_byte x -> Z.land (Z.shiftl (Z.land x 3) 4) 63 = (x mod 4) * 16.
Proof.
  intros Hx. apply Z.eqb_eq.
  exact (forall_bytes
           (fun x => Z.land (Z.shiftl (Z.land x 3) 4) 63 =? (x mod 4) * 16)
           ltac:(vm_compute; reflexivity) x Hx).
Qed.

Lemma sextet_second x y :
  is_byte x -> is_byte y ->
  Z.land (Z.lor (Z.shiftl (Z.land x 3) 4) (Z.shiftr y 4)) 63
  = (x mod 4) * 16 + y / 16.
Proof.
  intros Hx Hy. apply Z.eqb_eq.
  exact (forall_byte_pairs
           (fun x y =>
              Z.land (Z.lor (Z.shiftl (Z.land x 3) 4) (Z.shiftr y 4)) 63
              =? (x mod 4) * 16 + y / 16)
           ltac:(vm_compute; reflexivity) x y Hx Hy).
Qed.

Lemma sextet_third_last y :
  is_byte y -> Z.land (Z.shiftl (Z.land y 15) 2) 63 = (y mod 16) * 4.
Proof.
  intros Hy. apply Z.eqb_eq.
  exact (forall_bytes
           (fun y => Z.land (Z.shiftl (Z.land y 15) 2) 63 =? (y mod 16) * 4)
           ltac:(vm_compute; reflexivity) y Hy).
Qed.

Lemma sextet_third y z :
  is_byte y -> is_byte z ->
  Z.land (Z.lor (Z.shiftl (Z.land y 15) 2) (Z.shiftr z 6)) 63
  = (y mod 16) * 4 + z / 64.
Proof.
  intros Hy Hz. apply Z.eqb_eq.
  exact (forall_byte_pairs
           (fun y z =>
              Z.land (Z.lor (Z.shiftl (Z.land y 15) 2) (Z.shiftr z 6)) 63
              =? (y mod 16) * 4 + z / 64)
           ltac:(vm_compute; reflexivity) y z Hy Hz).
Qed.

Lemma sextet_fourth z : is_byte z -> Z.land z 63 = z mod 64.
Proof.
  intros Hz. apply Z.eqb_eq.
  exact (forall_bytes (fun z => Z.land z 63 =? z mod 64)
           ltac:(vm_compute; reflexivity) z Hz).
Qed.

Ltac sextets :=
  repeat match goal with
         | H : sextet _ = b64_pad |- _ => now destruct (sextet_not_pad _ H)
         | H : b64_pad = sextet _ |- _ =>
             now destruct (sextet_not_pad _ (eq_sym H))
         | H : sextet _ = sextet _ |- _ => apply sextet_inj in H
         end;
  rewrite ?sextet_first, ?sextet_second_last, ?sextet_second,
    ?sextet_third_last, ?sextet_third, ?sextet_fourth in * by assumption.

Lemma urlsafe_b64encode_inj_upto n : forall a b,
  (List.length a <= n)%nat ->
  Forall is_byte a -> Forall is_byte b ->
  urlsafe_b64encode a = urlsafe_b64encode b -> a = b.
Proof.
  induction n as [|n IH]; intros a b Hn Ha Hb H.
  - destruct a; [|simpl in Hn; lia].
    destruct b as [|x [|y [|z r]]]; [reflexivity|discriminate..].
  - destruct a as [|x [|y [|z r]]]; destruct b as [|x' [|y' [|z' r']]];
      cbn [urlsafe_b64encode] in H; try discriminate H; try reflexivity;
      repeat match goal with
             | H : Forall _ (_ :: _) |- _ =>
                 apply List.Forall_cons_iff in H; destruct H
             end;
      injection H; intros; sextets.
    + f_equal. unfold is_byte in *. Z.div_mod_to_equations. lia.
    + assert (x = x' /\ y = y') as [-> ->]
        by (unfold is_byte in *; Z.div_mod_to_equations; lia).
      reflexivity.
    + assert (x = x' /\ y = y' /\ z = z') as (-> & -> & ->)
        by (unfold is_byte in *; Z.div_mod_to_equations; lia).
      do 3 f_equal. apply IH; auto. cbn [List.length] in Hn. lia.
Qed.

(** X17.  Url-safe base64 as it is computed here is injective on octet
    strings: two different byte strings never have the same encoding, the
    padding included.  A part of an assertion therefore determines the
    bytes it stands for. *)
Theorem urlsafe_b64encode_injective a b :
  Forall is_byte a -> Forall is_byte b ->
  urlsafe_b64encode a = urlsafe_b64encode b -> a = b.
Proof. exact (urlsafe_b64encode_inj_upto (List.length a) a b (le_n _)). Qed.

Lemma urlsafe_b64encode_injective_witness :
  [104; 105] = [104; 105].
Proof.
  apply urlsafe_b64encode_injective; [| |reflexivity];
    repeat (apply List.Forall_cons; [unfold is_byte; lia|]); constructor.
Defined.

(** *** Object names and URLs *)

Lemma forall_below (n : nat) (P : Z -> bool) :
  forallb P (List.map Z.of_nat (seq 0 n)) = true ->
  forall x, 0 <= x < Z.of_nat n -> P x = true.
Proof.
  intros H x Hx. rewrite forallb_forall in H. apply H.
  apply in_map_iff. exists (Z.to_nat x).
  split; [lia|]. apply in_seq. lia.
Qed.

Lemma lor_continuation m : 0 <= m < 64 -> Z.lor 0x80 m = 0x80 + m.
Proof.
  intros H. apply Z.eqb_eq.
  exact (forall_below 64 (fun m => Z.lor 0x80 m =? 0x80 + m)
           ltac:(vm_compute; reflexivity) m H).
Qed.

Lemma lor_lead2 h : 0 <= h < 32 -> Z.lor 0xC0 h = 0xC0 + h.
Proof.
  intros H. apply Z.eqb_eq.
  exact (forall_below 32 (fun h => Z.lor 0xC0 h =? 0xC0 + h)
           ltac:(vm_compute; reflexivity) h H).
Qed.

Lemma lor_lead3 h : 0 <= h < 16 -> Z.lor 0xE0 h = 0xE0 + h.
Proof.
  intros H. apply Z.eqb_eq.
  exact (forall_below 16 (fun h => Z.lor 0xE0 h =? 0xE0 + h)
           ltac:(vm_compute; reflexivity) h H).
Qed.

Lemma lor_lead4 h : 0 <= h < 8 -> Z.lor 0xF0 h = 0xF0 + h.
Proof.
  intros H. apply Z.eqb_eq.
  exact (forall_below 8 (fun h => Z.lor 0xF0 h =? 0xF0 + h)
           ltac:(vm_compute; reflexivity) h H).
Qed.

Lemma land_low6 v : Z.land v 0x3F = v mod 64.
Proof. exact (Z.land_ones v 6 ltac:(lia)). Qed.

Lemma continuation_byte v : Z.lor 0x80 (Z.land v 0x3F) = 0x80 + v mod 64.
Proof.
  rewrite land_low6. apply lor_continuation. apply Z.mod_pos_bound. lia.
Qed.

(** The bytes of one code point. *)
Lemma utf8_char_cases c b :
  utf8_char c = Some b ->
  (0 <= c < 0x80 /\ b = [c])
  \/ (0x80 <= c < 0x800 /\ b = [0xC0 + c / 64; 0x80 + c mod 64])
  \/ (0x800 <= c < 0x10000
      /\ b = [0xE0 + c / 4096; 0x80 + (c / 64) mod 64; 0x80 + c mod 64])
  \/ (0x10000 <= c < 0x110000
      /\ b = [0xF0 + c / 262144; 0x80 + (c / 4096) mod 64;
              0x80 + (c / 64) mod 64; 0x80 + c mod 64]).
Proof.
  unfold utf8_char.
  rewrite !continuation_byte.
  rewrite !Z.shiftr_div_pow2 by lia.
  change (2 ^ 6) with 64. change (2 ^ 12) with 4096. change (2 ^ 18) with 262144.
  destruct (Z.ltb_spec c 0); [discriminate|].
  destruct (Z.ltb_spec c 128); [intros [= <-]; left; split; [lia|reflexivity]|].
  destruct (Z.ltb_spec c 2048).
  { intros [= <-]. right. left. split; [lia|].
    rewrite lor_lead2; [reflexivity|]. Z.div_mod_to_equations. lia. }
  destruct ((55296 <=? c) && (c <=? 57343)); [discriminate|].
  destruct (Z.ltb_spec c 65536).
  { intros [= <-]. right. right. left. split; [lia|].
    rewrite lor_lead3; [reflexivity|]. Z.div_mod_to_equations. lia. }
  destruct (Z.ltb_spec c 1114112); [|discriminate].
  intros [= <-]. right. right. right. split; [lia|].
  rewrite lor_lead4; [reflexivity|]. Z.div_mod_to_equations. lia.
Qed.

Lemma utf8_char_bytes c b : utf8_char c = Some b -> Forall is_byte b.
Proof.
  intros H.
  destruct (utf8_char_cases c b H) as [[Hc ->]|[[Hc ->]|[[Hc ->]|[Hc ->]]]];
    repeat (apply List.Forall_cons;
            [unfold is_byte; Z.div_mod_to_equations; lia|]);
    constructor.
Qed.

Lemma utf8_encode_bytes s : forall b, utf8_encode s = Some b -> Forall is_byte b.
Proof.
  induction s as [|c r IH]; cbn [utf8_encode]; intros b.
  - intros [= <-]. constructor.
  - destruct (utf8_char c) as [b1|] eqn:E1; [|discriminate].
    destruct (utf8_encode r) as [bs|]; [|discriminate].
    intros [= <-]. apply List.Forall_app.
    split; [exact (utf8_char_bytes c b1 E1) | now apply IH].
Qed.

(** UTF-8 is a prefix code. *)
Lemma utf8_char_prefix c c' b b' r r' :
  utf8_char c = Some b -> utf8_char c' = Some b' ->
  b ++ r = b' ++ r' -> c = c' /\ r = r'.
Proof.
  intros H H' E.
  destruct (utf8_char_cases c b H) as [[Hc ->]|[[Hc ->]|[[Hc ->]|[Hc ->]]]];
    destruct (utf8_char_cases c' b' H')
      as [[Hc' ->]|[[Hc' ->]|[[Hc' ->]|[Hc' ->]]]];
    cbn [List.app] in E; injection E; intros;
    (split; [Z.div_mod_to_equations; lia | try assumption]);
    exfalso; Z.div_mod_to_equations; lia.
Qed.

Lemma utf8_encode_inj s : forall s' b,
  utf8_encode s = Some b -> utf8_encode s' = Some b -> s = s'.
Proof.
  induction s as [|c r IH]; intros [|c' r'] b; cbn [utf8_encode].
  - reflexivity.
  - intros [= <-].
    destruct (utf8_char c') as [b1|] eqn:E1; [|discriminate].
    destruct (utf8_encode r') as [bs|]; [|discriminate].
    intros [= E].
    destruct (utf8_char_cases c' b1 E1) as [[_ ->]|[[_ ->]|[[_ ->]|[_ ->]]]];
      discriminate E.
  - destruct (utf8_char c) as [b1|] eqn:E1; [|discriminate].
    destruct (utf8_encode r) as [bs|]; [|discriminate].
    intros [= <-] [= E].
    destruct (utf8_char_cases c b1 E1) as [[_ ->]|[[_ ->]|[[_ ->]|[_ ->]]]];
      discriminate E.
  - destruct (utf8_char c) as [b1|] eqn:E1; [|discriminate].
    destruct (utf8_encode r) as [bs|] eqn:E2; [|discriminate].
    destruct (utf8_char c') as [b1'|] eqn:E1'; [|discriminate].
    destruct (utf8_encode r') as [bs'|] eqn:E2'; [|discriminate].
    intros [= <-] [= E].
    destruct (utf8_char_prefix c c' b1 b1' bs bs' E1 E1' (eq_sym E)) as [-> ->].
    f_equal. exact (IH r' _ eq_refl E2').
Qed.

Lemma hex_upper_inj d d' :
  0 <= d < 16 -> 0 <= d' < 16 -> hex_upper d = hex_upper d' -> d = d'.
Proof. intros Hd Hd'. unfold hex_upper. case_compare; lia. Qed.

Lemma high_nibble x : is_byte x -> Z.land (Z.shiftr x 4) 15 = x / 16.
Proof.
  intros Hx. apply Z.eqb_eq.
  exact (forall_bytes (fun x => Z.land (Z.shiftr x 4) 15 =? x / 16)
           ltac:(vm_compute; reflexivity) x Hx).
Qed.

Lemma low_nibble x : Z.land x 15 = x mod 16.
Proof. exact (Z.land_ones x 4 ltac:(lia)). Qed.

Lemma percent_is_not_safe : always_safe 37 = false.
Proof. reflexivity. Qed.

(** Percent-encoding is a prefix code on octets. *)
Lemma quote_byte_prefix x x' r r' :
  is_byte x -> is_byte x' ->
  quote_byte [] x ++ r = quote_byte [] x' ++ r' -> x = x' /\ r = r'.
Proof.
  intros Hx Hx'. unfold quote_byte. cbn [mem_Z existsb]. rewrite !orb_false_r.
  destruct (always_safe x) eqn:E; destruct (always_safe x') eqn:E';
    cbn [List.app]; intros H; injection H; intros; subst.
  - split; reflexivity.
  - rewrite percent_is_not_safe in E. discriminate E.
  - rewrite percent_is_not_safe in E'. discriminate E'.
  - split; [|reflexivity].
    repeat match goal with
           | H : hex_upper _ = hex_upper _ |- _ =>
               apply hex_upper_inj in H; [|apply land_15_range..]
           end.
    rewrite !high_nibble in * by assumption. rewrite !low_nibble in *.
    unfold is_byte in *. Z.div_mod_to_equations. lia.
Qed.

Lemma quote_from_bytes_inj a : forall b,
  Forall is_byte a -> Forall is_byte b ->
  quote_from_bytes [] a = quote_from_bytes [] b -> a = b.
Proof.
  unfold quote_from_bytes.
  induction a as [|x r IH]; intros [|x' r'] Ha Hb; cbn [List.map List.concat].
  - reflexivity.
  - unfold quote_byte. destruct (_ || _); discriminate.
  - unfold quote_byte. destruct (_ || _); discriminate.
  - apply List.Forall_cons_iff in Ha as [Hx Hr].
    apply List.Forall_cons_iff in Hb as [Hx' Hr'].
    intros E. apply quote_byte_prefix in E as [-> E]; [|assumption..].
    f_equal. now apply IH.
Qed.

Lemma quote_inj p1 p2 q :
  quote p1 [] = Ok q -> quote p2 [] = Ok q -> p1 = p2.
Proof.
  unfold quote, str_encode.
  destruct (utf8_encode p1) as [b1|] eqn:E1; [|discriminate].
  destruct (utf8_encode p2) as [b2|] eqn:E2; [|discriminate].
  cbn [rbind]. intros [= <-] [= E].
  apply quote_from_bytes_inj in E;
    [|exact (utf8_encode_bytes _ _ E2) | exact (utf8_encode_bytes _ _ E1)].
  subst b2. exact (utf8_encode_inj _ _ _ E1 E2).
Qed.

(** X18.  Two object names that lead to the same object URL of a bucket are
    the same name: UTF-8 followed by percent-encoding loses nothing, so
    [get], [get_metadata] and [delete] never reach one object under the
    name of another. *)
Theorem distinct_objects_have_distinct_urls self p1 p2 q1 q2 :
  quote p1 [] = Ok q1 ->
  quote p2 [] = Ok q2 ->
  object_url self q1 = object_url self q2 ->
  p1 = p2.
Proof.
  intros H1 H2 E. unfold object_url in E.
  repeat apply app_inv_head in E. subst q2.
  exact (quote_inj p1 p2 q1 H1 H2).
Qed.

Lemma distinct_objects_have_distinct_urls_witness :
  py "dir/f 1" = py "dir/f 1".
Proof.
  apply (distinct_objects_have_distinct_urls sample_bucket (py "dir/f 1")
           (py "dir/f 1") (py "dir%2Ff%201") (py "dir%2Ff%201"));
    reflexivity.
Defined.

(** ** The cache file round trip *)

Lemma lor_high_surrogate h : 0 <= h < 1024 -> Z.lor 0xD800 h = 0xD800 + h.
Proof.
  intros H. apply Z.eqb_eq.
  exact (forall_below 1024 (fun h => Z.lor 0xD800 h =? 0xD800 + h)
           ltac:(vm_compute; reflexivity) h H).
Qed.

Lemma lor_low_surrogate l : 0 <= l < 1024 -> Z.lor 0xDC00 l = 0xDC00 + l.
Proof.
  intros H. apply Z.eqb_eq.
  exact (forall_below 1024 (fun l => Z.lor 0xDC00 l =? 0xDC00 + l)
           ltac:(vm_compute; reflexivity) l H).
Qed.

Lemma lor_disjoint_10 h l :
  0 <= h -> 0 <= l < 1024 -> Z.lor (Z.shiftl h 10) l = h * 1024 + l.
Proof.
  intros Hh Hl.
  assert (Hz : Z.land (Z.shiftl h 10) l = 0).
  { apply Z.bits_inj'. intros n Hn. rewrite Z.land_spec, Z.bits_0.
    destruct (Z.ltb_spec n 10).
    - now rewrite Z.shiftl_spec_low.
    - rewrite andb_comm.
      destruct (Z.eqb_spec l 0) as [->|Hne]; [now rewrite Z.bits_0|].
      rewrite (Z.bits_above_log2 l n); [reflexivity | lia |].
      apply Z.log2_lt_pow2; [lia|].
      apply Z.lt_le_trans with (2 ^ 10); [simpl; lia|].
      apply Z.pow_le_mono_r; lia. }
  rewrite <- Z.lxor_lor, <- Z.add_nocarry_lxor by exact Hz.
  rewrite Z.shiftl_mul_pow2 by lia. reflexivity.
Qed.

Lemma hex_val_lower d : 0 <= d < 16 -> hex_val (hex_lower d) = Some d.
Proof.
  intros H.
  assert (E : (match hex_val (hex_lower d) with
               | Some x => x =? d
               | None => false
               end) = true).
  { exact (forall_below 16
             (fun d => match hex_val (hex_lower d) with
                       | Some x => x =? d
                       | None => false
                       end) ltac:(vm_compute; reflexivity) d H). }
  destruct (hex_val (hex_lower d)) as [x|]; [|discriminate E].
  apply Z.eqb_eq in E. now subst.
Qed.

Lemma nibble v k : 0 <= k -> Z.land (Z.shiftr v k) 15 = (v / 2 ^ k) mod 16.
Proof.
  intros Hk. rewrite Z.shiftr_div_pow2 by exact Hk.
  exact (Z.land_ones _ 4 ltac:(lia)).
Qed.

Lemma decode_hex4 n r :
  0 <= n < 0x10000 -> decode_uXXXX (hex4_lower n ++ r) = Some (n, r).
Proof.
  intros Hn. unfold hex4_lower, decode_uXXXX. cbn [List.app].
  rewrite !hex_val_lower by apply land_15_range.
  rewrite !nibble by lia. rewrite low_nibble.
  change (2 ^ 12) with 4096. change (2 ^ 8) with 256. change (2 ^ 4) with 16.
  do 2 f_equal. Z.div_mod_to_equations. lia.
Qed.

Lemma scalarb_range c :
  scalarb c = true -> 0 <= c < 0x110000 /\ ~ (0xD800 <= c <= 0xDFFF).
Proof.
  unfold scalarb. intros H.
  apply andb_true_iff in H as [H Hs]. apply andb_true_iff in H as [H1 H2].
  apply Z.leb_le in H1. apply Z.ltb_lt in H2.
  split; [lia|]. intros [Ha Hb].
  apply Z.leb_le in Ha, Hb. rewrite Ha, Hb in Hs. discriminate Hs.
Qed.

(** One character of a string, as [dumps] writes it, is read back by one
    step of the string scanner. *)
Lemma scanstring_escape_char c n t :
  scalarb c = true ->
  scanstring (S n) (escape_char c ++ t) = cons_char c (scanstring n t).
Proof.
  intros Hc. apply scalarb_range in Hc as [Hr Hs].
  unfold escape_char.
  destruct (Z.eqb_spec c 34) as [->|H34]; [reflexivity|].
  destruct (Z.eqb_spec c 92) as [->|H92]; [reflexivity|].
  destruct (Z.eqb_spec c 8) as [->|H8]; [reflexivity|].
  destruct (Z.eqb_spec c 12) as [->|H12]; [reflexivity|].
  destruct (Z.eqb_spec c 10) as [->|H10]; [reflexivity|].
  destruct (Z.eqb_spec c 13) as [->|H13]; [reflexivity|].
  destruct (Z.eqb_spec c 9) as [->|H9]; [reflexivity|].
  destruct ((32 <=? c) && (c <=? 126)) eqn:Hp.
  { apply andb_true_iff in Hp as [Hp1 Hp2].
    apply Z.leb_le in Hp1, Hp2.
    cbn [List.app scanstring].
    rewrite (proj2 (Z.eqb_neq c 34) H34), (proj2 (Z.eqb_neq c 92) H92).
    rewrite (proj2 (Z.ltb_ge c 32) Hp1). reflexivity. }
  destruct (Z.ltb_spec c 65536) as [Hb|Hb].
  - unfold escape_u. cbn [List.app scanstring].
    change (92 =? 34) with false. change (92 =? 92) with true.
    change (117 =? 117) with true. cbv beta iota.
    rewrite decode_hex4 by lia.
    assert (Hh : is_high_surrogate c = false).
    { unfold is_high_surrogate.
      destruct (Z.leb_spec 55296 c); [|reflexivity].
      destruct (Z.leb_spec c 56319); [|reflexivity]. lia. }
    rewrite Hh. reflexivity.
  - set (m := c - 65536).
    assert (Hm : 0 <= m < 1048576) by (unfold m; lia).
    assert (Hhi : Z.lor 55296 (Z.land (Z.shiftr m 10) 1023) = 55296 + m / 1024).
    { rewrite Z.shiftr_div_pow2 by lia.
      rewrite (Z.land_ones _ 10) by lia. change (2 ^ 10) with 1024.
      rewrite Z.mod_small by (Z.div_mod_to_equations; lia).
      apply lor_high_surrogate. Z.div_mod_to_equations. lia. }
    assert (Hlo : Z.lor 56320 (Z.land m 1023) = 56320 + m mod 1024).
    { rewrite (Z.land_ones _ 10) by lia. change (2 ^ 10) with 1024.
      apply lor_low_surrogate. Z.div_mod_to_equations. lia. }
    cbv zeta. fold m. rewrite Hhi, Hlo.
    unfold escape_u. rewrite <- !List.app_assoc. cbn [List.app scanstring].
    change (92 =? 34) with false. change (92 =? 92) with true.
    change (117 =? 117) with true. cbv beta iota.
    rewrite decode_hex4 by (Z.div_mod_to_equations; lia).
    assert (Hh : is_high_surrogate (55296 + m / 1024) = true).
    { unfold is_high_surrogate. apply andb_true_iff.
      split; apply Z.leb_le; Z.div_mod_to_equations; lia. }
    rewrite Hh. cbn [andb]. change (92 =? 92) with true.
    change (117 =? 117) with true. cbv beta iota. cbn [andb].
    rewrite decode_hex4 by (Z.div_mod_to_equations; lia).
    assert (Hl : is_low_surrogate (56320 + m mod 1024) = true).
    { unfold is_low_surrogate. apply andb_true_iff.
      split; apply Z.leb_le; Z.div_mod_to_equations; lia. }
    rewrite Hl.
    assert (Hj : join_surrogates (55296 + m / 1024) (56320 + m mod 1024) = c).
    { unfold join_surrogates.
      replace (55296 + m / 1024 - 55296) with (m / 1024) by lia.
      replace (56320 + m mod 1024 - 56320) with (m mod 1024) by lia.
      rewrite lor_disjoint_10 by (Z.div_mod_to_equations; lia).
      unfold m. Z.div_mod_to_equations. lia. }
    rewrite Hj. reflexivity.
Qed.

Lemma escape_char_nonempty c : (1 <= List.length (escape_char c))%nat.
Proof.
  unfold escape_char, escape_u.
  repeat match goal with
         | |- context [if ?b then _ else _] => destruct b
         end; cbn [List.length List.app]; lia.
Qed.

(** A string as [dumps] writes it, after its opening quote, is read back by
    the string scanner. *)
Lemma scanstring_dumps s : forall rest n,
  forallb scalarb s = true ->
  (List.length (List.concat (List.map escape_char s) ++ 34%Z :: rest) < n)%nat ->
  scanstring n (List.concat (List.map escape_char s) ++ 34 :: rest)
  = Some (s, rest).
Proof.
  induction s as [|c r IH]; intros rest n Hs Hn.
  - destruct n as [|n]; [cbn in Hn; lia|]. reflexivity.
  - cbn [forallb] in Hs. apply andb_true_iff in Hs as [Hc Hr].
    cbn [List.map List.concat] in *. rewrite <- List.app_assoc in *.
    destruct n as [|n]; [lia|].
    rewrite (scanstring_escape_char c n _ Hc).
    rewrite IH; [reflexivity | exact Hr |].
    rewrite length_app in Hn. pose proof (escape_char_nonempty c). lia.
Qed.

Lemma scan_once_string s rest n :
  forallb scalarb s = true ->
  scan_once (S n) (encode_basestring_ascii s ++ rest) = Some (JStr s, rest).
Proof.
  intros Hs. unfold encode_basestring_ascii.
  cbn [List.app scan_once]. change (34 =? 34) with true. cbv beta iota.
  rewrite <- List.app_assoc. cbn [List.app].
  rewrite scanstring_dumps; [reflexivity | exact Hs | lia].
Qed.

(** *** Integers *)

Lemma py_cons a s : py (String a s) = Z.of_N (N_of_ascii a) :: py s.
Proof. reflexivity. Qed.

Lemma py_uint d :
  py (NilEmpty.string_of_uint d) = List.map (Z.add 48) (uint_digits d).
Proof.
  induction d; cbn [NilEmpty.string_of_uint uint_digits List.map];
    rewrite ?py_cons, ?IHd; reflexivity.
Qed.

Lemma of_uint_acc_val d : forall acc,
  Z.pos (Pos.of_uint_acc d acc)
  = fold_left (fun a x => a * 10 + x) (uint_digits d) (Z.pos acc).
Proof.
  induction d; intros acc; cbn [Pos.of_uint_acc uint_digits fold_left];
    rewrite ?IHd; try reflexivity; f_equal; lia.
Qed.

Lemma of_uint_val d : Z.of_N (Pos.of_uint d) = digits_val (uint_digits d).
Proof.
  unfold digits_val.
  induction d; cbn [Pos.of_uint uint_digits fold_left Z.of_N];
    rewrite ?of_uint_acc_val; try reflexivity; exact IHd.
Qed.

Lemma uint_digits_range d : Forall (fun x => 0 <= x <= 9) (uint_digits d).
Proof.
  induction d; cbn [uint_digits]; constructor; try lia; assumption.
Qed.

(** The decimal numeral of a positive number starts with a non-zero digit. *)
Lemma to_uint_head p :
  exists x r,
    uint_digits (Pos.to_uint p) = x :: r /\ 1 <= x <= 9.
Proof.
  pose proof (DecimalPos.Unsigned.to_of (Pos.to_uint p)) as Hn.
  rewrite DecimalPos.Unsigned.of_to in Hn. cbn [N.to_uint] in Hn.
  pose proof (DecimalPos.Unsigned.to_uint_nonzero p) as Hz.
  assert (Hh : Decimal.nzhead (Pos.to_uint p) <> Decimal.Nil).
  { intros E. apply DecimalFacts.unorm_0 in E. congruence. }
  rewrite (DecimalFacts.unorm_nzhead _ Hh) in Hn.
  pose proof (DecimalFacts.nzhead_nonzero (Pos.to_uint p)) as Hd.
  rewrite <- Hn in Hd.
  pose proof (DecimalPos.Unsigned.to_uint_nonnil p) as Hnil.
  destruct (Pos.to_uint p) as [|d|d|d|d|d|d|d|d|d|d];
    [congruence | now destruct (Hd d) | ..];
    cbn [uint_digits]; eexists; eexists; (split; [reflexivity | lia]).
Qed.

Lemma int_repr_cases z :
  (z = 0 /\ int_repr z = [48])
  \/ exists x r,
       1 <= x <= 9
       /\ Forall (fun x => 0 <= x <= 9) r
       /\ ((0 < z /\ int_repr z = List.map (Z.add 48) (x :: r)
            /\ digits_val (x :: r) = z)
           \/ (z < 0 /\ int_repr z = 45 :: List.map (Z.add 48) (x :: r)
               /\ digits_val (x :: r) = - z)).
Proof.
  destruct z as [|p|p].
  - left. split; reflexivity.
  - right. destruct (to_uint_head p) as (x & r & E & Hx).
    pose proof (uint_digits_range (Pos.to_uint p)) as Hr. rewrite E in Hr.
    apply List.Forall_cons_iff in Hr as [_ Hr].
    exists x, r. split; [exact Hx|]. split; [exact Hr|]. left.
    split; [lia|]. unfold int_repr. cbn [Z.to_int NilZero.string_of_int].
    unfold NilZero.string_of_uint.
    rewrite <- E, <- py_uint, <- of_uint_val, DecimalPos.Unsigned.of_to.
    split; [|reflexivity].
    destruct (Pos.to_uint p); [discriminate E | reflexivity..].
  - right. destruct (to_uint_head p) as (x & r & E & Hx).
    pose proof (uint_digits_range (Pos.to_uint p)) as Hr. rewrite E in Hr.
    apply List.Forall_cons_iff in Hr as [_ Hr].
    exists x, r. split; [exact Hx|]. split; [exact Hr|]. right.
    split; [lia|]. unfold int_repr. cbn [Z.to_int NilZero.string_of_int].
    unfold NilZero.string_of_uint. rewrite py_cons.
    rewrite <- E, <- py_uint, <- of_uint_val, DecimalPos.Unsigned.of_to.
    split; [|reflexivity].
    destruct (Pos.to_uint p); [discriminate E | reflexivity..].
Qed.

Lemma ends_value_cases rest :
  ends_value rest ->
  rest = [] \/ exists c r, rest = c :: r /\ (c = 44 \/ c = 93 \/ c = 125).
Proof. destruct rest as [|c r]; [now left | right; eauto]. Qed.

Lemma span_digits_digits ds rest :
  Forall (fun x => 0 <= x <= 9) ds ->
  ends_value rest ->
  span_digits (List.map (Z.add 48) ds ++ rest) = (ds, rest).
Proof.
  intros Hds Hrest. induction Hds as [|x r Hx _ IH].
  - cbn [List.map List.app].
    destruct (ends_value_cases rest Hrest) as [-> | (c & t & -> & Hc)];
      [reflexivity|].
    cbn [span_digits].
    assert (E : is_digit c = false)
      by (destruct Hc as [-> | [-> | ->]]; reflexivity).
    now rewrite E.
  - cbn [List.map List.app span_digits]. rewrite IH.
    assert (E : is_digit (48 + x) = true).
    { unfold is_digit. apply andb_true_iff. split; apply Z.leb_le; lia. }
    rewrite E. do 2 f_equal. lia.
Qed.

Lemma no_fraction rest : ends_value rest -> scan_frac rest = None.
Proof.
  intros H. destruct (ends_value_cases rest H) as [-> | (c & t & -> & Hc)];
    [reflexivity|].
  destruct Hc as [-> | [-> | ->]]; reflexivity.
Qed.

Lemma no_exponent rest : ends_value rest -> scan_exp rest = None.
Proof.
  intros H. destruct (ends_value_cases rest H) as [-> | (c & t & -> & Hc)];
    [reflexivity|].
  destruct Hc as [-> | [-> | ->]]; reflexivity.
Qed.

(** Unsigned digits, the first of which is not a zero. *)
Lemma scan_int_part_digits x r rest :
  1 <= x <= 9 ->
  Forall (fun x => 0 <= x <= 9) r ->
  ends_value rest ->
  scan_int_part (List.map (Z.add 48) (x :: r) ++ rest) = Some (x :: r, rest).
Proof.
  intros Hx Hr Hrest.
  pose proof (span_digits_digits (x :: r) rest
                ltac:(constructor; [lia | exact Hr]) Hrest) as Hspan.
  cbn [List.map List.app] in *. unfold scan_int_part.
  rewrite (proj2 (Z.eqb_neq (48 + x) 48)) by lia.
  assert (E : is_digit (48 + x) = true).
  { unfold is_digit. apply andb_true_iff. split; apply Z.leb_le; lia. }
  rewrite E. now rewrite Hspan.
Qed.

Lemma scan_number_int z rest :
  ends_value rest -> scan_number (int_repr z ++ rest) = Some (JInt z, rest).
Proof.
  intros Hrest.
  destruct (int_repr_cases z)
    as [[-> ->] | (x & r & Hx & Hr & [(Hz & -> & Hv) | (Hz & -> & Hv)])].
  - unfold scan_number. cbn [List.app]. change (48 =? 45) with false.
    cbv beta iota. unfold scan_int_part. change (48 =? 48) with true.
    cbv beta iota. rewrite no_fraction, no_exponent by exact Hrest.
    reflexivity.
  - unfold scan_number.
    cbn [List.map List.app].
    rewrite (proj2 (Z.eqb_neq (48 + x) 45)) by lia.
    change (48 + x :: List.map (Z.add 48) r ++ rest)
      with (List.map (Z.add 48) (x :: r) ++ rest).
    rewrite (scan_int_part_digits x r rest Hx Hr Hrest).
    rewrite no_fraction, no_exponent by exact Hrest.
    rewrite Hv. do 3 f_equal. lia.
  - unfold scan_number. cbn [List.app]. change (45 =? 45) with true.
    cbv beta iota.
    rewrite (scan_int_part_digits x r rest Hx Hr Hrest).
    rewrite no_fraction, no_exponent by exact Hrest.
    rewrite Hv. do 3 f_equal. lia.
Qed.

Lemma scan_constant_digit c t :
  is_digit c = true -> scan_constant (c :: t) = scan_number (c :: t).
Proof.
  unfold is_digit. intros H. apply andb_true_iff in H as [H1 H2].
  apply Z.leb_le in H1, H2.
  unfold scan_constant.
  change (py "null") with [110; 117; 108; 108].
  change (py "true") with [116; 114; 117; 101].
  change (py "false") with [102; 97; 108; 115; 101].
  change (py "NaN") with [78; 97; 78].
  change (py "Infinity") with [73; 110; 102; 105; 110; 105; 116; 121].
  change (py "-Infinity") with [45; 73; 110; 102; 105; 110; 105; 116; 121].
  cbn [strip_prefix].
  rewrite (proj2 (Z.eqb_neq 110 c)), (proj2 (Z.eqb_neq 116 c)),
    (proj2 (Z.eqb_neq 102 c)), (proj2 (Z.eqb_neq 78 c)),
    (proj2 (Z.eqb_neq 73 c)), (proj2 (Z.eqb_neq 45 c)) by lia.
  reflexivity.
Qed.

Lemma scan_constant_minus c t :
  is_digit c = true ->
  scan_constant (45 :: c :: t) = scan_number (45 :: c :: t).
Proof.
  unfold is_digit. intros H. apply andb_true_iff in H as [H1 H2].
  apply Z.leb_le in H1, H2.
  unfold scan_constant.
  change (py "null") with [110; 117; 108; 108].
  change (py "true") with [116; 114; 117; 101].
  change (py "false") with [102; 97; 108; 115; 101].
  change (py "NaN") with [78; 97; 78].
  change (py "Infinity") with [73; 110; 102; 105; 110; 105; 116; 121].
  change (py "-Infinity") with [45; 73; 110; 102; 105; 110; 105; 116; 121].
  cbn [strip_prefix].
  change (110 =? 45) with false. change (116 =? 45) with false.
  change (102 =? 45) with false. change (78 =? 45) with false.
  change (73 =? 45) with false. change (45 =? 45) with true.
  cbv beta iota.
  rewrite (proj2 (Z.eqb_neq 73 c)) by lia.
  reflexivity.
Qed.

Lemma digit_char x : 0 <= x <= 9 -> is_digit (48 + x) = true.
Proof.
  intros H. unfold is_digit. apply andb_true_iff. split; apply Z.leb_le; lia.
Qed.

Lemma scan_once_int z rest n :
  ends_value rest -> scan_once (S n) (int_repr z ++ rest) = Some (JInt z, rest).
Proof.
  intros Hrest. rewrite <- (scan_number_int z rest Hrest).
  destruct (int_repr_cases z)
    as [[-> ->] | (x & r & Hx & Hr & [(Hz & -> & Hv) | (Hz & -> & Hv)])];
    cbn [List.map List.app scan_once].
  - change (48 =? 34) with false. change (48 =? 123) with false.
    change (48 =? 91) with false. cbv beta iota.
    now apply scan_constant_digit.
  - rewrite (proj2 (Z.eqb_neq (48 + x) 34)), (proj2 (Z.eqb_neq (48 + x) 123)),
      (proj2 (Z.eqb_neq (48 + x) 91)) by lia.
    apply scan_constant_digit, digit_char. lia.
  - change (45 =? 34) with false. change (45 =? 123) with false.
    change (45 =? 91) with false. cbv beta iota.
    apply scan_constant_minus, digit_char. lia.
Qed.

(** The first character of a value's text: never white space, never a
    closing bracket. *)
Lemma dumps_head fr j :
  plainb j = true ->
  exists c r,
    dumps fr (py ", ") (py ": ") j = c :: r
    /\ is_ws c = false /\ c <> 93 /\ c <> 125.
Proof.
  destruct j as [| [|] | z | [q| | |] | s | l | d]; cbn [plainb]; intros H;
    try discriminate H;
    try (eexists; eexists; split; [reflexivity|];
         split; [reflexivity | split; discriminate]).
  cbn [dumps].
  destruct (int_repr_cases z)
    as [[-> ->] | (x & r & Hx & Hr & [(Hz & -> & Hv) | (Hz & -> & Hv)])];
    cbn [List.map]; eexists; eexists; (split; [reflexivity|]);
    try (split; [reflexivity | split; discriminate]).
  unfold is_ws.
  rewrite (proj2 (Z.eqb_neq (48 + x) 32)), (proj2 (Z.eqb_neq (48 + x) 9)),
    (proj2 (Z.eqb_neq (48 + x) 10)), (proj2 (Z.eqb_neq (48 + x) 13)) by lia.
  split; [reflexivity | split; lia].
Qed.

Lemma skip_ws_head c r : is_ws c = false -> skip_ws (c :: r) = c :: r.
Proof. intros H. cbn [skip_ws]. now rewrite H. Qed.

Lemma skip_ws_dumps fr j rest :
  plainb j = true ->
  skip_ws (dumps fr (py ", ") (py ": ") j ++ rest)
  = dumps fr (py ", ") (py ": ") j ++ rest.
Proof.
  intros H. destruct (dumps_head fr j H) as (c & r & -> & Hc & _).
  now apply skip_ws_head.
Qed.

(** *** Objects without repeated keys *)

Lemma dict_set_fresh d k v :
  ~ In k (List.map fst d) -> dict_set d k v = d ++ [(k, v)].
Proof.
  induction d as [|[k' v'] r IH]; cbn [dict_set List.map In fst List.app];
    intros H; [reflexivity|].
  unfold pystr_eqb. rewrite bool_decide_eq_false_2 by tauto.
  rewrite IH by tauto. reflexivity.
Qed.

Lemma dict_of_pairs_from l : forall acc,
  NoDup (List.map fst (acc ++ l)) ->
  fold_left (fun d (kv : pystr * json) => dict_set d (fst kv) (snd kv)) l acc
  = acc ++ l.
Proof.
  induction l as [|[k v] r IH]; intros acc H; cbn [fold_left fst snd].
  - now rewrite List.app_nil_r.
  - rewrite dict_set_fresh.
    + rewrite IH; rewrite <- List.app_assoc; [reflexivity | exact H].
    + rewrite List.map_app in H. cbn [List.map fst] in H.
      apply NoDup_app in H as (_ & Hd & _).
      intros Hin. apply list_elem_of_In in Hin.
      apply (Hd k Hin). apply list_elem_of_In. now left.
Qed.

Lemma dict_of_pairs_nodup d :
  NoDup (List.map fst d) -> dict_of_pairs d = d.
Proof. intros H. exact (dict_of_pairs_from d [] H). Qed.

(** *** Arrays and objects *)

Lemma join_map_cons {A} (f : A -> pystr) sep x y r :
  join_map f sep (x :: y :: r) = f x ++ sep ++ join_map f sep (y :: r).
Proof. reflexivity. Qed.

Lemma join_map_one {A} (f : A -> pystr) sep x : join_map f sep [x] = f x.
Proof. reflexivity. Qed.

Lemma join_map_head {A} (f : A -> pystr) sep x r t :
  exists t', join_map f sep (x :: r) ++ t = f x ++ t'.
Proof.
  destruct r as [|y r].
  - rewrite join_map_one. eauto.
  - rewrite join_map_cons, <- !List.app_assoc. eauto.
Qed.

Lemma item_sep_app t : py ", " ++ t = 44 :: 32 :: t.
Proof. reflexivity. Qed.

Lemma key_sep_app t : py ": " ++ t = 58 :: 32 :: t.
Proof. reflexivity. Qed.

Lemma skip_ws_comma t : skip_ws (44 :: t) = 44 :: t.
Proof. reflexivity. Qed.

Lemma skip_ws_colon t : skip_ws (58 :: t) = 58 :: t.
Proof. reflexivity. Qed.

Lemma skip_ws_space t : skip_ws (32 :: t) = skip_ws t.
Proof. reflexivity. Qed.

Lemma skip_ws_bracket t : skip_ws (93 :: t) = 93 :: t.
Proof. reflexivity. Qed.

Lemma skip_ws_brace t : skip_ws (125 :: t) = 125 :: t.
Proof. reflexivity. Qed.

Lemma skip_ws_quote t : skip_ws (34 :: t) = 34 :: t.
Proof. reflexivity. Qed.

Lemma skip_ws_items fr y l t :
  plainb y = true ->
  skip_ws (join_map (dumps fr (py ", ") (py ": ")) (py ", ") (y :: l) ++ t)
  = join_map (dumps fr (py ", ") (py ": ")) (py ", ") (y :: l) ++ t.
Proof.
  intros Hy.
  destruct (join_map_head (dumps fr (py ", ") (py ": ")) (py ", ") y l t)
    as (t' & ->).
  exact (skip_ws_dumps fr y t' Hy).
Qed.

Lemma scan_items_dumps fr l :
  Forall (reads_back fr) l ->
  forallb plainb l = true ->
  l <> [] ->
  forall rest n,
    (2 * List.length
           (join_map (dumps fr (py ", ") (py ": ")) (py ", ") l ++ 93%Z :: rest)
     + 1 < n)%nat ->
    scan_items n
      (join_map (dumps fr (py ", ") (py ": ")) (py ", ") l ++ 93 :: rest)
    = Some (l, rest).
Proof.
  induction 1 as [|x l' Hx Hl' IH]; intros Hp Hne rest n Hn; [congruence|].
  cbn [forallb] in Hp. apply andb_true_iff in Hp as [Hpx Hpl].
  destruct n as [|n]; [lia|].
  destruct l' as [|y l''].
  - rewrite join_map_one in *. cbn [scan_items].
    rewrite (Hx (93 :: rest) n) by (cbn [ends_value]; auto; lia).
    reflexivity.
  - rewrite join_map_cons in *. rewrite <- !List.app_assoc in *.
    rewrite item_sep_app in *.
    cbn [scan_items].
    rewrite (Hx _ n) by (cbn [ends_value]; auto; lia).
    rewrite skip_ws_comma. change (44 =? 93) with false.
    change (44 =? 44) with true. cbv beta iota.
    rewrite skip_ws_space, skip_ws_items
      by (cbn [forallb] in Hpl; now apply andb_true_iff in Hpl as [Hpy _]).
    rewrite (IH Hpl ltac:(discriminate) rest n); [reflexivity|].
    rewrite length_app in Hn. cbn [List.length] in Hn. lia.
Qed.

Lemma member_text_app fr k v tail :
  (encode_basestring_ascii k ++ py ": " ++ dumps fr (py ", ") (py ": ") v)
  ++ tail
  = 34 :: (List.concat (List.map escape_char k)
           ++ 34 :: 58 :: 32 :: dumps fr (py ", ") (py ": ") v ++ tail).
Proof.
  unfold encode_basestring_ascii. rewrite <- !List.app_assoc.
  cbn [List.app]. rewrite <- !List.app_assoc. reflexivity.
Qed.

Lemma scan_member fr k v tail n :
  forallb scalarb k = true ->
  plainb v = true ->
  reads_back fr v ->
  ends_value tail ->
  (2 * List.length
         ((encode_basestring_ascii k ++ py ": "
           ++ dumps fr (py ", ") (py ": ") v) ++ tail) < S n)%nat ->
  scan_members (S n)
    ((encode_basestring_ascii k ++ py ": " ++ dumps fr (py ", ") (py ": ") v)
     ++ tail)
  = match skip_ws tail with
    | [] => None
    | d :: r4 =>
        if d =? 125 then Some ([(k, v)], r4)
        else if d =? 44 then
          match scan_members n (skip_ws r4) with
          | Some (m, r5) => Some ((k, v) :: m, r5)
          | None => None
          end
        else None
    end.
Proof.
  intros Hk Hpv Hv Htail Hn.
  rewrite member_text_app in *.
  cbn [scan_members]. change (34 =? 34) with true. cbv beta iota.
  rewrite scanstring_dumps by (try exact Hk; lia).
  rewrite skip_ws_colon. change (58 =? 58) with true. cbv beta iota.
  rewrite skip_ws_space, skip_ws_dumps by exact Hpv.
  rewrite (Hv tail n Htail); [reflexivity|].
  cbn [List.length] in Hn. rewrite length_app in Hn.
  cbn [List.length] in Hn. lia.
Qed.

Lemma scan_members_dumps fr d :
  Forall (fun kv : pystr * json => reads_back fr (snd kv)) d ->
  forallb (fun kv : pystr * json =>
             forallb scalarb (fst kv) && plainb (snd kv)) d = true ->
  d <> [] ->
  forall rest n,
    (2 * List.length
           (join_map
              (fun kv : pystr * json =>
                 encode_basestring_ascii (fst kv) ++ py ": "
                 ++ dumps fr (py ", ") (py ": ") (snd kv))
              (py ", ") d ++ 125%Z :: rest) < n)%nat ->
    scan_members n
      (join_map
         (fun kv : pystr * json =>
            encode_basestring_ascii (fst kv) ++ py ": "
            ++ dumps fr (py ", ") (py ": ") (snd kv))
         (py ", ") d ++ 125 :: rest)
    = Some (d, rest).
Proof.
  induction 1 as [|[k v] d' Hv Hd' IH]; intros Hp Hne rest n Hn; [congruence|].
  cbn [forallb fst snd] in Hp, Hv.
  apply andb_true_iff in Hp as [Hkv Hpd].
  apply andb_true_iff in Hkv as [Hk Hpv].
  destruct n as [|n]; [lia|].
  destruct d' as [|[k' v'] d''].
  - rewrite join_map_one in *. cbn [fst snd] in *.
    rewrite (scan_member fr k v (125 :: rest) n Hk Hpv Hv)
      by (cbn [ends_value]; auto; lia).
    reflexivity.
  - rewrite join_map_cons in *. cbn [fst snd] in Hn |- *.
    rewrite <- List.app_assoc in Hn |- *.
    rewrite (scan_member fr k v _ n Hk Hpv Hv);
      [| rewrite <- List.app_assoc, item_sep_app; cbn [ends_value]; auto
       | exact Hn].
    rewrite <- List.app_assoc, item_sep_app.
    rewrite skip_ws_comma. change (44 =? 125) with false.
    change (44 =? 44) with true. cbv beta iota.
    rewrite skip_ws_space.
    assert (Hskip : forall t,
               skip_ws
                 (join_map
                    (fun kv : pystr * json =>
                       encode_basestring_ascii (fst kv) ++ py ": "
                       ++ dumps fr (py ", ") (py ": ") (snd kv))
                    (py ", ") ((k', v') :: d'') ++ t)
               = join_map
                   (fun kv : pystr * json =>
                      encode_basestring_ascii (fst kv) ++ py ": "
                      ++ dumps fr (py ", ") (py ": ") (snd kv))
                   (py ", ") ((k', v') :: d'') ++ t).
    { intros t.
      destruct (join_map_head
                  (fun kv : pystr * json =>
                     encode_basestring_ascii (fst kv) ++ py ": "
                     ++ dumps fr (py ", ") (py ": ") (snd kv))
                  (py ", ") (k', v') d'' t) as (t' & ->).
      cbn [fst]. unfold encode_basestring_ascii.
      rewrite <- !List.app_assoc. reflexivity. }
    rewrite Hskip.
    rewrite (IH Hpd ltac:(discriminate) rest n); [reflexivity|].
    rewrite !length_app in Hn.
    change (List.length (py ", ")) with 2%nat in Hn.
    rewrite length_app. lia.
Qed.

Lemma open_bracket t : py "[" ++ t = 91 :: t.
Proof. reflexivity. Qed.

Lemma open_brace t : py "{" ++ t = 123 :: t.
Proof. reflexivity. Qed.

Lemma close_bracket t : py "]" ++ t = 93 :: t.
Proof. reflexivity. Qed.

Lemma close_brace t : py "}" ++ t = 125 :: t.
Proof. reflexivity. Qed.

Lemma Forall_guarded {A} (p : A -> bool) (Q : A -> Prop) l :
  Forall (fun x => p x = true -> Q x) l -> forallb p l = true -> Forall Q l.
Proof.
  induction 1 as [|x r Hx _ IH]; cbn [forallb]; intros H; [constructor|].
  apply andb_true_iff in H as [H1 H2]. constructor; auto.
Qed.

Lemma Forall_members (Q : json -> Prop) (d : list (pystr * json)) :
  Forall (fun kv => plainb (snd kv) = true -> Q (snd kv)) d ->
  forallb (fun kv : pystr * json =>
             forallb scalarb (fst kv) && plainb (snd kv)) d = true ->
  Forall (fun kv => Q (snd kv)) d.
Proof.
  induction 1 as [|x r Hx _ IH]; cbn [forallb]; intros H; [constructor|].
  apply andb_true_iff in H as [H1 H2].
  apply andb_true_iff in H1 as [_ H1]. constructor; auto.
Qed.

(** Every plain value is read back from its text. *)
Lemma plain_reads_back fr j : plainb j = true -> reads_back fr j.
Proof.
  induction j as [| b | z | f | s | l IHl | d IHd] using json_ind_nested;
    intros Hp rest n Hrest Hn; (destruct n as [|n]; [lia|]).
  - reflexivity.
  - destruct b; reflexivity.
  - exact (scan_once_int z rest n Hrest).
  - destruct f as [q| | |]; [discriminate Hp | reflexivity..].
  - exact (scan_once_string s rest n Hp).
  - cbn [plainb] in Hp. cbn [dumps] in Hn |- *.
    rewrite open_bracket, <- List.app_comm_cons, <- List.app_assoc,
      close_bracket in Hn |- *.
    cbn [scan_once]. change (91 =? 34) with false.
    change (91 =? 123) with false. change (91 =? 91) with true.
    cbv beta iota.
    destruct l as [|x l'].
    + reflexivity.
    + assert (Hpx : plainb x = true)
        by (cbn [forallb] in Hp; now apply andb_true_iff in Hp as [Hpx _]).
      rewrite skip_ws_items by exact Hpx.
      destruct (join_map_head (dumps fr (py ", ") (py ": ")) (py ", ") x l'
                  (93 :: rest)) as (t' & Et).
      destruct (dumps_head fr x Hpx) as (c & r & Ec & _ & Hc & _).
      assert (Hitems :
               scan_items n
                 (join_map (dumps fr (py ", ") (py ": ")) (py ", ") (x :: l')
                  ++ 93 :: rest) = Some (x :: l', rest)).
      { apply scan_items_dumps.
        - exact (Forall_guarded plainb (reads_back fr) _ IHl Hp).
        - exact Hp.
        - discriminate.
        - cbn [List.length] in Hn. lia. }
      revert Hitems. rewrite Et, Ec. cbn [List.app].
      rewrite (proj2 (Z.eqb_neq c 93) Hc). intros ->. reflexivity.
  - cbn [plainb] in Hp. apply andb_true_iff in Hp as [Hp Hnd].
    apply bool_decide_eq_true_1 in Hnd.
    cbn [dumps] in Hn |- *.
    rewrite open_brace, <- List.app_comm_cons, <- List.app_assoc,
      close_brace in Hn |- *.
    cbn [scan_once]. change (123 =? 34) with false.
    change (123 =? 123) with true. cbv beta iota.
    destruct d as [|[k v] d'].
    + reflexivity.
    + destruct (join_map_head
                  (fun kv : pystr * json =>
                     encode_basestring_ascii (fst kv) ++ py ": "
                     ++ dumps fr (py ", ") (py ": ") (snd kv))
                  (py ", ") (k, v) d' (125 :: rest)) as (t' & Et).
      assert (Hmembers :
               scan_members n
                 (join_map
                    (fun kv : pystr * json =>
                       encode_basestring_ascii (fst kv) ++ py ": "
                       ++ dumps fr (py ", ") (py ": ") (snd kv))
                    (py ", ") ((k, v) :: d') ++ 125 :: rest)
               = Some ((k, v) :: d', rest)).
      { apply scan_members_dumps.
        - exact (Forall_members (reads_back fr) _ IHd Hp).
        - exact Hp.
        - discriminate.
        - cbn [List.length] in Hn. lia. }
      revert Hmembers. rewrite Et. cbn [fst].
      unfold encode_basestring_ascii. rewrite <- !List.app_assoc.
      cbn [List.app]. rewrite skip_ws_quote.
      change (34 =? 125) with false. cbv beta iota.
      intros ->. now rewrite dict_of_pairs_nodup.
Qed.

(** X19.  What [json.dump] writes for a value is read back by [json.load]
    as that very value, for every value without finite float whose strings
    are made of Unicode scalar values and whose objects have no repeated
    key.  A token of that kind, once written by [request_token], is what the
    constructor finds in the cache file. *)
Theorem plain_values_survive_dump_and_load env j :
  plainb j = true -> json_loads (json_dumps_default env j) = Ok j.
Proof.
  intros Hp. unfold json_loads, json_dumps_default.
  pose proof (skip_ws_dumps (env_float_repr env) j [] Hp) as Hskip.
  pose proof (plain_reads_back (env_float_repr env) j Hp []
                (2 * List.length
                       (dumps (env_float_repr env) (py ", ") (py ": ") j) + 2)%nat
                I) as Hscan.
  rewrite List.app_nil_r in Hskip, Hscan.
  rewrite Hskip, Hscan by lia. reflexivity.
Qed.

Lemma plain_values_survive_dump_and_load_witness :
  json_loads (json_dumps_default sample_env (sample_token 5000))
  = Ok (sample_token 5000).
Proof.
  apply plain_values_survive_dump_and_load. vm_compute. reflexivity.
Defined.

(** X20.  A token that [request_token] has obtained and written out, and
    that holds no finite float, only strings of Unicode scalar values and
    no repeated key, is the token a provider constructed afterwards for the
    same account starts with: the constructor reads back from the cache
    file exactly what the call returned. *)
Theorem plain_token_survives_restart env self s tok s' k kd ex tu :
  request_token env self s = (Ok tok, s') ->
  st_log s' <> st_log s ->
  plainb tok = true ->
  cached_token_path self = cache_path env (account self) ->
  env_fails env IoMkdir = false ->
  (forall t, st_fs s !! path_parent (cache_path env (account self))
             <> Some (File t)) ->
  forall s0,
    st_fs s0 = st_fs s' ->
    exists p s1,
      AccessTokenProvider env (JStr (account self)) k kd ex tu s0 = (Ok p, s1)
      /\ st_cached_token s1 = tok
      /\ account p = account self
      /\ cached_token_path p = cached_token_path self.
Proof.
  intros Hrun Hlog Hplain Hpath Hmk Hdir s0 Hfs0.
  apply request_token_fs in Hrun
    as [_ [[_ Hsame] | (f & pre & _ & _ & Hfs & _)]];
    [now destruct Hlog|].
  rewrite Hpath in Hfs.
  assert (Hrt : json_loads (json_dumps_default env tok) = Ok tok).
  { unfold json_loads, json_dumps_default.
    pose proof (skip_ws_dumps (env_float_repr env) tok [] Hplain) as Hskip.
    pose proof (plain_reads_back (env_float_repr env) tok Hplain []
                  (2 * List.length
                         (dumps (env_float_repr env) (py ", ") (py ": ") tok)
                   + 2)%nat I) as Hscan.
    rewrite List.app_nil_r in Hskip, Hscan.
    rewrite Hskip, Hscan by lia. reflexivity. }
  assert (Hfile : st_fs s0 !! cache_path env (account self)
                  = Some (File (json_dumps_default env tok))).
  { rewrite Hfs0, Hfs. apply lookup_insert_eq. }
  assert (Hdir0 : forall t, st_fs s0 !! path_parent (cache_path env (account self))
                            <> Some (File t)).
  { intros t. rewrite Hfs0, Hfs.
    rewrite lookup_insert_ne
      by (intros E; exact (cache_dir_is_not_cache_file env _ (eq_sym E))).
    apply Hdir. }
  pose proof (provider_construction env (account self) k kd ex tu s0 Hmk Hdir0)
    as Hc.
  cbv zeta in Hc. rewrite Hfile, Hrt in Hc.
  eexists. eexists. split; [exact Hc|].
  repeat split. cbn [cached_token_path]. now rewrite Hpath.
Qed.

Lemma plain_token_survives_restart_witness :
  exists tok s' p s1,
    request_token sample_env sample_provider stale_state = (Ok tok, s')
    /\ AccessTokenProvider sample_env (JStr (py "svc@example.test"))
         (JStr (py "PEM")) None None None s' = (Ok p, s1)
    /\ st_cached_token s1 = tok.
Proof.
  set (tok := JObj [(py "access_token", JStr (py "ya29.x"));
                    (py "token_type", JStr (py "Bearer"));
                    (py "expires_in", JInt 3599);
                    (py "expires_at", JInt 4600)]).
  set (s' := snd (request_token sample_env sample_provider stale_state)).
  assert (E : request_token sample_env sample_provider stale_state
              = (Ok tok, s')) by (vm_compute; reflexivity).
  destruct (plain_token_survives_restart sample_env sample_provider stale_state
              tok s' (JStr (py "PEM")) None None None)
    with (s0 := s') as (p & s1 & H1 & H2 & _).
  - exact E.
  - vm_compute. discriminate.
  - vm_compute. reflexivity.
  - vm_compute. reflexivity.
  - reflexivity.
  - intros t. vm_compute. discriminate.
  - reflexivity.
  - exists tok, s', p, s1. auto.
Defined.
